(** * VacationBookingAPI: reservations, authentication and validation

    A shallow embedding of the request handlers of the booking API
    (routes/reservations.js, routes/properties.js, routes/users.js, the
    signup and signin handlers, the [authenticateJWT] and express-validator
    middleware, and the Sequelize models) together with the properties the
    specification states about them.

    Conventions.
    - A table is the list of its rows, in insertion order.
    - An instant is the number of milliseconds since the epoch ([Z]).
    - [req.body] is a JavaScript object: a finite map from keys to values.
    - The libraries the handlers call (jsonwebtoken, validator.js, the
      [Date] constructor, the value binding of the ORM) and the choices the
      store makes are the fields of the class [Platform]; every theorem
      holds for every platform.
    - A date of a request body is read by three libraries: validator.js
      ([isISO8601]), the [Date] constructor (the range check of the
      handlers, and the attribute the ORM writes) and the formatting of
      the values of a where clause ([sql_datetime]); the key of a
      property is read by the where clause and by the insert. Nothing
      makes the readers agree, and the embedding keeps them apart.
    - A handler is a function from the request and the store to the new
      store and what the handler did: a response that was sent, or
      [Thrown] when a store call threw inside the [async] handler (none of
      the reservation handlers has a [try]). *)

From Stdlib Require Import ZArith QArith String Ascii List Bool Lia Sorted.
From stdpp Require Import base option gmap strings list pretty.
Import ListNotations.

Local Open Scope string_scope.
Local Open Scope Z_scope.
Local Open Scope list_scope.

(** ** JavaScript values *)

Unset Elimination Schemes.
Inductive JsValue :=
| JNull
| JBool (b : bool)
| JNum (n : Z)
| JStr (s : string)
| JArr (items : list JsValue)
| JObj (fields : list (string * JsValue)).
Set Elimination Schemes.

(** [s.startsWith(p)] *)
Definition startsWith (s p : string) : bool := String.prefix p s.

Fixpoint String_drop (n : nat) (s : string) : string :=
  match n, s with
  | O, _ => s
  | S _, EmptyString => EmptyString
  | S n', String _ s' => String_drop n' s'
  end.

(** [s.replace(pat, rep)] with a string pattern: the first occurrence only. *)
Fixpoint String_replace (pat rep s : string) : string :=
  if String.prefix pat s then rep +:+ String_drop (String.length pat) s
  else match s with
       | EmptyString => EmptyString
       | String c s' => String c (String_replace pat rep s')
       end.

(** A string is truthy when it is not empty. *)
Definition truthy (s : string) : bool :=
  match s with EmptyString => false | _ => true end.

(** JavaScript truthiness of a value that is present. *)
Definition js_truthy (v : JsValue) : bool :=
  match v with
  | JNull => false
  | JBool b => b
  | JNum n => negb (n =? 0)
  | JStr s => truthy s
  | JArr _ | JObj _ => true
  end.

(** ** Characters, regular expressions and [parseInt]

    A string is a sequence of 8-bit characters; [String.length] is the
    length the validators measure. *)

Definition char_between (lo hi : nat) (c : ascii) : bool :=
  (lo <=? nat_of_ascii c)%nat && (nat_of_ascii c <=? hi)%nat.

(** [[A-Z]], [[a-z]] and [[0-9]] *)
Definition is_upper (c : ascii) : bool := char_between 65 90 c.
Definition is_lower (c : ascii) : bool := char_between 97 122 c.
Definition is_digit (c : ascii) : bool := char_between 48 57 c.

(** The class of the fourth password pattern: the punctuation below, the
    double quote being character 34. *)
Definition special_characters : list ascii :=
  list_ascii_of_string "!@#$%^&*(),.?"
  ++ [ascii_of_nat 34]
  ++ list_ascii_of_string ":{}|<>".

Definition is_special (c : ascii) : bool :=
  existsb (Ascii.eqb c) special_characters.

(** [\s] and the white space [parseInt] skips, among 8-bit characters. *)
Definition is_space (c : ascii) : bool :=
  char_between 9 13 c || (nat_of_ascii c =? 32)%nat || (nat_of_ascii c =? 160)%nat.

(** [/[class]/.test(s)]: some character of [s] is in the class. *)
Definition matches_class (cls : ascii -> bool) (s : string) : bool :=
  existsb cls (list_ascii_of_string s).

(** [[^\s@]] *)
Definition is_email_char (c : ascii) : bool :=
  negb (is_space c) && negb (Ascii.eqb c "@").

Definition nilb (l : list ascii) : bool :=
  match l with [] => true | _ => false end.

(** [/^[^\s@]+\.[^\s@]+$/.test(l)] on the characters [l] *)
Fixpoint matches_domain (l : list ascii) : bool :=
  match l with
  | c :: ((d :: rest) as l') =>
      is_email_char c
      && ((Ascii.eqb d "." && negb (nilb rest) && forallb is_email_char rest)
          || matches_domain l')
  | _ => false
  end.

(** [/^[^\s@]+@[^\s@]+\.[^\s@]+$/.test(l)] *)
Fixpoint matches_email (l : list ascii) : bool :=
  match l with
  | c :: ((d :: rest) as l') =>
      is_email_char c
      && ((Ascii.eqb d "@" && matches_domain rest) || matches_email l')
  | _ => false
  end.

Fixpoint skip_space (s : string) : string :=
  match s with
  | String c s' => if is_space c then skip_space s' else s
  | EmptyString => s
  end.

Definition digit_value (c : ascii) : Z := Z.of_nat (nat_of_ascii c) - 48.

(** The value of the longest prefix of digits of [s], after [acc]. *)
Fixpoint digits_value (acc : Z) (s : string) : Z :=
  match s with
  | String c s' => if is_digit c then digits_value (10 * acc + digit_value c) s' else acc
  | EmptyString => acc
  end.

Definition starts_with_digit (s : string) : bool :=
  match s with String c _ => is_digit c | EmptyString => false end.

(** A JavaScript number that is an integer, or NaN ([None]). *)
Definition Number := option Z.

(** [parseInt(s, 10)]: white space, an optional sign, then as many digits
    as there are; NaN when there is none. The value is the mathematical
    integer the digits write. The Number JavaScript returns is that
    integer as long as it is a safe integer (below 2^53 in absolute
    value); beyond, it is a rounded double, which the embedding does not
    compute: the statements about numbers of a query are made for safe
    integers. *)
Definition parseInt (s : string) : Number :=
  let s1 := skip_space s in
  let '(sign, s2) :=
    match s1 with
    | String c s' =>
        if Ascii.eqb c "-" then (-1, s')
        else if Ascii.eqb c "+" then (1, s')
        else (1, s1)
    | EmptyString => (1, s1)
    end in
  if starts_with_digit s2 then Some (sign * digits_value 0 s2) else None.

(** The integers a Number holds exactly. *)
Definition safe_integer (n : Z) : Prop := - 2 ^ 53 < n < 2 ^ 53.

(** ** The models (sequelize.js) *)

Module User.
Record t := mk {
  id : Z;
  email : string;
  password : string;
  firstName : string;
  lastName : string;
  phoneNumber : string
}.
End User.

Module Property.
Record t := mk {
  id : Z;
  name : string;
  address : string;
  city : string;
  price : Q;
  capacity : Z
}.
End Property.

(** [Reservation.belongsTo(User)] and [Reservation.belongsTo(Property)] add
    the foreign keys [UserId] and [PropertyId], both NOT NULL. A row holds
    the declared attributes and the two keys; the [createdAt] and
    [updatedAt] stamps the ORM keeps by itself are left out. *)
Module Reservation.
Record t := mk {
  id : Z;
  arrivalTime : Z;
  departureTime : Z;
  UserId : Z;
  PropertyId : Z
}.
End Reservation.

Record Store := {
  users : list User.t;
  properties : list Property.t;
  reservations : list Reservation.t;
  (** AUTO_INCREMENT counter of the Reservations table *)
  nextReservationId : Z
}.

(** ** Where clauses and orders *)

Inductive Op := Op_eq | Op_ne | Op_lt | Op_gt.

Inductive Column := col_id | col_arrivalTime | col_departureTime | col_UserId | col_PropertyId.

(** One entry of a [where] object: the column, the operator and the
    JavaScript value handed to the ORM ([None] is [undefined]). The key
    [propertyId] of the handlers names the column [PropertyId]: MySQL
    column names are not case sensitive. *)
Definition Where := list (Column * Op * option JsValue).

(** What a statement compares a column with: a number (a key, or the
    instant of a date-time), or the text 'Invalid date', which the ORM
    writes for a value of a DATETIME column that moment does not read as a
    date. *)
Inductive SqlValue :=
| SqlNum (n : Z)
| SqlInvalidDate.

Inductive Direction := asc | desc.

(** ** The platform *)

(** The payload signup and signin sign: [jwt.sign({ userId: user.id }, ...)]. *)
Record Claims := { userId : Z }.

Class Platform := {
  (** [jwt.verify(token, process.env.JWT_SECRET)]; [None] when it throws
      (malformed token, bad signature, expired). *)
  jwt_verify : string -> option Claims;
  (** The string express-validator hands to a validator for a value. *)
  field_toString : JsValue -> string;
  field_toString_JStr : forall s, field_toString (JStr s) = s;
  (** [validator.isISO8601(str)] and [validator.isEmail(str)] *)
  isISO8601 : string -> bool;
  isEmail : string -> bool;
  (** [new Date(v).getTime()]; [None] is NaN (Invalid Date). *)
  Date_getTime : JsValue -> option Z;
  (** The integer the store reads from a value bound to an INTEGER column;
      [None] when the statement is rejected. *)
  sql_integer : JsValue -> option Z;
  sql_integer_JNum : forall n, sql_integer (JNum n) = Some n;
  (** The integer the store writes for a value an insert sets an INTEGER
      column to; [None] when the insert is rejected. An insert and a
      comparison need not read a value alike (the text of a number with a
      fraction, say). *)
  sql_integer_insert : JsValue -> option Z;
  (** What a where clause compares a DATETIME column with for the value
      [v]: the ORM formats [v] with moment, not with [Date], and the store
      reads the text. [None] when the statement is rejected. *)
  sql_datetime : JsValue -> option SqlValue;
  (** [column op 'Invalid date'] for a DATETIME column that holds the
      instant [t]: what the store makes of the comparison of a date-time
      with a text that is none. *)
  sql_compare_invalid : Op -> Z -> bool;
  (** [ORDER BY price] names no second key: the order of rows of equal
      price is the choice of the store, and it may change from one
      statement to the next. For the statement with this direction,
      OFFSET and LIMIT on the rows the filter keeps, rows of equal price
      come out by increasing rank. *)
  sql_tie_rank : Direction -> Z -> Z -> list Property.t -> Property.t -> Z
}.

Definition column_value (c : Column) (r : Reservation.t) : Z :=
  match c with
  | col_id => Reservation.id r
  | col_arrivalTime => Reservation.arrivalTime r
  | col_departureTime => Reservation.departureTime r
  | col_UserId => Reservation.UserId r
  | col_PropertyId => Reservation.PropertyId r
  end.

Definition compare_op (o : Op) (x y : Z) : bool :=
  match o with
  | Op_eq => x =? y
  | Op_ne => negb (x =? y)
  | Op_lt => x <? y
  | Op_gt => x >? y
  end.

Section Handlers.
Context {P : Platform}.

(** The value of [v] as the statement compares it with column [c]. An
    [undefined] value makes the ORM throw. *)
Definition bind_value (c : Column) (v : option JsValue) : option SqlValue :=
  match v with
  | None => None
  | Some x =>
      match c with
      | col_arrivalTime | col_departureTime => sql_datetime x
      | _ => option_map SqlNum (sql_integer x)
      end
  end.

(** [column op value] on the stored number [x]. *)
Definition compare_bound (o : Op) (x : Z) (y : SqlValue) : bool :=
  match y with
  | SqlNum n => compare_op o x n
  | SqlInvalidDate => sql_compare_invalid o x
  end.

Fixpoint where_holds (w : Where) (r : Reservation.t) : option bool :=
  match w with
  | [] => Some true
  | (c, o, v) :: w' =>
      match bind_value c v, where_holds w' r with
      | Some y, Some b => Some (compare_bound o (column_value c r) y && b)
      | _, _ => None
      end
  end.

(** Whether every value of the clause can be bound; it does not depend on
    the rows. *)
Fixpoint where_binds (w : Where) : bool :=
  match w with
  | [] => true
  | (c, _, v) :: w' =>
      match bind_value c v with Some _ => where_binds w' | None => false end
  end.

Definition where_test (w : Where) (r : Reservation.t) : bool :=
  match where_holds w r with Some b => b | None => false end.

(** [Reservation.findAll({ where })]; [None] when the call throws. *)
Definition Reservation_findAll (w : Where) (st : Store) : option (list Reservation.t) :=
  if where_binds w then Some (List.filter (where_test w) (reservations st)) else None.

(** [Reservation.findByPk(id)] *)
Definition Reservation_findByPk (i : Z) (st : Store) : option Reservation.t :=
  List.find (fun r => Reservation.id r =? i) (reservations st).

(** The store with the row [r] appended to the Reservations table. *)
Definition inserted (r : Reservation.t) (st : Store) : Store :=
  {| users := users st;
     properties := properties st;
     reservations := reservations st ++ [r];
     nextReservationId := nextReservationId st + 1 |}.

(** The instant the ORM writes for an attribute of type DATE that is set
    to [v]. The setter of the type turns a truthy value that is no [Date]
    into [new Date(v)], whatever a where clause would make of [v], and the
    store (MySQL in its strict mode, the default) refuses an Invalid Date.
    A falsy value is written as it is: the number 0 is the epoch, and
    [null], [false] and the empty string are no date-time for the
    column. *)
Definition Date_attribute (v : option JsValue) : option Z :=
  match v with
  | Some x =>
      if js_truthy x then Date_getTime x
      else match x with JNum n => Some n | _ => None end
  | None => None
  end.

(** The key the insert writes for an attribute of type INTEGER that is set
    to [v]; an [undefined] value is none, and the column is NOT NULL. *)
Definition Integer_attribute (v : option JsValue) : option Z :=
  match v with
  | Some x => sql_integer_insert x
  | None => None
  end.

(** [Reservation.create({ PropertyId, arrivalTime, departureTime, UserId })]
    with the values of the body as they came. The insert is rejected when
    a value cannot be written or a foreign key names no row. *)
Definition Reservation_create (vPropertyId vArrival vDeparture : option JsValue)
    (vUserId : Z) (st : Store) : option (Reservation.t * Store) :=
  match Integer_attribute vPropertyId,
        Date_attribute vArrival, Date_attribute vDeparture with
  | Some p, Some a, Some d =>
      if existsb (fun x => Property.id x =? p) (properties st)
         && existsb (fun u => User.id u =? vUserId) (users st)
      then
        let r := Reservation.mk (nextReservationId st) a d vUserId p in
        Some (r, inserted r st)
      else None
  | _, _, _ => None
  end.

Definition set_times (a d : Z) (r : Reservation.t) : Reservation.t :=
  Reservation.mk (Reservation.id r) a d (Reservation.UserId r) (Reservation.PropertyId r).

(** The store in which the rows with primary key [i] have the times [a]
    and [d]. *)
Definition retimed (i a d : Z) (st : Store) : Store :=
  {| users := users st;
     properties := properties st;
     reservations :=
       List.map (fun x => if Reservation.id x =? i then set_times a d x else x)
                (reservations st);
     nextReservationId := nextReservationId st |}.

(** [reservation.update({ arrivalTime, departureTime })]: the two
    attributes are set as [create] sets them, the row with the primary key
    of the instance gets them, and the instance is returned with them. *)
Definition Reservation_update (r : Reservation.t) (vArrival vDeparture : option JsValue)
    (st : Store) : option (Reservation.t * Store) :=
  match Date_attribute vArrival, Date_attribute vDeparture with
  | Some a, Some d =>
      Some (set_times a d r, retimed (Reservation.id r) a d st)
  | _, _ => None
  end.

(** [reservation.destroy()] *)
Definition Reservation_destroy (r : Reservation.t) (st : Store) : Store :=
  {| users := users st;
     properties := properties st;
     reservations :=
       List.filter (fun x => negb (Reservation.id x =? Reservation.id r)) (reservations st);
     nextReservationId := nextReservationId st |}.

(** ** Requests and responses *)

Record Request := {
  (** [req.header('Authorization')] *)
  authorization : option string;
  (** [req.params.id], as the integer the primary key is compared with *)
  params_id : Z;
  query : gmap string string;
  body : gmap string JsValue;
  (** [req.user], set by [authenticateJWT] *)
  user : option Claims
}.

Definition set_user (decoded : Claims) (req : Request) : Request :=
  {| authorization := authorization req;
     params_id := params_id req;
     query := query req;
     body := body req;
     user := Some decoded |}.

(** One entry of [validationResult(req).array()]. *)
Record FieldError := { path : string; msg : string }.

Inductive Payload :=
| error (message : string)
| errors (list_ : list FieldError)
| message (text : string)
| reservation (r : Reservation.t)
| reservation_list (l : list Reservation.t)
| property_list (l : list Property.t).

Record Response := { status : Z; payload : Payload }.

Inductive Outcome :=
| Sent (res : Response)
| Thrown.

Definition Handler := Request -> Store -> Store * Outcome.

(** A middleware answers the request itself or calls [next()] with the
    request it may have extended. *)
Definition Middleware := Request -> Response + Request.

Fixpoint route (mws : list Middleware) (h : Handler) (req : Request) (st : Store)
    : Store * Outcome :=
  match mws with
  | [] => h req st
  | mw :: rest =>
      match mw req with
      | inl res => (st, Sent res)
      | inr req' => route rest h req' st
      end
  end.

(** The error taxonomy of the specification, as the responses the code sends. *)
Definition AuthenticationMissing : Response :=
  {| status := 401; payload := error "Access denied. No token provided." |}.
Definition AuthenticationInvalid : Response :=
  {| status := 400; payload := error "Invalid token." |}.
Definition ValidationFailed (l : list FieldError) : Response :=
  {| status := 400; payload := errors l |}.
Definition RangeInvalid : Response :=
  {| status := 400; payload := error "departureTime must be after arrivalTime." |}.
Definition BookingConflict : Response :=
  {| status := 400;
     payload := error "The property is already booked for the requested dates." |}.
Definition ReservationNotFound : Response :=
  {| status := 404; payload := error "Reservation not found." |}.

(** ** middleware/authenticateJWT.js *)

Definition authenticateJWT : Middleware := fun req =>
  match authorization req with
  | None => inl AuthenticationMissing
  | Some authHeader =>
      if negb (truthy authHeader) || negb (startsWith authHeader "Bearer ")
      then inl AuthenticationMissing
      else
        let token := String_replace "Bearer " "" authHeader in
        match jwt_verify token with
        | Some decoded => inr (set_user decoded req)
        | None => inl AuthenticationInvalid
        end
  end.

(** ** middleware/middleware.js: validateReservation *)

(** One validator of a chain on one value: the message is recorded when
    the check fails. *)
Definition check (ok : bool) (field message_ : string) : list FieldError :=
  if ok then [] else [{| path := field; msg := message_ |}].

(** The string a validator sees; an absent field is the empty string. *)
Definition field_text (v : option JsValue) : string :=
  match v with Some x => field_toString x | None => "" end.

(** One validator on the elements of an array: express-validator runs it
    on every element in turn, each handed over as a string, and records
    the message once for each that fails; on no element, it records
    nothing. *)
Definition check_all (ok : string -> bool) (items : list JsValue)
    (field message_ : string) : list FieldError :=
  flat_map (fun x => check (ok (field_toString x)) field message_) items.

(** One validator on the value of a field. *)
Definition check_field (ok : string -> bool) (v : option JsValue)
    (field message_ : string) : list FieldError :=
  match v with
  | Some (JArr items) => check_all ok items field message_
  | _ => check (ok (field_text v)) field message_
  end.

Definition validateReservation_errors (b : gmap string JsValue) : list FieldError :=
  check_field isISO8601 (b !! "arrivalTime") "arrivalTime" "Must be a valid date"
  ++ check_field isISO8601 (b !! "departureTime") "departureTime" "Must be a valid date".

Definition validateReservation : Middleware := fun req =>
  match validateReservation_errors (body req) with
  | [] => inr req
  | errs => inl (ValidationFailed errs)
  end.

(** ** routes/reservations.js *)

(** [new Date(v)], by its time value. *)
Definition new_Date (v : option JsValue) : option Z :=
  match v with Some x => Date_getTime x | None => None end.

(** [d1 <= d2] on two [Date] objects; a comparison with NaN is false. *)
Definition Date_le (d1 d2 : option Z) : bool :=
  match d1, d2 with
  | Some x, Some y => x <=? y
  | _, _ => false
  end.

Definition post_reservations : Handler := fun req st =>
  let propertyId := body req !! "propertyId" in
  let arrivalTime := body req !! "arrivalTime" in
  let departureTime := body req !! "departureTime" in
  if Date_le (new_Date departureTime) (new_Date arrivalTime)
  then (st, Sent RangeInvalid)
  else
    match Reservation_findAll
            [ (col_PropertyId, Op_eq, propertyId);
              (col_arrivalTime, Op_lt, departureTime);
              (col_departureTime, Op_gt, arrivalTime) ] st with
    | None => (st, Thrown)
    | Some existingReservations =>
        if (0 <? Z.of_nat (length existingReservations))
        then (st, Sent BookingConflict)
        else
          match user req with
          | None => (st, Thrown)
          | Some u =>
              match Reservation_create propertyId arrivalTime departureTime (userId u) st with
              | None => (st, Thrown)
              | Some (r, st') => (st', Sent {| status := 201; payload := reservation r |})
              end
          end
    end.

Definition get_reservations : Handler := fun req st =>
  match user req with
  | None => (st, Thrown)
  | Some u =>
      match Reservation_findAll [ (col_UserId, Op_eq, Some (JNum (userId u))) ] st with
      | None => (st, Thrown)
      | Some l => (st, Sent {| status := 200; payload := reservation_list l |})
      end
  end.

Definition get_reservation : Handler := fun req st =>
  match Reservation_findByPk (params_id req) st with
  | None => (st, Sent ReservationNotFound)
  | Some r => (st, Sent {| status := 200; payload := reservation r |})
  end.

Definition put_reservation : Handler := fun req st =>
  match Reservation_findByPk (params_id req) st with
  | None => (st, Sent ReservationNotFound)
  | Some r =>
      let arrivalTime := body req !! "arrivalTime" in
      let departureTime := body req !! "departureTime" in
      if Date_le (new_Date departureTime) (new_Date arrivalTime)
      then (st, Sent RangeInvalid)
      else
        match Reservation_findAll
                [ (col_PropertyId, Op_eq, Some (JNum (Reservation.PropertyId r)));
                  (col_arrivalTime, Op_lt, departureTime);
                  (col_departureTime, Op_gt, arrivalTime);
                  (col_id, Op_ne, Some (JNum (Reservation.id r))) ] st with
        | None => (st, Thrown)
        | Some existingReservations =>
            if (0 <? Z.of_nat (length existingReservations))
            then (st, Sent BookingConflict)
            else
              match Reservation_update r arrivalTime departureTime st with
              | None => (st, Thrown)
              | Some (r', st') => (st', Sent {| status := 200; payload := reservation r' |})
              end
        end
  end.

Definition delete_reservation : Handler := fun req st =>
  match Reservation_findByPk (params_id req) st with
  | None => (st, Sent ReservationNotFound)
  | Some r =>
      (Reservation_destroy r st,
       Sent {| status := 200; payload := message "Reservation deleted successfully." |})
  end.

(** The routes as they are registered on the router. *)
Definition POST_reservations : Handler :=
  route [authenticateJWT; validateReservation] post_reservations.
Definition GET_reservations : Handler :=
  route [authenticateJWT] get_reservations.
Definition GET_reservations_id : Handler :=
  route [authenticateJWT] get_reservation.
Definition PUT_reservations_id : Handler :=
  route [authenticateJWT; validateReservation] put_reservation.
Definition DELETE_reservations_id : Handler :=
  route [authenticateJWT] delete_reservation.

(** ** middleware/middleware.js: validateUser *)

(** The chain of [email] on one value. *)
Definition validate_email (v : string) : list FieldError :=
  check (isEmail v) "email" "Must be a valid email"
  ++ check (matches_email (list_ascii_of_string v)) "email" "Must be a valid email format".

(** The chain of [password] on one value. *)
Definition validate_password (v : string) : list FieldError :=
  check (10 <=? String.length v)%nat "password"
        "Password must be at least 10 characters long"
  ++ check (matches_class is_upper v) "password"
        "Password must contain at least one uppercase letter"
  ++ check (matches_class is_lower v) "password"
        "Password must contain at least one lowercase letter"
  ++ check (matches_class is_special v) "password"
        "Password must contain at least one special character".

(** The two chains on the value of the field: on an array each validator
    of the chain runs on every element before the next validator does. *)
Definition validate_email_field (v : option JsValue) : list FieldError :=
  match v with
  | Some (JArr items) =>
      check_all isEmail items "email" "Must be a valid email"
      ++ check_all (fun s => matches_email (list_ascii_of_string s)) items "email"
           "Must be a valid email format"
  | _ => validate_email (field_text v)
  end.

Definition validate_password_field (v : option JsValue) : list FieldError :=
  match v with
  | Some (JArr items) =>
      check_all (fun s => (10 <=? String.length s)%nat) items "password"
        "Password must be at least 10 characters long"
      ++ check_all (matches_class is_upper) items "password"
           "Password must contain at least one uppercase letter"
      ++ check_all (matches_class is_lower) items "password"
           "Password must contain at least one lowercase letter"
      ++ check_all (matches_class is_special) items "password"
           "Password must contain at least one special character"
  | _ => validate_password (field_text v)
  end.

(** [notEmpty()] *)
Definition notEmpty (v : string) : bool := negb (String.length v =? 0)%nat.

Definition validateUser_errors (b : gmap string JsValue) : list FieldError :=
  validate_email_field (b !! "email")
  ++ validate_password_field (b !! "password")
  ++ check_field notEmpty (b !! "firstName") "firstName" "First name is required"
  ++ check_field notEmpty (b !! "lastName") "lastName" "Last name is required"
  ++ check_field notEmpty (b !! "phoneNumber") "phoneNumber" "Phone number is required".

Definition validateUser : Middleware := fun req =>
  match validateUser_errors (body req) with
  | [] => inr req
  | errs => inl (ValidationFailed errs)
  end.

(** ** routes/properties.js: the listing with filter, order and paging *)

(** The direction the ORM reads from ['asc'] or ['desc']. *)
Definition direction_of (s : string) : Direction :=
  if String.eqb s "desc" then desc else asc.

(** [ORDER BY price]: whether the row [x] comes out before [y], the rank
    deciding between rows of equal price. *)
Definition row_before (dir : Direction) (rank : Property.t -> Z) (x y : Property.t)
    : bool :=
  match (Property.price x ?= Property.price y)%Q with
  | Lt => match dir with asc => true | desc => false end
  | Gt => match dir with asc => false | desc => true end
  | Eq => rank x <=? rank y
  end.

Fixpoint insert_by_price (dir : Direction) (rank : Property.t -> Z) (x : Property.t)
    (l : list Property.t) : list Property.t :=
  match l with
  | [] => [x]
  | y :: l' =>
      if row_before dir rank x y then x :: l else y :: insert_by_price dir rank x l'
  end.

Fixpoint order_by_price (dir : Direction) (rank : Property.t -> Z) (l : list Property.t)
    : list Property.t :=
  match l with
  | [] => []
  | x :: l' => insert_by_price dir rank x (order_by_price dir rank l')
  end.

(** The options of [Property.findAll]: [where.capacity] when the filter has
    the key, the direction of [order], [limit] and [offset]. *)
Record FindOptions := {
  where_capacity : option Number;
  order_price : Direction;
  limit : Z;
  offset : Number
}.

(** [Property.findAll(options)]: the rows the filter keeps, in an order by
    price, then [LIMIT offset, limit]. The statement fails on a NaN and on
    a negative offset. *)
Definition Property_findAll (o : FindOptions) (st : Store) : option (list Property.t) :=
  match where_capacity o, offset o with
  | Some None, _ => None
  | _, None => None
  | wc, Some off =>
      if off <? 0 then None
      else
        let kept :=
          match wc with
          | Some (Some c) => List.filter (fun x => Property.capacity x =? c) (properties st)
          | _ => properties st
          end in
        let rank := sql_tie_rank (order_price o) off (limit o) kept in
        Some (firstn (Z.to_nat (limit o))
                (skipn (Z.to_nat off) (order_by_price (order_price o) rank kept)))
  end.

Definition Number_mul (x y : Number) : Number :=
  match x, y with Some a, Some b => Some (a * b) | _, _ => None end.

Definition get_properties : Handler := fun req st =>
  let capacity := query req !! "capacity" in
  let sort := query req !! "sort" in
  let offset_ := query req !! "offset" in
  let filter_capacity :=
    match capacity with
    | Some c => if truthy c then Some (parseInt c) else None
    | None => None
    end in
  let order :=
    match sort with
    | Some s =>
        if truthy s && (String.eqb s "asc" || String.eqb s "desc")
        then direction_of s
        else asc
    | None => asc
    end in
  let pagination_limit := 6 in
  let pagination_offset :=
    match offset_ with
    | Some o => if truthy o then parseInt o else Some 0
    | None => Some 0
    end in
  match Property_findAll
          {| where_capacity := filter_capacity;
             order_price := order;
             limit := pagination_limit;
             offset := Number_mul pagination_offset (Some pagination_limit) |} st with
  | Some l => (st, Sent {| status := 200; payload := property_list l |})
  | None => (st, Sent {| status := 500; payload := error "Failed to retrieve properties." |})
  end.

Definition GET_properties : Handler := route [] get_properties.

(** The copy of the route in routes/properties.js, which reads no query
    parameter: [Property.findAll()] without options sends every row (here
    in the order of the table; the statement names no order). *)
Definition get_properties_plain : Handler := fun req st =>
  (st, Sent {| status := 200; payload := property_list (properties st) |}).

(** ** Vocabulary of the statements *)

(** The request carries a bearer token that verifies to [c]. *)
Definition bearer (req : Request) (c : Claims) : Prop :=
  exists token,
    authorization req = Some ("Bearer " +:+ token) /\ jwt_verify token = Some c.

(** Every value a validator runs on for the field passes it. *)
Definition field_passes (ok : string -> bool) (v : option JsValue) : Prop :=
  match v with
  | Some (JArr items) => Forall (fun x => ok (field_toString x) = true) items
  | _ => ok (field_text v) = true
  end.

(** Both dates of the body pass [validateReservation]. *)
Definition dates_validated (b : gmap string JsValue) : Prop :=
  field_passes isISO8601 (b !! "arrivalTime")
  /\ field_passes isISO8601 (b !! "departureTime").

(** The range check of the handlers lets the body through:
    [new Date(departureTime) <= new Date(arrivalTime)] is false. *)
Definition range_accepted (b : gmap string JsValue) : Prop :=
  Date_le (new_Date (b !! "departureTime")) (new_Date (b !! "arrivalTime")) = false.

(** The instants the overlap query reads from the two dates of the body. *)
Definition stay_of (b : gmap string JsValue) (a d : Z) : Prop :=
  bind_value col_arrivalTime (b !! "arrivalTime") = Some (SqlNum a)
  /\ bind_value col_departureTime (b !! "departureTime") = Some (SqlNum d).

(** The instants [create] and [update] write for the two dates of the
    body. *)
Definition stay_written (b : gmap string JsValue) (a d : Z) : Prop :=
  Date_attribute (b !! "arrivalTime") = Some a
  /\ Date_attribute (b !! "departureTime") = Some d.

(** The date [v] is read alike: when it is written as the instant [t], the
    overlap query reads it as [t] too. *)
Definition read_alike (v : option JsValue) : Prop :=
  forall t, Date_attribute v = Some t -> bind_value col_arrivalTime v = Some (SqlNum t).

Definition dates_read_alike (b : gmap string JsValue) : Prop :=
  read_alike (b !! "arrivalTime") /\ read_alike (b !! "departureTime").

(** The property [create] writes for the key of the body. *)
Definition property_written (b : gmap string JsValue) (p : Z) : Prop :=
  Integer_attribute (b !! "propertyId") = Some p.

(** The key of the body is read alike: when it is written as the property
    [p], the overlap query reads it as [p] too. *)
Definition key_read_alike (b : gmap string JsValue) : Prop :=
  forall p, property_written b p ->
            bind_value col_PropertyId (b !! "propertyId") = Some (SqlNum p).

(** The overlap query reads the body as the insert or the update writes
    it. *)
Definition body_read_alike (b : gmap string JsValue) : Prop :=
  key_read_alike b /\ dates_read_alike b.

(** The half-open overlap test: the stored reservation [x] starts before
    [d] and ends after [a]. *)
Definition overlaps (a d : Z) (x : Reservation.t) : Prop :=
  Reservation.arrivalTime x < d /\ Reservation.departureTime x > a.

(** [x] is not after [y] in the order of prices. *)
Definition price_le (dir : Direction) (x y : Property.t) : Prop :=
  match dir with
  | asc => (Property.price x <= Property.price y)%Q
  | desc => (Property.price y <= Property.price x)%Q
  end.

Definition overlapsb (a d : Z) (x : Reservation.t) : bool :=
  (Reservation.arrivalTime x <? d) && (Reservation.departureTime x >? a).

End Handlers.

(** ** A concrete platform for the worked examples

    Dates are written [YYYY-MM-DD] and read as midnight UTC. As in the
    libraries, the three readers differ on a day the month does not have:
    [isISO8601] accepts any day up to 31, [Date] counts on into the next
    month, and moment reads no date, so that the where clause holds
    'Invalid date'. The store compares a date-time with that text as
    texts, and a date-time starts with a digit, before the letter I. Rows
    of equal price come out in the order of the table. Two tokens are
    valid, one for user 1 and one for user 2. *)

Module Fixture.

Definition is_leap (y : Z) : bool :=
  ((y mod 4 =? 0) && negb (y mod 100 =? 0)) || (y mod 400 =? 0).

Definition days_in_month (y m : Z) : Z :=
  if m =? 2 then (if is_leap y then 29 else 28)
  else if (m =? 4) || (m =? 6) || (m =? 9) || (m =? 11) then 30
  else 31.

(** Days between 1970-01-01 and the civil date [y]-[m]-[d]. *)
Definition days_from_civil (y m d : Z) : Z :=
  let y' := if m <=? 2 then y - 1 else y in
  let era := y' / 400 in
  let yoe := y' - era * 400 in
  let mp := (m + 9) mod 12 in
  let doy := (153 * mp + 2) / 5 + d - 1 in
  let doe := yoe * 365 + yoe / 4 - yoe / 100 + doy in
  era * 146097 + doe - 719468.

Definition number_of (l : list ascii) : Z :=
  fold_left (fun acc c => 10 * acc + digit_value c) l 0.

(** Year, month and day of a string [YYYY-MM-DD] with a month from 01 to
    12 and a day from 01 to 31. *)
Definition read_date (s : string) : option (Z * Z * Z) :=
  match list_ascii_of_string s with
  | [y1; y2; y3; y4; h1; m1; m2; h2; d1; d2] =>
      if forallb is_digit [y1; y2; y3; y4; m1; m2; d1; d2]
         && Ascii.eqb h1 "-" && Ascii.eqb h2 "-"
      then
        let y := number_of [y1; y2; y3; y4] in
        let m := number_of [m1; m2] in
        let d := number_of [d1; d2] in
        if (1 <=? m) && (m <=? 12) && (1 <=? d) && (d <=? 31)
        then Some (y, m, d)
        else None
      else None
  | _ => None
  end.

(** [Date]: the day counts on from the first of the month. *)
Definition Date_parse (s : string) : option Z :=
  match read_date s with
  | Some (y, m, d) => Some (days_from_civil y m d * 86400000)
  | None => None
  end.

(** moment: the day has to be one of the month. *)
Definition parse_date (s : string) : option Z :=
  match read_date s with
  | Some (y, m, d) =>
      if d <=? days_in_month y m then Some (days_from_civil y m d * 86400000)
      else None
  | None => None
  end.

Definition verify (token : string) : option Claims :=
  if String.eqb token "token-of-user-1" then Some {| userId := 1 |}
  else if String.eqb token "token-of-user-2" then Some {| userId := 2 |}
  else None.

Definition to_string (v : JsValue) : string :=
  match v with
  | JStr s => s
  | JBool true => "true"
  | JBool false => "false"
  | JNum n => pretty n
  | _ => ""
  end.

Definition date_time (v : JsValue) : option Z :=
  match v with
  | JStr s => Date_parse s
  | JNum n => Some n
  | _ => None
  end.

Definition integer (v : JsValue) : option Z :=
  match v with JNum n => Some n | _ => None end.

Definition datetime (v : JsValue) : option SqlValue :=
  match v with
  | JStr s =>
      match parse_date s with
      | Some t => Some (SqlNum t)
      | None => Some SqlInvalidDate
      end
  | JNum n => Some (SqlNum n)
  | _ => None
  end.

Definition compare_text (o : Op) (t : Z) : bool :=
  match o with
  | Op_lt | Op_ne => true
  | Op_gt | Op_eq => false
  end.

#[export] Instance platform : Platform := {|
  jwt_verify := verify;
  field_toString := to_string;
  field_toString_JStr := fun s => eq_refl;
  isISO8601 := fun s => match read_date s with Some _ => true | None => false end;
  isEmail := fun s => matches_email (list_ascii_of_string s);
  Date_getTime := date_time;
  sql_integer := integer;
  sql_integer_JNum := fun n => eq_refl;
  sql_integer_insert := integer;
  sql_datetime := datetime;
  sql_compare_invalid := compare_text;
  sql_tie_rank := fun _ _ _ _ _ => 0
|}.

End Fixture.

(** ** Sample data *)

Module Sample.
Import Fixture.

Definition alice : User.t := User.mk 1 "alice@example.org" "$2a$10$hash-a" "Alice" "A" "0700000001".
Definition bob : User.t := User.mk 2 "bob@example.org" "$2a$10$hash-b" "Bob" "B" "0700000002".

Definition cabin : Property.t := Property.mk 1 "Cabin" "1 Forest Road" "Brasov" (120 # 1) 4.
Definition loft : Property.t := Property.mk 2 "Loft" "2 Main Street" "Cluj" (90 # 1) 2.

(** 2025-01-01 to 2025-01-10 in the cabin, booked by Alice. *)
Definition stay : Reservation.t := Reservation.mk 1 1735689600000 1736467200000 1 1.

Definition empty_store : Store :=
  {| users := [alice; bob]; properties := [cabin; loft]; reservations := [];
     nextReservationId := 1 |}.

Definition booked_store : Store :=
  {| users := [alice; bob]; properties := [cabin; loft]; reservations := [stay];
     nextReservationId := 2 |}.

(** The booked store once the stay is deleted. *)
Definition empty_store_after_delete : Store :=
  {| users := [alice; bob]; properties := [cabin; loft]; reservations := [];
     nextReservationId := 2 |}.

Definition dates_body (p : Z) (arrival departure : string) : gmap string JsValue :=
  <["propertyId" := JNum p]> (<["arrivalTime" := JStr arrival]>
    (<["departureTime" := JStr departure]> ∅)).

Definition request (header : option string) (i : Z) (b : gmap string JsValue) : Request :=
  {| authorization := header; params_id := i; query := ∅; body := b; user := None |}.

Definition villa : Property.t := Property.mk 3 "Villa" "3 Sea Lane" "Constanta" (300 # 1) 4.
Definition hut : Property.t := Property.mk 4 "Hut" "4 Hill Path" "Sinaia" (159 # 2) 4.

Definition listing_store : Store :=
  {| users := [alice; bob]; properties := [cabin; loft; villa; hut];
     reservations := []; nextReservationId := 1 |}.

(** [GET /properties?capacity=4&sort=desc&offset=0] *)
Definition listing_request : Request :=
  {| authorization := None; params_id := 0;
     query := <["capacity" := "4"]> (<["sort" := "desc"]> (<["offset" := "0"]> ∅));
     body := ∅; user := None |}.

Definition as_alice : option string := Some "Bearer token-of-user-1".
Definition as_bob : option string := Some "Bearer token-of-user-2".

(** 2025-03-01 to 2025-03-10 in the cabin, booked by Alice. *)
Definition march_stay : Reservation.t := Reservation.mk 1 1740787200000 1741564800000 1 1.

Definition march_store : Store :=
  {| users := [alice; bob]; properties := [cabin; loft]; reservations := [march_stay];
     nextReservationId := 2 |}.

(** Bob asks for the cabin from "2025-02-30" to 2025-03-05. [Date] reads
    the arrival as 2025-03-02. *)
Definition rolled_request : Request :=
  request as_bob 0 (dates_body 1 "2025-02-30" "2025-03-05").

(** What the table holds afterwards: 2025-03-02 to 2025-03-05 in the
    cabin for Bob, in the middle of the stay of Alice. *)
Definition rolled_stay : Reservation.t := Reservation.mk 2 1740873600000 1741132800000 2 1.

End Sample.

(** ** Invariants of the Reservations table and serial runs *)

(** Primary keys are pairwise different and below the counter. *)
Definition ids_fresh (st : Store) : Prop :=
  NoDup (List.map Reservation.id (reservations st))
  /\ Forall (fun r => Reservation.id r < nextReservationId st) (reservations st).

(** No two rows of one property overlap as half-open intervals. *)
Definition no_double_booking (st : Store) : Prop :=
  forall x y,
    In x (reservations st) -> In y (reservations st) ->
    Reservation.id x <> Reservation.id y ->
    Reservation.PropertyId x = Reservation.PropertyId y ->
    ~ (Reservation.arrivalTime x < Reservation.departureTime y
       /\ Reservation.arrivalTime y < Reservation.departureTime x).

(** The list a response carries, when it carries one. *)
Definition sent_properties (o : Store * Outcome) : list Property.t :=
  match snd o with
  | Sent {| payload := property_list l |} => l
  | _ => []
  end.

Definition sent_reservations (o : Store * Outcome) : list Reservation.t :=
  match snd o with
  | Sent {| payload := reservation_list l |} => l
  | _ => []
  end.

(** The request with the query parameter [offset] set to [os]. *)
Definition with_offset (os : string) (req : Request) : Request :=
  {| authorization := authorization req;
     params_id := params_id req;
     query := <["offset" := os]> (query req);
     body := body req;
     user := user req |}.

(** A character the classes [[^\s@]] of the e-mail pattern accept. *)
Definition email_char (ch : ascii) : Prop := is_space ch = false /\ ch <> "@"%char.

(** Requests served one after the other, each on the store the previous
    one left. *)
Fixpoint serve (calls : list (Handler * Request)) (st : Store) : Store :=
  match calls with
  | [] => st
  | (h, req) :: rest => serve rest (fst (h req st))
  end.

(** The ways a call of one of the routes of routes/reservations.js can
    end: refused or failed, a read, a row created, a row updated, a row
    deleted. *)
Inductive Step (st : Store) : Store -> Outcome -> Prop :=
| step_refused (out : Outcome) :
    (out = Thrown
     \/ exists res, out = Sent res /\ status res <> 200 /\ status res <> 201) ->
    Step st st out
| step_read (res : Response) :
    status res = 200 -> Step st st (Sent res)
| step_created (r : Reservation.t) :
    Reservation.id r = nextReservationId st ->
    Step st (inserted r st) (Sent {| status := 201; payload := reservation r |})
| step_updated (r : Reservation.t) (a d : Z) :
    In r (reservations st) ->
    Step st (retimed (Reservation.id r) a d st)
         (Sent {| status := 200; payload := reservation (set_times a d r) |})
| step_deleted (r : Reservation.t) :
    In r (reservations st) ->
    Step st (Reservation_destroy r st)
         (Sent {| status := 200; payload := message "Reservation deleted successfully." |}).

(** No two rows of the list have the same price. *)
Definition distinct_prices (l : list Property.t) : Prop :=
  ForallOrdPairs (fun x y => ~ (Property.price x == Property.price y)%Q) l.

Section Routers.
Context {P : Platform}.

(** The five routes of routes/reservations.js. *)
Definition reservation_routes : list Handler :=
  [ POST_reservations; GET_reservations; GET_reservations_id;
    PUT_reservations_id; DELETE_reservations_id ].

(** The rows [Property.findAll] keeps for the query: those of the parsed
    capacity, or all of them without the parameter. *)
Definition listed (c : option Z) (st : Store) : list Property.t :=
  match c with
  | Some n => List.filter (fun x => Property.capacity x =? n) (properties st)
  | None => properties st
  end.

End Routers.

(** ** Accounts: app.js (signup, signin) and routes/users.js

    bcryptjs, [jwt.sign] and the way the ORM binds strings are the fields
    of the class [Accounts]. What a call draws from outside the request and
    the store, the salt of [bcrypt.hash] and the clock of [jwt.sign], is
    the environment [Env] of the call. *)

Record Env := {
  (** the salt [bcrypt.hash(s, 10)] generates *)
  salt : string;
  (** the time [jwt.sign] stamps the token with *)
  now : Z
}.

Class Accounts := {
  (** [bcrypt.hash(s, 10)] for a string [s], with the salt it drew *)
  bcrypt_hash : string -> string -> string;
  (** [bcrypt.compare(s, hash)] on two strings *)
  bcrypt_compare : string -> string -> bool;
  (** [jwt.sign({ userId }, process.env.JWT_SECRET, { expiresIn: '24h' })] *)
  jwt_sign : Z -> Claims -> string;
  (** The string the store reads from a value bound to a STRING column;
      [None] when the insert or update is rejected. *)
  sql_string : JsValue -> option string;
  sql_string_JStr : forall s, sql_string (JStr s) = Some s;
  (** Whether a stored e-mail equals [e] for the unique index of the
      column (its collation). *)
  same_email : string -> string -> bool;
  (** [where: { email: v }]: the stored e-mails the clause selects;
      [None] when the ORM rejects the value. *)
  email_filter : JsValue -> option (string -> bool);
  email_filter_JStr : forall s, email_filter (JStr s) = Some (same_email s)
}.

(** The store with the AUTO_INCREMENT counter of the Users table. *)
Record Db := {
  tables : Store;
  nextUserId : Z
}.

Inductive AccountPayload :=
| account_error (message : string)
(** [{ user: { id, email }, token }] *)
| session (id : Z) (email : string) (token : string)
(** [res.send(user)]: the whole row *)
| account (u : User.t).

Inductive AccountOutcome :=
(** a middleware answered *)
| Refused (res : Response)
(** the handler answered *)
| Answered (status_ : Z) (p : AccountPayload)
(** the handler threw *)
| Failed.

Definition AccountHandler := Env -> Request -> Db -> Db * AccountOutcome.

Fixpoint account_route (mws : list Middleware) (h : AccountHandler)
    (env : Env) (req : Request) (db : Db) : Db * AccountOutcome :=
  match mws with
  | [] => h env req db
  | mw :: rest =>
      match mw req with
      | inl res => (db, Refused res)
      | inr req' => account_route rest h env req' db
      end
  end.

Definition set_users (l : list User.t) (n : Z) (db : Db) : Db :=
  {| tables := {| users := l;
                  properties := properties (tables db);
                  reservations := reservations (tables db);
                  nextReservationId := nextReservationId (tables db) |};
     nextUserId := n |}.

Section AccountHandlers.
Context {P : Platform} {A : Accounts}.

Definition bind_string (v : option JsValue) : option string :=
  match v with Some x => sql_string x | None => None end.

(** [User.create({ email, password, firstName, lastName, phoneNumber })]:
    rejected when a value cannot be bound (all five columns are NOT NULL)
    or the e-mail is taken ([unique: true]). *)
Definition User_create (vEmail : option JsValue) (hashedPassword : string)
    (vFirstName vLastName vPhoneNumber : option JsValue) (db : Db)
    : option (User.t * Db) :=
  match bind_string vEmail, bind_string vFirstName, bind_string vLastName,
        bind_string vPhoneNumber with
  | Some e, Some f, Some l, Some p =>
      if existsb (fun u => same_email e (User.email u)) (users (tables db))
      then None
      else
        let user := User.mk (nextUserId db) e hashedPassword f l p in
        Some (user, set_users (users (tables db) ++ [user]) (nextUserId db + 1) db)
  | _, _, _, _ => None
  end.

(** [User.findOne({ where: { email } })]; the outer [None] is a throw. *)
Definition User_findOne_email (vEmail : option JsValue) (db : Db)
    : option (option User.t) :=
  match vEmail with
  | None => None
  | Some v =>
      match email_filter v with
      | None => None
      | Some selects => Some (List.find (fun u => selects (User.email u)) (users (tables db)))
      end
  end.

(** [User.findByPk(id)] *)
Definition User_findByPk (i : Z) (db : Db) : option User.t :=
  List.find (fun u => User.id u =? i) (users (tables db)).

(** [user.update({ password, firstName, lastName, phoneNumber })] *)
Definition User_update (user : User.t) (hashedPassword : string)
    (vFirstName vLastName vPhoneNumber : option JsValue) (db : Db)
    : option (User.t * Db) :=
  match bind_string vFirstName, bind_string vLastName, bind_string vPhoneNumber with
  | Some f, Some l, Some p =>
      let user' := User.mk (User.id user) (User.email user) hashedPassword f l p in
      Some (user',
            set_users (List.map (fun u => if User.id u =? User.id user then user' else u)
                                (users (tables db)))
                      (nextUserId db) db)
  | _, _, _ => None
  end.

Definition RegistrationFailed : AccountOutcome :=
  Answered 400 (account_error "Registration failed. Please try again.").
Definition LoginRefused : AccountOutcome :=
  Answered 401 (account_error "Login failed! Check authentication credentials.").
Definition LoginFailed : AccountOutcome :=
  Answered 400 (account_error "Login failed.").
Definition UserNotFound : AccountOutcome :=
  Answered 404 (account_error "User not found.").

(** [app.post('/signup', validateUser, ...)]: whatever throws inside the
    [try] is answered 400. [bcrypt.hash] rejects anything but a string;
    [jwt.sign] does not throw, JWT_SECRET being set as the README asks. *)
Definition signup : AccountHandler := fun env req db =>
  let email := body req !! "email" in
  let password := body req !! "password" in
  let firstName := body req !! "firstName" in
  let lastName := body req !! "lastName" in
  let phoneNumber := body req !! "phoneNumber" in
  match password with
  | Some (JStr s) =>
      let hashedPassword := bcrypt_hash (salt env) s in
      match User_create email hashedPassword firstName lastName phoneNumber db with
      | Some (user, db') =>
          let token := jwt_sign (now env) {| userId := User.id user |} in
          (db', Answered 201 (session (User.id user) (User.email user) token))
      | None => (db, RegistrationFailed)
      end
  | _ => (db, RegistrationFailed)
  end.

(** [app.post('/signin', ...)]: no middleware. [bcrypt.compare] is called
    only when a user was found, and rejects anything but a string. *)
Definition signin : AccountHandler := fun env req db =>
  let email := body req !! "email" in
  let password := body req !! "password" in
  match User_findOne_email email db with
  | None => (db, LoginFailed)
  | Some None => (db, LoginRefused)
  | Some (Some user) =>
      match password with
      | Some (JStr s) =>
          if bcrypt_compare s (User.password user)
          then
            let token := jwt_sign (now env) {| userId := User.id user |} in
            (db, Answered 200 (session (User.id user) (User.email user) token))
          else (db, LoginRefused)
      | _ => (db, LoginFailed)
      end
  end.

(** [validateUserUpdate]: the password chain is [optional()], it runs only
    when the body has the key. *)
Definition validateUserUpdate_errors (b : gmap string JsValue) : list FieldError :=
  match b !! "password" with
  | Some v => validate_password_field (Some v)
  | None => []
  end
  ++ check_field notEmpty (b !! "firstName") "firstName" "First name is required"
  ++ check_field notEmpty (b !! "lastName") "lastName" "Last name is required"
  ++ check_field notEmpty (b !! "phoneNumber") "phoneNumber" "Phone number is required".

Definition validateUserUpdate : Middleware := fun req =>
  match validateUserUpdate_errors (body req) with
  | [] => inr req
  | errs => inl (ValidationFailed errs)
  end.

(** [router.get('/:id', authenticateJWT, ...)] of routes/users.js *)
Definition get_user : AccountHandler := fun env req db =>
  match User_findByPk (params_id req) db with
  | None => (db, UserNotFound)
  | Some user => (db, Answered 200 (account user))
  end.

(** [router.put('/:id', authenticateJWT, validateUserUpdate, ...)]: there is
    no [try], a rejected [bcrypt.hash] or update is a throw. *)
Definition put_user : AccountHandler := fun env req db =>
  match User_findByPk (params_id req) db with
  | None => (db, UserNotFound)
  | Some user =>
      let password := body req !! "password" in
      let firstName := body req !! "firstName" in
      let lastName := body req !! "lastName" in
      let phoneNumber := body req !! "phoneNumber" in
      let hashed : option string :=
        match password with
        | Some v =>
            if js_truthy v
            then match v with
                 | JStr s => Some (bcrypt_hash (salt env) s)
                 | _ => None
                 end
            else Some (User.password user)
        | None => Some (User.password user)
        end in
      match hashed with
      | None => (db, Failed)
      | Some hashedPassword =>
          match User_update user hashedPassword firstName lastName phoneNumber db with
          | Some (user', db') => (db', Answered 200 (account user'))
          | None => (db, Failed)
          end
      end
  end.

Definition POST_signup : AccountHandler := account_route [validateUser] signup.
Definition POST_signin : AccountHandler := account_route [] signin.
Definition GET_users_id : AccountHandler := account_route [authenticateJWT] get_user.
Definition PUT_users_id : AccountHandler :=
  account_route [authenticateJWT; validateUserUpdate] put_user.

End AccountHandlers.

Section AccountRuns.
Context {P : Platform} {A : Accounts}.

(** The account routes that are modelled. *)
Definition account_routes : list AccountHandler :=
  [ POST_signup; POST_signin; GET_users_id; PUT_users_id ].

(** Account requests served one after the other, each with its own
    environment. *)
Fixpoint serve_accounts (calls : list (AccountHandler * Env * Request)) (db : Db) : Db :=
  match calls with
  | [] => db
  | (h, env, req) :: rest => serve_accounts rest (fst (h env req db))
  end.

(** No row of the Users table has the e-mail of a row inserted before it,
    primary keys are pairwise different and below the counter. *)
Definition accounts_distinct (db : Db) : Prop :=
  NoDup (List.map User.id (users (tables db)))
  /\ Forall (fun u => User.id u < nextUserId db) (users (tables db))
  /\ forall i j ei ej,
       (i < j)%nat ->
       nth_error (List.map User.email (users (tables db))) i = Some ei ->
       nth_error (List.map User.email (users (tables db))) j = Some ej ->
       same_email ej ei = false.

End AccountRuns.

(** A password the four checks of the password chain accept. *)
Definition strong_password (s : string) : Prop :=
  (10 <= String.length s)%nat
  /\ (exists ch, In ch (list_ascii_of_string s) /\ (65 <= nat_of_ascii ch <= 90)%nat)
  /\ (exists ch, In ch (list_ascii_of_string s) /\ (97 <= nat_of_ascii ch <= 122)%nat)
  /\ (exists ch, In ch (list_ascii_of_string s) /\ In ch special_characters).

(** A concrete instance for the worked examples: the hash is the salt, a
    "$" and the password; e-mails are compared character by character. *)
Module AccountFixture.

Definition hash (salt_ s : string) : string := salt_ +:+ "$" +:+ s.

Definition compare (s h : string) : bool :=
  (String.length s <? String.length h)%nat
  && String.eqb (String_drop (String.length h - String.length s - 1) h) ("$" +:+ s).

Definition sign (t : Z) (c : Claims) : string := "token-of-user-" +:+ pretty (userId c).

Definition to_sql_string (v : JsValue) : option string :=
  match v with
  | JStr s => Some s
  | JNum n => Some (pretty n)
  | _ => None
  end.

Definition filter_email (v : JsValue) : option (string -> bool) :=
  match v with
  | JStr s => Some (String.eqb s)
  | JNull => Some (fun _ => false)
  | _ => None
  end.

#[export] Instance accounts : Accounts := {|
  bcrypt_hash := hash;
  bcrypt_compare := compare;
  jwt_sign := sign;
  sql_string := to_sql_string;
  sql_string_JStr := fun s => eq_refl;
  same_email := String.eqb;
  email_filter := filter_email;
  email_filter_JStr := fun s => eq_refl
|}.

End AccountFixture.

Module SampleAccounts.
Import Fixture AccountFixture Sample.

Definition db0 : Db := {| tables := booked_store; nextUserId := 3 |}.

Definition env0 : Env := {| salt := "s4lt"; now := 1735689600000 |}.

Definition carol_body (pw : string) : gmap string JsValue :=
  <["email" := JStr "carol@example.org"]> (<["password" := JStr pw]>
    (<["firstName" := JStr "Carol"]> (<["lastName" := JStr "C"]>
      (<["phoneNumber" := JStr "0700000003"]> ∅)))).

Definition carol : User.t :=
  User.mk 3 "carol@example.org" "s4lt$LongEnough1!" "Carol" "C" "0700000003".

Definition db1 : Db :=
  {| tables := {| users := [alice; bob; carol];
                  properties := properties booked_store;
                  reservations := reservations booked_store;
                  nextReservationId := nextReservationId booked_store |};
     nextUserId := 4 |}.

Definition rename_body : gmap string JsValue :=
  <["firstName" := JStr "Alicia"]> (<["lastName" := JStr "A"]>
    (<["phoneNumber" := JStr "0700000009"]> ∅)).

Definition signup_carol : Request := request None 0 (carol_body "LongEnough1!").

(** A signup with the e-mail of Alice. *)
Definition signup_taken : Request :=
  request None 0 (<["email" := JStr "alice@example.org"]> (carol_body "LongEnough1!")).

(** A sign-in for an e-mail nobody has, and one for Carol with a wrong
    password. *)
Definition signin_unknown : Request :=
  request None 0 (<["email" := JStr "dave@example.org"]>
                    (<["password" := JStr "LongEnough1!"]> ∅)).
Definition signin_wrong : Request :=
  request None 0 (<["email" := JStr "carol@example.org"]>
                    (<["password" := JStr "Mistaken123!"]> ∅)).

Definition account_calls : list (AccountHandler * Env * Request) :=
  [ (POST_signup, env0, signup_carol);
    (POST_signup, env0, signup_taken);
    (POST_signin, env0, signup_carol);
    (PUT_users_id, env0, request as_bob 1 rename_body);
    (GET_users_id, env0, request as_bob 1 ∅) ].

End SampleAccounts.

(** Sample requests for the worked examples of the further properties. *)
Module SampleRuns.
Import Fixture Sample.

Definition book_alice : Request :=
  request as_alice 0 (dates_body 1 "2025-01-01" "2025-01-05").
Definition book_bob : Request :=
  request as_bob 0 (dates_body 1 "2025-01-05" "2025-01-10").
Definition move_alice : Request :=
  request as_alice 1 (dates_body 1 "2025-01-02" "2025-01-05").
Definition cancel_first : Request := request as_bob 1 ∅.

(** Two bookings back to back, an update, a listing and a deletion. *)
Definition calls : list (Handler * Request) :=
  [ (POST_reservations, book_alice);
    (POST_reservations, book_bob);
    (PUT_reservations_id, move_alice);
    (GET_reservations, request as_alice 0 ∅);
    (DELETE_reservations_id, cancel_first) ].

(** Alice books the loft from 2025-02-01 to 2025-02-03. *)
Definition book_loft : Request :=
  request as_alice 0 (dates_body 2 "2025-02-01" "2025-02-03").
Definition loft_stay : Reservation.t :=
  Reservation.mk 2 1738368000000 1738540800000 1 2.

(** Bob asks for the cabin during the stay of Alice. *)
Definition book_during_stay : Request :=
  request as_bob 0 (dates_body 1 "2025-01-09" "2025-01-12").

(** An arrival that is not a date. *)
Definition book_badly : Request :=
  request as_alice 7 (dates_body 1 "tomorrow" "2025-01-12").

Definition page_request : Request :=
  {| authorization := None; params_id := 0;
     query := <["capacity" := "4"]> (<["sort" := "desc"]> ∅);
     body := ∅; user := None |}.

End SampleRuns.

(** * Properties *)

Section Authentication.
Context {P : Platform}.

Lemma String_replace_Bearer (token : string) :
  String_replace "Bearer " "" ("Bearer " +:+ token) = token.
Proof. destruct token; reflexivity. Qed.

Lemma startsWith_Bearer (token : string) :
  startsWith ("Bearer " +:+ token) "Bearer " = true.
Proof. destruct token; reflexivity. Qed.

(** A header that starts with the scheme is the scheme followed by the token. *)
Lemma startsWith_inv (s p : string) :
  startsWith s p = true -> s = p +:+ String_drop (String.length p) s.
Proof.
  unfold startsWith. revert s.
  induction p as [|c p IH]; intros s H.
  - destruct s; reflexivity.
  - destruct s as [|c' s]; [discriminate|]. simpl in H.
    destruct (ascii_dec c c') as [e|]; [|discriminate]. subst c'.
    change (String c s = String c (p +:+ String_drop (String.length p) s)).
    f_equal. apply IH, H.
Qed.

Lemma authenticateJWT_bearer (req : Request) (token : string) :
  authorization req = Some ("Bearer " +:+ token) ->
  authenticateJWT req =
    match jwt_verify token with
    | Some decoded => inr (set_user decoded req)
    | None => inl AuthenticationInvalid
    end.
Proof.
  intros H. unfold authenticateJWT. rewrite H.
  rewrite startsWith_Bearer, String_replace_Bearer. reflexivity.
Qed.

Lemma authenticateJWT_missing (req : Request) :
  (authorization req = None
   \/ exists h, authorization req = Some h /\ startsWith h "Bearer " = false) ->
  authenticateJWT req = inl AuthenticationMissing.
Proof.
  intros [H | (h & H & Hs)]; unfold authenticateJWT; rewrite H; [reflexivity|].
  rewrite Hs. rewrite orb_true_r. reflexivity.
Qed.

End Authentication.

Section BearerRoutes.
Context {P : Platform}.

(** C5. On a route whose first middleware is [authenticateJWT]: without an
    Authorization header, or with one that does not start with "Bearer ",
    the answer is 401 "Access denied. No token provided."; with a header
    that starts with "Bearer " whose token does not verify, the answer is
    400 "Invalid token.". In both cases the outcome is the same whatever
    the remaining middleware and the handler are, and the store is the one
    the request found: nothing after the gate runs. *)
Theorem bearer_route_rejects (rest : list Middleware) (h : Handler)
    (req : Request) (st : Store) :
  ((authorization req = None
    \/ exists hd, authorization req = Some hd /\ startsWith hd "Bearer " = false) ->
   route (authenticateJWT :: rest) h req st =
     (st, Sent {| status := 401; payload := error "Access denied. No token provided." |}))
  /\ (forall hd, authorization req = Some hd ->
      startsWith hd "Bearer " = true ->
      jwt_verify (String_drop 7 hd) = None ->
      route (authenticateJWT :: rest) h req st =
        (st, Sent {| status := 400; payload := error "Invalid token." |})).
Proof.
  split.
  - intros H. simpl. rewrite (authenticateJWT_missing req H). reflexivity.
  - intros hd Hhd Hs Hv. simpl.
    apply startsWith_inv in Hs. simpl String.length in Hs.
    rewrite Hs in Hhd.
    rewrite (authenticateJWT_bearer req _ Hhd), Hv. reflexivity.
Qed.

Lemma where_UserId (u : Z) (r : Reservation.t) :
  where_test [ (col_UserId, Op_eq, Some (JNum u)) ] r = (Reservation.UserId r =? u).
Proof.
  unfold where_test. simpl. rewrite sql_integer_JNum. simpl.
  apply andb_true_r.
Qed.

Lemma get_reservations_filter (req : Request) (st : Store) (c : Claims) :
  user req = Some c ->
  get_reservations req st =
    (st, Sent {| status := 200;
                 payload := reservation_list
                   (List.filter (fun r => Reservation.UserId r =? userId c)
                                (reservations st)) |}).
Proof.
  intros Hu. unfold get_reservations, Reservation_findAll. rewrite Hu.
  simpl. rewrite sql_integer_JNum.
  rewrite (List.filter_ext _ _ (where_UserId (userId c))). reflexivity.
Qed.

(** C6. For a caller whose token verifies, GET /reservations answers 200
    with the rows of the Reservations table whose [UserId] is the [userId]
    of the token, in table order, and with nothing else: a reservation is
    listed exactly when it is stored and owned by the caller. *)
Theorem list_reservations_own (req : Request) (st : Store)
    (token : string) (c : Claims) :
  authorization req = Some ("Bearer " +:+ token) ->
  jwt_verify token = Some c ->
  exists l,
    GET_reservations req st =
      (st, Sent {| status := 200; payload := reservation_list l |})
    /\ l = List.filter (fun r => Reservation.UserId r =? userId c) (reservations st)
    /\ forall r, In r l <-> In r (reservations st) /\ Reservation.UserId r = userId c.
Proof.
  intros Hh Hv. eexists. split; [|split; [reflexivity|]].
  - unfold GET_reservations. simpl.
    rewrite (authenticateJWT_bearer req token Hh), Hv.
    apply get_reservations_filter. reflexivity.
  - intros r. rewrite List.filter_In, Z.eqb_eq. reflexivity.
Qed.

End BearerRoutes.

Section ReservationWrites.
Context {P : Platform}.

Lemma overlapsb_spec (a d : Z) (x : Reservation.t) :
  overlapsb a d x = true <-> overlaps a d x.
Proof.
  unfold overlapsb, overlaps. rewrite andb_true_iff, Z.ltb_lt, Z.gtb_gt.
  reflexivity.
Qed.

Lemma where_test_cons (c : Column) (o : Op) (v : option JsValue) (y : Z)
    (w : Where) (r : Reservation.t) :
  bind_value c v = Some (SqlNum y) ->
  where_test ((c, o, v) :: w) r = compare_op o (column_value c r) y && where_test w r.
Proof.
  intros H. unfold where_test. cbn [where_holds]. rewrite H.
  destruct (where_holds w r); [reflexivity|]. symmetry. apply andb_false_r.
Qed.

(** An entry whose value the statement holds as 'Invalid date'. *)
Lemma where_test_invalid (c : Column) (o : Op) (v : option JsValue)
    (w : Where) (r : Reservation.t) :
  bind_value c v = Some SqlInvalidDate ->
  where_test ((c, o, v) :: w) r
  = sql_compare_invalid o (column_value c r) && where_test w r.
Proof.
  intros H. unfold where_test. cbn [where_holds]. rewrite H.
  destruct (where_holds w r); [reflexivity|]. symmetry. apply andb_false_r.
Qed.

Lemma where_binds_cons (c : Column) (o : Op) (v : option JsValue) (y : SqlValue)
    (w : Where) :
  bind_value c v = Some y ->
  where_binds ((c, o, v) :: w) = where_binds w.
Proof. intros H. cbn [where_binds]. rewrite H. reflexivity. Qed.

Lemma where_test_nil (r : Reservation.t) : where_test [] r = true.
Proof. reflexivity. Qed.

Lemma bind_JNum (c : Column) (n : Z) :
  c = col_id \/ c = col_UserId \/ c = col_PropertyId ->
  bind_value c (Some (JNum n)) = Some (SqlNum n).
Proof.
  intros [-> | [-> | ->]]; cbn [bind_value]; rewrite sql_integer_JNum; reflexivity.
Qed.

(** A key is bound to a number or not at all. *)
Lemma bind_key (c : Column) (v : option JsValue) (y : SqlValue) :
  c = col_id \/ c = col_UserId \/ c = col_PropertyId ->
  bind_value c v = Some y -> exists n, y = SqlNum n.
Proof.
  intros Hc H. destruct v as [x|]; [|discriminate].
  destruct Hc as [-> | [-> | ->]]; cbn [bind_value] in H;
    destruct (sql_integer x) as [n|]; try discriminate;
    injection H as <-; exists n; reflexivity.
Qed.

(** The two DATETIME columns bind a value alike. *)
Lemma bind_datetime (v : option JsValue) :
  bind_value col_departureTime v = bind_value col_arrivalTime v.
Proof. reflexivity. Qed.

Lemma length_filter_pos {A : Type} (f : A -> bool) (l : list A) :
  (0 <? Z.of_nat (length (List.filter f l))) = existsb f l.
Proof.
  induction l as [|x l IH]; [reflexivity|].
  cbn [List.filter existsb]. destruct (f x); [|exact IH].
  cbn [length orb]. apply Z.ltb_lt. lia.
Qed.

Lemma existsb_false_iff {A : Type} (f : A -> bool) (l : list A) :
  existsb f l = false <-> forall x, In x l -> f x = false.
Proof.
  split.
  - intros H x Hx. destruct (f x) eqn:E; [|reflexivity].
    rewrite <- H. symmetry. apply existsb_exists. eauto.
  - intros H. destruct (existsb f l) eqn:E; [|reflexivity].
    apply existsb_exists in E. destruct E as (x & Hx & Hf).
    rewrite (H x Hx) in Hf. discriminate.
Qed.

Lemma check_nil (ok : bool) (field text : string) :
  check ok field text = [] <-> ok = true.
Proof. destruct ok; cbn; split; intros H; try reflexivity; discriminate. Qed.

Lemma check_In (ok : bool) (field text : string) (e : FieldError) :
  In e (check ok field text) <-> ok = false /\ e = {| path := field; msg := text |}.
Proof.
  destruct ok; cbn.
  - split; [contradiction | intros [H _]; discriminate].
  - split.
    + intros [<- | []]. split; reflexivity.
    + intros [_ ->]. left. reflexivity.
Qed.

Lemma check_all_nil (ok : string -> bool) (items : list JsValue) (field text : string) :
  check_all ok items field text = []
  <-> Forall (fun x => ok (field_toString x) = true) items.
Proof.
  unfold check_all. induction items as [|x items IH]; cbn [flat_map].
  - split; [constructor | reflexivity].
  - rewrite app_nil, check_nil, IH, List.Forall_cons_iff. reflexivity.
Qed.

Lemma check_all_In (ok : string -> bool) (items : list JsValue) (field text : string)
    (e : FieldError) :
  In e (check_all ok items field text)
  <-> (exists x, In x items /\ ok (field_toString x) = false)
      /\ e = {| path := field; msg := text |}.
Proof.
  unfold check_all. rewrite List.in_flat_map. split.
  - intros (x & Hx & He). apply check_In in He. destruct He as [Hf ->].
    split; [exists x; split; assumption | reflexivity].
  - intros [(x & Hx & Hf) ->]. exists x. split; [exact Hx|].
    apply check_In. split; [exact Hf | reflexivity].
Qed.

(** A validator records nothing for a field exactly when every value of
    the field passes it. *)
Lemma check_field_nil (ok : string -> bool) (v : option JsValue) (field text : string) :
  check_field ok v field text = [] <-> field_passes ok v.
Proof.
  unfold check_field, field_passes.
  destruct v as [[| | | |items|]|]; try apply check_nil. apply check_all_nil.
Qed.

Lemma check_field_In (ok : string -> bool) (v : option JsValue) (field text : string)
    (e : FieldError) :
  In e (check_field ok v field text)
  <-> ~ field_passes ok v /\ e = {| path := field; msg := text |}.
Proof.
  assert (Hone : forall b : bool, b = false <-> ~ b = true).
  { intros b. rewrite not_true_iff_false. reflexivity. }
  unfold check_field, field_passes.
  destruct v as [[| | | |items|]|]; try (rewrite check_In, Hone; reflexivity).
  rewrite check_all_In. split.
  - intros [(x & Hx & Hf) ->]. split; [|reflexivity].
    intros Hall. rewrite List.Forall_forall in Hall.
    rewrite (Hall x Hx) in Hf. discriminate.
  - intros [Hn ->]. split; [|reflexivity].
    apply List.Exists_exists. apply List.neg_Forall_Exists_neg in Hn.
    + eapply List.Exists_impl; [|exact Hn]. intros x Hx. cbn beta in Hx.
      apply Hone, Hx.
    + intros x. destruct (ok (field_toString x)); [left; reflexivity | right; discriminate].
Qed.

Lemma validateReservation_nil (b : gmap string JsValue) :
  validateReservation_errors b = [] <-> dates_validated b.
Proof.
  unfold validateReservation_errors, dates_validated.
  rewrite app_nil, !check_field_nil. reflexivity.
Qed.

(** What passes the two middleware reaches the handler with [req.user] set. *)
Lemma validateReservation_pass (req : Request) :
  dates_validated (body req) -> validateReservation req = inr req.
Proof.
  intros H. apply validateReservation_nil in H.
  unfold validateReservation. rewrite H. reflexivity.
Qed.

Lemma route_admits (h : Handler) (req : Request) (st : Store) (c : Claims) :
  bearer req c -> dates_validated (body req) ->
  route [authenticateJWT; validateReservation] h req st = h (set_user c req) st.
Proof.
  intros (token & Hh & Hv) Hd. cbn [route].
  rewrite (authenticateJWT_bearer req token Hh), Hv.
  rewrite validateReservation_pass; [reflexivity | exact Hd].
Qed.

Lemma route_authenticates (h : Handler) (req : Request) (st : Store) (c : Claims) :
  bearer req c -> route [authenticateJWT] h req st = h (set_user c req) st.
Proof.
  intros (token & Hh & Hv). cbn [route].
  rewrite (authenticateJWT_bearer req token Hh), Hv. reflexivity.
Qed.

(** The where clause of POST /reservations, once the statement holds its
    three values as numbers. *)
Lemma post_where_test (vp va vd : option JsValue) (p a d : Z) (x : Reservation.t) :
  bind_value col_PropertyId vp = Some (SqlNum p) ->
  bind_value col_arrivalTime va = Some (SqlNum a) ->
  bind_value col_departureTime vd = Some (SqlNum d) ->
  where_test [ (col_PropertyId, Op_eq, vp);
               (col_arrivalTime, Op_lt, vd);
               (col_departureTime, Op_gt, va) ] x
  = (Reservation.PropertyId x =? p) && overlapsb a d x.
Proof.
  intros Hp Ha Hd.
  rewrite (where_test_cons _ _ _ _ _ _ Hp).
  rewrite (where_test_cons col_arrivalTime _ _ d); [|exact Hd].
  rewrite (where_test_cons col_departureTime _ _ a); [|exact Ha].
  rewrite where_test_nil, andb_true_r. reflexivity.
Qed.

Lemma post_reservations_eval (req : Request) (st : Store) (c : Claims) (p a d : Z) :
  user req = Some c ->
  range_accepted (body req) ->
  bind_value col_PropertyId (body req !! "propertyId") = Some (SqlNum p) ->
  stay_of (body req) a d ->
  post_reservations req st =
    if existsb (fun x => (Reservation.PropertyId x =? p) && overlapsb a d x)
               (reservations st)
    then (st, Sent BookingConflict)
    else
      match Reservation_create (body req !! "propertyId") (body req !! "arrivalTime")
              (body req !! "departureTime") (userId c) st with
      | Some (r, st') => (st', Sent {| status := 201; payload := reservation r |})
      | None => (st, Thrown)
      end.
Proof.
  intros Hu Hr Hp [Ha Hd]. unfold post_reservations.
  unfold range_accepted in Hr. rewrite Hr.
  assert (Hd' : bind_value col_arrivalTime (body req !! "departureTime")
                = Some (SqlNum d)) by exact Hd.
  assert (Ha' : bind_value col_departureTime (body req !! "arrivalTime")
                = Some (SqlNum a)) by exact Ha.
  unfold Reservation_findAll.
  rewrite (where_binds_cons _ _ _ _ _ Hp), (where_binds_cons _ _ _ _ _ Hd'),
    (where_binds_cons _ _ _ _ _ Ha').
  cbn [where_binds].
  rewrite (List.filter_ext _ _ (fun x => post_where_test _ _ _ p a d x Hp Ha Hd)).
  rewrite length_filter_pos.
  destruct (existsb _ _); [reflexivity|].
  rewrite Hu. destruct (Reservation_create _ _ _ _ _) as [[r st']|]; reflexivity.
Qed.

Lemma existsb_id {A : Type} (idf : A -> Z) (i : Z) (l : list A) :
  existsb (fun x => idf x =? i) l = true <-> exists y, In y l /\ idf y = i.
Proof.
  rewrite existsb_exists. split; intros (y & Hy & E); exists y; split; auto.
  - apply Z.eqb_eq, E.
  - apply Z.eqb_eq, E.
Qed.

Lemma Reservation_create_eval (vp va vd : option JsValue) (u p a d : Z) (st : Store) :
  Integer_attribute vp = Some p ->
  Date_attribute va = Some a ->
  Date_attribute vd = Some d ->
  Reservation_create vp va vd u st =
    if existsb (fun x => Property.id x =? p) (properties st)
       && existsb (fun x => User.id x =? u) (users st)
    then Some (Reservation.mk (nextReservationId st) a d u p,
               inserted (Reservation.mk (nextReservationId st) a d u p) st)
    else None.
Proof.
  intros Hp Ha Hd. unfold Reservation_create. rewrite Hp, Ha, Hd. reflexivity.
Qed.

(** A reservation that was created carries the caller, the property and
    the two instants the ORM wrote. *)
Lemma Reservation_create_inv (vp va vd : option JsValue) (u : Z) (st st' : Store)
    (r : Reservation.t) :
  Reservation_create vp va vd u st = Some (r, st') ->
  Reservation.UserId r = u /\ st' = inserted r st
  /\ Reservation.id r = nextReservationId st
  /\ Integer_attribute vp = Some (Reservation.PropertyId r)
  /\ Date_attribute va = Some (Reservation.arrivalTime r)
  /\ Date_attribute vd = Some (Reservation.departureTime r)
  /\ existsb (fun x => Property.id x =? Reservation.PropertyId r) (properties st) = true
  /\ existsb (fun x => User.id x =? u) (users st) = true.
Proof.
  unfold Reservation_create.
  destruct (Integer_attribute vp) as [p|]; [|discriminate].
  destruct (Date_attribute va) as [a|]; [|discriminate].
  destruct (Date_attribute vd) as [d|]; [|discriminate].
  destruct (existsb _ (properties st)) eqn:Ep; [|discriminate].
  destruct (existsb _ (users st)) eqn:Eu; [|discriminate].
  cbn [andb]. intros H. injection H as <- <-.
  cbn [Reservation.UserId Reservation.id Reservation.PropertyId
       Reservation.arrivalTime Reservation.departureTime].
  repeat (split; [first [reflexivity | assumption]|]). reflexivity.
Qed.

(** The where clause of PUT /reservations/:id for the stored row [r]. *)
Lemma put_where_test (r : Reservation.t) (va vd : option JsValue) (a d : Z)
    (x : Reservation.t) :
  bind_value col_arrivalTime va = Some (SqlNum a) ->
  bind_value col_departureTime vd = Some (SqlNum d) ->
  where_test [ (col_PropertyId, Op_eq, Some (JNum (Reservation.PropertyId r)));
               (col_arrivalTime, Op_lt, vd);
               (col_departureTime, Op_gt, va);
               (col_id, Op_ne, Some (JNum (Reservation.id r))) ] x
  = (Reservation.PropertyId x =? Reservation.PropertyId r) && overlapsb a d x
    && negb (Reservation.id x =? Reservation.id r).
Proof.
  intros Ha Hd.
  rewrite (where_test_cons col_PropertyId _ _ (Reservation.PropertyId r));
    [|apply bind_JNum; auto].
  rewrite (where_test_cons col_arrivalTime _ _ d); [|exact Hd].
  rewrite (where_test_cons col_departureTime _ _ a); [|exact Ha].
  rewrite (where_test_cons col_id _ _ (Reservation.id r)); [|apply bind_JNum; auto].
  rewrite where_test_nil, andb_true_r. cbn [compare_op column_value].
  unfold overlapsb. rewrite !andb_assoc. reflexivity.
Qed.


Lemma Reservation_update_eval (r : Reservation.t) (va vd : option JsValue) (a d : Z)
    (st : Store) :
  Date_attribute va = Some a -> Date_attribute vd = Some d ->
  Reservation_update r va vd st
  = Some (set_times a d r, retimed (Reservation.id r) a d st).
Proof. intros Ha Hd. unfold Reservation_update. rewrite Ha, Hd. reflexivity. Qed.

Lemma Reservation_update_inv (r r' : Reservation.t) (va vd : option JsValue)
    (st st' : Store) :
  Reservation_update r va vd st = Some (r', st') ->
  exists a d, Date_attribute va = Some a /\ Date_attribute vd = Some d
              /\ r' = set_times a d r /\ st' = retimed (Reservation.id r) a d st.
Proof.
  unfold Reservation_update.
  destruct (Date_attribute va) as [a|]; [|discriminate].
  destruct (Date_attribute vd) as [d|]; [|discriminate].
  intros H. injection H as <- <-. exists a, d. repeat split.
Qed.

End ReservationWrites.

Section Booking.
Context {P : Platform}.

Lemma conflict_exists (p a d : Z) (l : list Reservation.t) :
  existsb (fun x => (Reservation.PropertyId x =? p) && overlapsb a d x) l = true
  <-> exists x, In x l /\ Reservation.PropertyId x = p
                /\ Reservation.arrivalTime x < d /\ Reservation.departureTime x > a.
Proof.
  rewrite existsb_exists. split.
  - intros (x & Hx & H). apply andb_true_iff in H. destruct H as [Hp Ho].
    apply Z.eqb_eq in Hp. apply overlapsb_spec in Ho. destruct Ho.
    exists x. auto.
  - intros (x & Hx & Hp & Ha & Hd). exists x. split; [exact Hx|].
    apply andb_true_iff. split; [apply Z.eqb_eq, Hp|].
    apply overlapsb_spec. split; assumption.
Qed.

Lemma no_conflict (p a d : Z) (l : list Reservation.t) :
  (forall x, In x l -> Reservation.PropertyId x = p -> ~ overlaps a d x) ->
  existsb (fun x => (Reservation.PropertyId x =? p) && overlapsb a d x) l = false.
Proof.
  intros H. apply existsb_false_iff. intros x Hx.
  destruct (Reservation.PropertyId x =? p) eqn:Ep; [|reflexivity].
  destruct (overlapsb a d x) eqn:Eo; [|reflexivity].
  exfalso. apply (H x Hx); [apply Z.eqb_eq, Ep | apply overlapsb_spec, Eo].
Qed.

(** The answer of POST /reservations to a request the two middleware let
    through and whose range the handler accepts, when the overlap query
    reads the stay from [a] to [d] on the property [p] and the ORM writes
    it from [a'] to [d'] on the property [p']. *)
Lemma POST_reservations_eval (req : Request) (st : Store) (c : Claims)
    (p a d p' a' d' : Z) :
  bearer req c -> dates_validated (body req) -> range_accepted (body req) ->
  bind_value col_PropertyId (body req !! "propertyId") = Some (SqlNum p) ->
  stay_of (body req) a d ->
  property_written (body req) p' ->
  stay_written (body req) a' d' ->
  POST_reservations req st =
    if existsb (fun x => (Reservation.PropertyId x =? p) && overlapsb a d x)
               (reservations st)
    then (st, Sent BookingConflict)
    else if existsb (fun x => Property.id x =? p') (properties st)
            && existsb (fun x => User.id x =? userId c) (users st)
    then (inserted (Reservation.mk (nextReservationId st) a' d' (userId c) p') st,
          Sent {| status := 201;
                  payload := reservation
                    (Reservation.mk (nextReservationId st) a' d' (userId c) p') |})
    else (st, Thrown).
Proof.
  intros Hb Hv Hr Hp Hs Hk [Ha Hd]. unfold POST_reservations.
  rewrite (route_admits _ req st c Hb Hv).
  rewrite (post_reservations_eval (set_user c req) st c p a d eq_refl Hr Hp Hs).
  destruct (existsb _ (reservations st)); [reflexivity|].
  cbn [body set_user].
  rewrite (Reservation_create_eval _ _ _ (userId c) p' a' d' st Hk Ha Hd).
  destruct (_ && _); reflexivity.
Qed.

(** X22. Where the readers agree. For a POST /reservations request that
    the bearer gate and the date validation let through and whose range
    the handler accepts, where the overlap query and the insert both read
    the property [p] and the stay from [a] to [d]:
    - the answer is 400 "The property is already booked for the requested
      dates.", the store unchanged, exactly when some stored reservation of
      property [p] starts before [d] and ends after [a] (both strict);
    - when there is none, and the property and the caller are rows of their
      tables, the answer is 201 with the new row, appended to the table;
    - back to back: after such a creation, a second such request for the
      same property that starts at [d] or ends at [a], and overlaps
      nothing that was stored before, is answered 201 as well, and the
      table then ends with the two reservations. *)
Theorem conflict_iff_overlap_when_read_alike (req : Request) (st : Store) (c : Claims)
    (p a d : Z) :
  bearer req c -> dates_validated (body req) -> range_accepted (body req) ->
  bind_value col_PropertyId (body req !! "propertyId") = Some (SqlNum p) ->
  stay_of (body req) a d ->
  property_written (body req) p ->
  stay_written (body req) a d ->
  (POST_reservations req st = (st, Sent BookingConflict)
   <-> exists x, In x (reservations st) /\ Reservation.PropertyId x = p
                 /\ Reservation.arrivalTime x < d /\ Reservation.departureTime x > a)
  /\ ((forall x, In x (reservations st) -> Reservation.PropertyId x = p ->
                 ~ overlaps a d x) ->
      (exists y, In y (properties st) /\ Property.id y = p) ->
      (exists u, In u (users st) /\ User.id u = userId c) ->
      POST_reservations req st =
        (inserted (Reservation.mk (nextReservationId st) a d (userId c) p) st,
         Sent {| status := 201;
                 payload := reservation
                   (Reservation.mk (nextReservationId st) a d (userId c) p) |}))
  /\ (forall (req2 : Request) (c2 : Claims) (a2 d2 : Z) (st1 : Store)
             (r1 : Reservation.t),
        POST_reservations req st =
          (st1, Sent {| status := 201; payload := reservation r1 |}) ->
        bearer req2 c2 -> dates_validated (body req2) -> range_accepted (body req2) ->
        bind_value col_PropertyId (body req2 !! "propertyId") = Some (SqlNum p) ->
        stay_of (body req2) a2 d2 ->
        property_written (body req2) p ->
        stay_written (body req2) a2 d2 ->
        a2 = d \/ d2 = a ->
        (forall x, In x (reservations st) -> Reservation.PropertyId x = p ->
                   ~ overlaps a2 d2 x) ->
        (exists u, In u (users st) /\ User.id u = userId c2) ->
        exists r2 st2,
          POST_reservations req2 st1 =
            (st2, Sent {| status := 201; payload := reservation r2 |})
          /\ reservations st2 = reservations st ++ [r1; r2]
          /\ r1 = Reservation.mk (nextReservationId st) a d (userId c) p
          /\ r2 = Reservation.mk (nextReservationId st + 1) a2 d2 (userId c2) p).
Proof.
  intros Hb Hv Hr Hp Hs Hk Hw.
  pose proof (POST_reservations_eval req st c p a d p a d Hb Hv Hr Hp Hs Hk Hw) as E.
  split; [|split].
  - rewrite <- conflict_exists. rewrite E.
    destruct (existsb _ (reservations st)).
    + split; reflexivity.
    + split; [|discriminate]. destruct (_ && _); discriminate.
  - intros Hno (y & Hy & Ey) (u & Hu & Eu). rewrite E.
    rewrite (no_conflict p a d _ Hno).
    replace (existsb (fun x => Property.id x =? p) (properties st)) with true
      by (symmetry; apply existsb_id; eauto).
    replace (existsb (fun x => User.id x =? userId c) (users st)) with true
      by (symmetry; apply existsb_id; eauto).
    reflexivity.
  - intros req2 c2 a2 d2 st1 r1 H1 Hb2 Hv2 Hr2 Hp2 Hs2 Hk2 Hw2 Hedge Hno2 (u & Hu & Eu).
    rewrite E in H1.
    destruct (existsb _ (reservations st)); [discriminate|].
    destruct (existsb (fun x => Property.id x =? p) (properties st)) eqn:Eprop;
      [|discriminate].
    destruct (existsb (fun x => User.id x =? userId c) (users st)); [|discriminate].
    cbn [andb] in H1. injection H1 as <- <-.
    rewrite (POST_reservations_eval req2 _ c2 p a2 d2 p a2 d2
               Hb2 Hv2 Hr2 Hp2 Hs2 Hk2 Hw2).
    cbn [inserted reservations properties users nextReservationId].
    rewrite existsb_app, (no_conflict p a2 d2 _ Hno2).
    cbn [existsb orb Reservation.PropertyId]. rewrite Z.eqb_refl.
    assert (Ho : overlapsb a2 d2 (Reservation.mk (nextReservationId st) a d (userId c) p)
                 = false).
    { unfold overlapsb. cbn [Reservation.arrivalTime Reservation.departureTime].
      destruct Hedge as [-> | ->].
      - rewrite Z.gtb_ltb, Z.ltb_irrefl. apply andb_false_r.
      - rewrite Z.ltb_irrefl. reflexivity. }
    rewrite Ho. cbn [andb orb]. rewrite Eprop.
    replace (existsb (fun x => User.id x =? userId c2) (users st)) with true
      by (symmetry; apply existsb_id; eauto).
    cbn [andb]. eexists _, _. split; [reflexivity|].
    cbn [inserted reservations]. rewrite <- app_assoc. repeat split.
Qed.

End Booking.

Section RangeAndUpdate.
Context {P : Platform}.

Lemma Date_le_true (v1 v2 : option JsValue) (x y : Z) :
  new_Date v1 = Some x -> new_Date v2 = Some y -> x <= y ->
  Date_le (new_Date v1) (new_Date v2) = true.
Proof. intros -> -> H. apply Z.leb_le, H. Qed.

(** C3, amended. For a request that the bearer gate and the date validation
    let through, whose two dates the [Date] constructor reads as the
    instants [a] and [d] with the departure [d] not after the arrival [a]:
    POST /reservations answers 400 "departureTime must be after
    arrivalTime." whatever the store holds; PUT /reservations/:id answers
    the same when [:id] names a stored reservation, and 404 "Reservation
    not found." when it names none. In every case the store is left as it
    was. *)
Theorem invalid_range_rejected (req : Request) (st : Store) (c : Claims) (a d : Z) :
  bearer req c -> dates_validated (body req) ->
  new_Date (body req !! "arrivalTime") = Some a ->
  new_Date (body req !! "departureTime") = Some d ->
  d <= a ->
  POST_reservations req st = (st, Sent RangeInvalid)
  /\ PUT_reservations_id req st =
       (st, Sent match Reservation_findByPk (params_id req) st with
                 | Some _ => RangeInvalid
                 | None => ReservationNotFound
                 end).
Proof.
  intros Hb Hv Ha Hd Hle.
  pose proof (Date_le_true _ _ d a Hd Ha Hle) as Hr.
  split.
  - unfold POST_reservations. rewrite (route_admits _ req st c Hb Hv).
    unfold post_reservations. cbn [body set_user]. rewrite Hr. reflexivity.
  - unfold PUT_reservations_id. rewrite (route_admits _ req st c Hb Hv).
    unfold put_reservation. cbn [body set_user params_id].
    destruct (Reservation_findByPk (params_id req) st); [|reflexivity].
    rewrite Hr. reflexivity.
Qed.

Lemma other_conflict_exists (r : Reservation.t) (a d : Z) (l : list Reservation.t) :
  existsb (fun x => (Reservation.PropertyId x =? Reservation.PropertyId r)
                    && overlapsb a d x
                    && negb (Reservation.id x =? Reservation.id r)) l = true
  <-> exists x, In x l /\ Reservation.id x <> Reservation.id r
                /\ Reservation.PropertyId x = Reservation.PropertyId r
                /\ overlaps a d x.
Proof.
  rewrite existsb_exists. split.
  - intros (x & Hx & H). apply andb_true_iff in H. destruct H as [H Hi].
    apply andb_true_iff in H. destruct H as [Hp Ho].
    apply Z.eqb_eq in Hp. apply overlapsb_spec in Ho.
    apply negb_true_iff, Z.eqb_neq in Hi. exists x. auto.
  - intros (x & Hx & Hi & Hp & Ho). exists x. split; [exact Hx|].
    rewrite !andb_true_iff. repeat split.
    + apply Z.eqb_eq, Hp.
    + apply overlapsb_spec, Ho.
    + apply negb_true_iff, Z.eqb_neq, Hi.
Qed.

Lemma no_other_conflict (r : Reservation.t) (a d : Z) (l : list Reservation.t) :
  (forall x, In x l -> Reservation.id x <> Reservation.id r ->
             Reservation.PropertyId x = Reservation.PropertyId r -> ~ overlaps a d x)
  <-> existsb (fun x => (Reservation.PropertyId x =? Reservation.PropertyId r)
                        && overlapsb a d x
                        && negb (Reservation.id x =? Reservation.id r)) l = false.
Proof.
  split.
  - intros H. apply not_true_is_false. intros E.
    apply other_conflict_exists in E. destruct E as (x & Hx & Hi & Hp & Ho).
    exact (H x Hx Hi Hp Ho).
  - intros E x Hx Hi Hp Ho.
    assert (E' : existsb (fun x => (Reservation.PropertyId x =? Reservation.PropertyId r)
                        && overlapsb a d x
                        && negb (Reservation.id x =? Reservation.id r)) l = true)
      by (apply other_conflict_exists; eauto).
    rewrite E in E'. discriminate.
Qed.


End RangeAndUpdate.

Section Ownership.
Context {P : Platform}.

(** The gate reads the Authorization header and nothing else. *)
Lemma authenticateJWT_cases (req : Request) :
  (exists res, authenticateJWT req = inl res /\ status res <> 200 /\ status res <> 201
               /\ forall req2, authorization req2 = authorization req ->
                               authenticateJWT req2 = inl res)
  \/ (exists c, authenticateJWT req = inr (set_user c req) /\ bearer req c
                /\ forall req2, authorization req2 = authorization req ->
                                authenticateJWT req2 = inr (set_user c req2)).
Proof.
  unfold authenticateJWT.
  destruct (authorization req) as [hd|] eqn:Eh.
  - destruct (negb (truthy hd) || negb (startsWith hd "Bearer ")) eqn:Ec.
    + left. eexists. split; [reflexivity|]. repeat split; try discriminate.
      intros req2 ->. rewrite Ec. reflexivity.
    + destruct (jwt_verify _) as [c|] eqn:Ev.
      * right. exists c. split; [reflexivity|]. split.
        -- apply orb_false_iff in Ec. destruct Ec as [_ Ec].
           apply negb_false_iff in Ec. pose proof (startsWith_inv _ _ Ec) as Ei.
           exists (String_drop (String.length "Bearer ") hd). split.
           ++ rewrite Eh. f_equal. exact Ei.
           ++ rewrite Ei in Ev. rewrite String_replace_Bearer in Ev. exact Ev.
        -- intros req2 ->. rewrite Ec, Ev. reflexivity.
      * left. eexists. split; [reflexivity|]. repeat split; try discriminate.
        intros req2 ->. rewrite Ec, Ev. reflexivity.
  - left. eexists. split; [reflexivity|]. repeat split; try discriminate.
    intros req2 ->. reflexivity.
Qed.

Lemma bearer_unique (req : Request) (c c' : Claims) :
  bearer req c -> bearer req c' -> c = c'.
Proof.
  intros (t & Ht & Hv) (t' & Ht' & Hv'). rewrite Ht in Ht'.
  assert (E : "Bearer " +:+ t = "Bearer " +:+ t') by congruence.
  assert (t = t') as <-.
  { rewrite <- (String_replace_Bearer t), <- (String_replace_Bearer t').
    rewrite E. reflexivity. }
  congruence.
Qed.

(** The handler reads three keys of the body and [req.user]. *)
Lemma post_reservations_ext (req req2 : Request) (st : Store) :
  user req2 = user req ->
  body req2 !! "propertyId" = body req !! "propertyId" ->
  body req2 !! "arrivalTime" = body req !! "arrivalTime" ->
  body req2 !! "departureTime" = body req !! "departureTime" ->
  post_reservations req2 st = post_reservations req st.
Proof.
  intros Hu Hp Ha Hd. unfold post_reservations. rewrite Hu, Hp, Ha, Hd. reflexivity.
Qed.

Lemma validateReservation_ext (req req2 : Request) :
  body req2 !! "arrivalTime" = body req !! "arrivalTime" ->
  body req2 !! "departureTime" = body req !! "departureTime" ->
  (forall res, validateReservation req = inl res ->
               validateReservation req2 = inl res /\ status res = 400)
  /\ (forall r, validateReservation req = inr r ->
                r = req /\ validateReservation req2 = inr req2).
Proof.
  intros Ha Hd. unfold validateReservation, validateReservation_errors.
  rewrite Ha, Hd.
  destruct (_ ++ _) as [|e l]; split; intros x Hx; try discriminate.
  - injection Hx as <-. split; reflexivity.
  - injection Hx as <-. split; reflexivity.
Qed.

Lemma POST_reservations_ext (req req2 : Request) (st : Store) :
  authorization req2 = authorization req ->
  body req2 !! "propertyId" = body req !! "propertyId" ->
  body req2 !! "arrivalTime" = body req !! "arrivalTime" ->
  body req2 !! "departureTime" = body req !! "departureTime" ->
  POST_reservations req2 st = POST_reservations req st.
Proof.
  intros Hh Hp Ha Hd. unfold POST_reservations. cbn [route].
  destruct (authenticateJWT_cases req) as [(res & E & _ & _ & E2) | (c & E & _ & E2)];
    rewrite E, (E2 req2 Hh); [reflexivity|].
  destruct (validateReservation_ext (set_user c req) (set_user c req2) Ha Hd)
    as [Hl Hr].
  destruct (validateReservation (set_user c req)) as [res|r] eqn:Ev.
  - destruct (Hl res eq_refl) as [-> _]. reflexivity.
  - destruct (Hr r eq_refl) as [-> ->].
    apply post_reservations_ext; [reflexivity | exact Hp | exact Ha | exact Hd].
Qed.

Lemma post_reservations_created (req : Request) (st st' : Store) (res : Response) :
  post_reservations req st = (st', Sent res) ->
  status res = 201 ->
  exists c r, user req = Some c /\ res = {| status := 201; payload := reservation r |}
              /\ Reservation_create (body req !! "propertyId")
                   (body req !! "arrivalTime") (body req !! "departureTime")
                   (userId c) st = Some (r, st').
Proof.
  unfold post_reservations.
  destruct (Date_le _ _); [intros H; injection H as <- <-; discriminate|].
  destruct (Reservation_findAll _ st) as [l|]; [|discriminate].
  destruct (0 <? _); [intros H; injection H as <- <-; discriminate|].
  destruct (user req) as [c|]; [|discriminate].
  destruct (Reservation_create _ _ _ _ _) as [[r st1]|] eqn:Ec; [|discriminate].
  intros H _. injection H as <- <-. exists c, r. repeat split. exact Ec.
Qed.

(** C7. When POST /reservations answers 201 to a caller whose token
    verifies to [c], the answer is the created row, its [UserId] is the
    [userId] of the token, and the store is the old one with that row
    appended. The whole outcome is a function of the Authorization header
    and of the keys [propertyId], [arrivalTime] and [departureTime] of the
    body: two requests that agree on these get the same store and the same
    answer, whatever else their bodies hold. *)
Theorem created_reservation_owner (req : Request) (st st' : Store)
    (res : Response) (c : Claims) :
  bearer req c ->
  POST_reservations req st = (st', Sent res) ->
  status res = 201 ->
  (exists r, payload res = reservation r
             /\ Reservation.UserId r = userId c
             /\ st' = inserted r st)
  /\ forall req2,
       authorization req2 = authorization req ->
       body req2 !! "propertyId" = body req !! "propertyId" ->
       body req2 !! "arrivalTime" = body req !! "arrivalTime" ->
       body req2 !! "departureTime" = body req !! "departureTime" ->
       POST_reservations req2 st = (st', Sent res).
Proof.
  intros Hb H Hs. split.
  - unfold POST_reservations in H. cbn [route] in H.
    destruct (authenticateJWT_cases req) as [(r0 & E & N0 & N1 & _) | (c' & E & Hb' & _)];
      rewrite E in H.
    + injection H as <- <-. contradiction.
    + assert (c' = c) as -> by (eapply bearer_unique; eassumption).
      destruct (validateReservation (set_user c req)) as [r0|rq] eqn:Ev.
      * destruct (validateReservation_ext (set_user c req) (set_user c req)
                    eq_refl eq_refl) as [Hl _].
        destruct (Hl r0 Ev) as [_ S400]. injection H as <- <-.
        rewrite S400 in Hs. discriminate.
      * destruct (validateReservation_ext (set_user c req) (set_user c req)
                    eq_refl eq_refl) as [_ Hr].
        destruct (Hr rq Ev) as [-> _].
        destruct (post_reservations_created _ _ _ _ H Hs) as (c0 & r & Hu & -> & Hc).
        cbn [user set_user] in Hu. injection Hu as <-.
        apply Reservation_create_inv in Hc. destruct Hc as (Hu & Hst & _).
        exists r. repeat split; assumption.
  - intros req2 Hh Hp Ha Hd. rewrite <- H.
    apply POST_reservations_ext; assumption.
Qed.

End Ownership.

Section PerIdRoutes.
Context {P : Platform}.

Lemma authenticateJWT_pass (req : Request) (c : Claims) :
  bearer req c -> authenticateJWT req = inr (set_user c req).
Proof.
  intros (token & Hh & Hv). rewrite (authenticateJWT_bearer req token Hh), Hv.
  reflexivity.
Qed.

(** The update handler reads [req.params.id] and two keys of the body. *)
Lemma put_reservation_ext (req req2 : Request) (st : Store) :
  params_id req2 = params_id req ->
  body req2 !! "arrivalTime" = body req !! "arrivalTime" ->
  body req2 !! "departureTime" = body req !! "departureTime" ->
  put_reservation req2 st = put_reservation req st.
Proof.
  intros Hi Ha Hd. unfold put_reservation. rewrite Hi, Ha, Hd. reflexivity.
Qed.

Lemma PUT_reservations_id_ext (req req2 : Request) (st : Store) (c c2 : Claims) :
  bearer req c -> bearer req2 c2 ->
  params_id req2 = params_id req ->
  body req2 !! "arrivalTime" = body req !! "arrivalTime" ->
  body req2 !! "departureTime" = body req !! "departureTime" ->
  PUT_reservations_id req2 st = PUT_reservations_id req st.
Proof.
  intros Hb Hb2 Hi Ha Hd. unfold PUT_reservations_id. cbn [route].
  rewrite (authenticateJWT_pass req c Hb), (authenticateJWT_pass req2 c2 Hb2).
  destruct (validateReservation_ext (set_user c req) (set_user c2 req2) Ha Hd)
    as [Hl Hr].
  destruct (validateReservation (set_user c req)) as [res|r] eqn:Ev.
  - destruct (Hl res eq_refl) as [-> _]. reflexivity.
  - destruct (Hr r eq_refl) as [-> ->].
    apply put_reservation_ext; [exact Hi | exact Ha | exact Hd].
Qed.

(** C9. The three routes on /reservations/:id make no ownership check. Two
    callers whose tokens verify, sending the same [:id] and the same body,
    get the same store and the same answer from GET, PUT and DELETE. When
    [:id] names the stored reservation [r], GET answers 200 with [r] and
    DELETE removes it and answers 200, and no condition relates the
    [UserId] of [r] to the caller. *)
Theorem per_id_routes_ignore_caller (req1 req2 : Request) (st : Store)
    (c1 c2 : Claims) :
  bearer req1 c1 -> bearer req2 c2 ->
  params_id req2 = params_id req1 ->
  body req2 = body req1 ->
  GET_reservations_id req2 st = GET_reservations_id req1 st
  /\ PUT_reservations_id req2 st = PUT_reservations_id req1 st
  /\ DELETE_reservations_id req2 st = DELETE_reservations_id req1 st
  /\ forall r, Reservation_findByPk (params_id req1) st = Some r ->
       GET_reservations_id req1 st =
         (st, Sent {| status := 200; payload := reservation r |})
       /\ DELETE_reservations_id req1 st =
            (Reservation_destroy r st,
             Sent {| status := 200;
                     payload := message "Reservation deleted successfully." |}).
Proof.
  intros Hb1 Hb2 Hi Hbody.
  unfold GET_reservations_id, DELETE_reservations_id.
  rewrite !(route_authenticates _ req1 st c1 Hb1), !(route_authenticates _ req2 st c2 Hb2).
  unfold get_reservation, delete_reservation. cbn [params_id set_user].
  rewrite Hi. repeat split.
  - apply (PUT_reservations_id_ext req1 req2 st c1 c2 Hb1 Hb2 Hi);
      rewrite Hbody; reflexivity.
  - rewrite H. reflexivity.
  - rewrite H. reflexivity.
Qed.

(** The overlap query of PUT /reservations/:id for the stored row [r]. *)
Lemma put_check_reads (r : Reservation.t) (va vd : option JsValue) (a d : Z)
    (l : list Reservation.t) :
  bind_value col_arrivalTime va = Some (SqlNum a) ->
  bind_value col_departureTime vd = Some (SqlNum d) ->
  existsb (where_test
             [ (col_PropertyId, Op_eq, Some (JNum (Reservation.PropertyId r)));
               (col_arrivalTime, Op_lt, vd);
               (col_departureTime, Op_gt, va);
               (col_id, Op_ne, Some (JNum (Reservation.id r))) ]) l = false ->
  forall x, In x l -> Reservation.id x <> Reservation.id r ->
            Reservation.PropertyId x = Reservation.PropertyId r -> ~ overlaps a d x.
Proof.
  intros Ha Hd E. apply no_other_conflict. rewrite <- E.
  clear E. induction l as [|x l IH]; [reflexivity|].
  cbn [existsb]. rewrite IH, (put_where_test r va vd a d x Ha Hd). reflexivity.
Qed.

Lemma put_reservation_updated (req : Request) (st st' : Store) (res : Response) :
  put_reservation req st = (st', Sent res) ->
  status res = 200 ->
  exists r a d,
    Reservation_findByPk (params_id req) st = Some r
    /\ range_accepted (body req)
    /\ stay_written (body req) a d
    /\ existsb (where_test
                  [ (col_PropertyId, Op_eq, Some (JNum (Reservation.PropertyId r)));
                    (col_arrivalTime, Op_lt, body req !! "departureTime");
                    (col_departureTime, Op_gt, body req !! "arrivalTime");
                    (col_id, Op_ne, Some (JNum (Reservation.id r))) ])
               (reservations st) = false
    /\ st' = retimed (Reservation.id r) a d st
    /\ res = {| status := 200; payload := reservation (set_times a d r) |}.
Proof.
  intros H Hs. unfold put_reservation in H.
  destruct (Reservation_findByPk (params_id req) st) as [r|] eqn:Ef;
    [|injection H as <- <-; discriminate].
  destruct (Date_le _ _) eqn:Er; [injection H as <- <-; discriminate|].
  unfold Reservation_findAll in H.
  destruct (where_binds _) eqn:Eb; [|discriminate].
  rewrite length_filter_pos in H.
  destruct (existsb _ (reservations st)) eqn:Ee; [injection H as <- <-; discriminate|].
  destruct (Reservation_update _ _ _ _) as [[r' st1]|] eqn:Eu; [|discriminate].
  injection H as <- <-.
  destruct (Reservation_update_inv _ _ _ _ _ _ Eu) as (a & d & Ha & Hd & -> & ->).
  exists r, a, d. split; [reflexivity|]. split; [exact Er|].
  split; [split; assumption|]. split; [exact Ee|]. split; reflexivity.
Qed.

Lemma retimed_frame (i a d : Z) (l : list Reservation.t) :
  Forall2 (fun x x' =>
             Reservation.id x' = Reservation.id x
             /\ Reservation.UserId x' = Reservation.UserId x
             /\ Reservation.PropertyId x' = Reservation.PropertyId x
             /\ (Reservation.id x <> i -> x' = x)
             /\ (Reservation.id x = i ->
                 Reservation.arrivalTime x' = a /\ Reservation.departureTime x' = d))
          l (List.map (fun x => if Reservation.id x =? i then set_times a d x else x) l).
Proof.
  induction l as [|x l IH]; [constructor|].
  cbn [List.map]. constructor; [|exact IH].
  destruct (Z.eqb_spec (Reservation.id x) i) as [E|E]; cbn.
  - split; [reflexivity|]. split; [reflexivity|]. split; [reflexivity|].
    split; [intros N; contradiction | intros _; split; reflexivity].
  - split; [reflexivity|]. split; [reflexivity|]. split; [reflexivity|].
    split; [reflexivity | intros E'; contradiction].
Qed.

(** C10. When PUT /reservations/:id answers 200, [:id] names a stored
    reservation [r] and the answer is [r] with the new times [a] and [d],
    the instants the ORM writes for the two dates of the body, its [id],
    [UserId] and [PropertyId] as stored. The Users and Properties tables
    and the counter are unchanged; every row of the Reservations table
    keeps its [id], [UserId] and [PropertyId], rows with another [id] are
    untouched, and the rows with the [id] of [r] get the two times. The
    overlap check was made on the stored [PropertyId] of [r]: whatever
    range the overlap query read from the two dates, no other reservation
    of that property overlaps it. A request with the same Authorization
    header, [:id], [arrivalTime] and [departureTime] gets the same outcome
    whatever [propertyId] or other keys its body holds. *)
Theorem update_changes_times_only (req : Request) (st st' : Store) (res : Response) :
  PUT_reservations_id req st = (st', Sent res) ->
  status res = 200 ->
  (exists r a d,
     Reservation_findByPk (params_id req) st = Some r
     /\ stay_written (body req) a d
     /\ payload res = reservation
          (Reservation.mk (Reservation.id r) a d
             (Reservation.UserId r) (Reservation.PropertyId r))
     /\ users st' = users st
     /\ properties st' = properties st
     /\ nextReservationId st' = nextReservationId st
     /\ Forall2 (fun x x' =>
                   Reservation.id x' = Reservation.id x
                   /\ Reservation.UserId x' = Reservation.UserId x
                   /\ Reservation.PropertyId x' = Reservation.PropertyId x
                   /\ (Reservation.id x <> Reservation.id r -> x' = x)
                   /\ (Reservation.id x = Reservation.id r ->
                       Reservation.arrivalTime x' = a
                       /\ Reservation.departureTime x' = d))
                (reservations st) (reservations st')
     /\ (forall a0 d0, stay_of (body req) a0 d0 ->
         forall x, In x (reservations st) ->
                   Reservation.id x <> Reservation.id r ->
                   Reservation.PropertyId x = Reservation.PropertyId r ->
                   ~ overlaps a0 d0 x))
  /\ forall req2,
       authorization req2 = authorization req ->
       params_id req2 = params_id req ->
       body req2 !! "arrivalTime" = body req !! "arrivalTime" ->
       body req2 !! "departureTime" = body req !! "departureTime" ->
       PUT_reservations_id req2 st = (st', Sent res).
Proof.
  intros H Hs.
  unfold PUT_reservations_id in H. cbn [route] in H.
  destruct (authenticateJWT_cases req) as [(r0 & E & N0 & _ & _) | (c & E & Hb & E2)];
    rewrite E in H; [injection H as <- <-; contradiction|].
  destruct (validateReservation_ext (set_user c req) (set_user c req) eq_refl eq_refl)
    as [Hl Hr].
  destruct (validateReservation (set_user c req)) as [r0|rq] eqn:Ev.
  { destruct (Hl r0 eq_refl) as [_ S400]. injection H as <- <-.
    rewrite S400 in Hs. discriminate. }
  destruct (Hr rq eq_refl) as [-> _].
  split.
  - destruct (put_reservation_updated _ _ _ _ H Hs)
      as (r & a & d & Hf & _ & Hw & Hno & -> & ->).
    exists r, a, d. cbn [params_id body set_user] in Hf, Hw, Hno.
    split; [exact Hf|]. split; [exact Hw|]. split; [reflexivity|].
    split; [reflexivity|]. split; [reflexivity|]. split; [reflexivity|].
    split; [cbn [retimed reservations]; apply retimed_frame|].
    intros a0 d0 [Ha0 Hd0]. exact (put_check_reads r _ _ a0 d0 _ Ha0 Hd0 Hno).
  - intros req2 Hh Hi Ha Hd. rewrite <- H.
    unfold PUT_reservations_id at 1. cbn [route].
    rewrite (E2 req2 Hh).
    destruct (validateReservation_ext (set_user c req) (set_user c req2) Ha Hd)
      as [_ Hr2].
    destruct (Hr2 _ Ev) as [_ ->].
    apply put_reservation_ext; [exact Hi | exact Ha | exact Hd].
Qed.

End PerIdRoutes.

Section Signup.
Context {P : Platform}.

Lemma char_between_spec (lo hi : nat) (ch : ascii) :
  char_between lo hi ch = true <-> (lo <= nat_of_ascii ch <= hi)%nat.
Proof.
  unfold char_between. rewrite andb_true_iff, !Nat.leb_le. reflexivity.
Qed.

Lemma matches_class_spec (cls : ascii -> bool) (s : string) :
  matches_class cls s = true
  <-> exists ch, In ch (list_ascii_of_string s) /\ cls ch = true.
Proof. unfold matches_class. apply existsb_exists. Qed.

Lemma is_special_spec (ch : ascii) :
  is_special ch = true <-> In ch special_characters.
Proof.
  unfold is_special. rewrite existsb_exists. split.
  - intros (y & Hy & E). apply Ascii.eqb_eq in E. subst. exact Hy.
  - intros H. exists ch. split; [exact H | apply Ascii.eqb_refl].
Qed.

Lemma validate_password_nil (pw : string) :
  validate_password pw = []
  <-> (10 <=? String.length pw)%nat = true
      /\ matches_class is_upper pw = true
      /\ matches_class is_lower pw = true
      /\ matches_class is_special pw = true.
Proof.
  unfold validate_password.
  rewrite !app_nil, !check_nil. tauto.
Qed.

Lemma validate_password_path (pw : string) (e : FieldError) :
  In e (validate_password pw) -> path e = "password".
Proof.
  unfold validate_password. rewrite !in_app_iff, !check_In.
  intros [H | [H | [H | H]]]; destruct H as [_ ->]; reflexivity.
Qed.

Lemma validate_email_field_path (v : option JsValue) (e : FieldError) :
  In e (validate_email_field v) -> path e = "email".
Proof.
  unfold validate_email_field, validate_email.
  destruct v as [[| | | |items|]|]; rewrite in_app_iff;
    try (rewrite !check_In; intros [[_ ->] | [_ ->]]; reflexivity).
  rewrite !check_all_In. intros [[_ ->] | [_ ->]]; reflexivity.
Qed.

(** C8. [validateUser] records no error for the password exactly when it
    has at least 10 characters, one of them in A-Z, one in a-z and one
    among the special characters of the pattern. A password shorter than
    10 characters gets the message "Password must be at least 10 characters
    long"; a signup whose password is "short1!" is answered 400 with that
    message among the errors, whatever its other fields; "LongEnough1!"
    gets no password error. *)
Theorem password_validation (pw : string) :
  (validate_password pw = []
   <-> (10 <= String.length pw)%nat
       /\ (exists ch, In ch (list_ascii_of_string pw)
                      /\ (65 <= nat_of_ascii ch <= 90)%nat)
       /\ (exists ch, In ch (list_ascii_of_string pw)
                      /\ (97 <= nat_of_ascii ch <= 122)%nat)
       /\ (exists ch, In ch (list_ascii_of_string pw)
                      /\ In ch special_characters))
  /\ ((String.length pw < 10)%nat ->
      In {| path := "password";
            msg := "Password must be at least 10 characters long" |}
         (validate_password pw))
  /\ (forall req : Request,
        body req !! "password" = Some (JStr "short1!") ->
        exists errs,
          validateUser req = inl {| status := 400; payload := errors errs |}
          /\ In {| path := "password";
                   msg := "Password must be at least 10 characters long" |} errs)
  /\ (forall b : gmap string JsValue,
        b !! "password" = Some (JStr "LongEnough1!") ->
        forall e, In e (validateUser_errors b) -> path e <> "password").
Proof.
  assert (Hshort : forall s, (String.length s < 10)%nat ->
            In {| path := "password";
                  msg := "Password must be at least 10 characters long" |}
               (validate_password s)).
  { intros s Hlt. unfold validate_password. apply in_app_iff. left.
    apply check_In. split; [|reflexivity]. apply Nat.leb_gt, Hlt. }
  split; [|split; [|split]].
  - rewrite validate_password_nil, Nat.leb_le, !matches_class_spec.
    unfold is_upper, is_lower.
    setoid_rewrite char_between_spec. setoid_rewrite is_special_spec.
    reflexivity.
  - apply Hshort.
  - intros req Hpw.
    assert (Hin : In {| path := "password";
                        msg := "Password must be at least 10 characters long" |}
                     (validateUser_errors (body req))).
    { unfold validateUser_errors. rewrite Hpw.
      cbn [validate_password_field field_text]. rewrite field_toString_JStr.
      apply in_app_iff. right. apply in_app_iff. left.
      apply Hshort. cbn. lia. }
    unfold validateUser. destruct (validateUser_errors (body req)) as [|e l].
    + destruct Hin.
    + exists (e :: l). split; [reflexivity | exact Hin].
  - intros b Hpw e He. unfold validateUser_errors in He.
    rewrite Hpw in He. cbn [validate_password_field field_text] in He.
    rewrite field_toString_JStr in He.
    rewrite !in_app_iff in He.
    destruct He as [He | [He | [He | [He | He]]]].
    + rewrite (validate_email_field_path _ _ He). discriminate.
    + vm_compute in He. destruct He.
    + apply check_field_In in He. destruct He as [_ ->]. discriminate.
    + apply check_field_In in He. destruct He as [_ ->]. discriminate.
    + apply check_field_In in He. destruct He as [_ ->]. discriminate.
Qed.

End Signup.

Section PropertyListing.
Context {P : Platform}.

Lemma row_before_le (dir : Direction) (rank : Property.t -> Z) (x y : Property.t) :
  row_before dir rank x y = true -> price_le dir x y.
Proof.
  unfold row_before, price_le.
  destruct (Property.price x ?= Property.price y)%Q eqn:E.
  - intros _. apply Qeq_alt in E. destruct dir; rewrite E; apply Qle_refl.
  - apply Qlt_alt in E. destruct dir; [|discriminate].
    intros _. apply Qlt_le_weak, E.
  - apply Qgt_alt in E. destruct dir; [discriminate|].
    intros _. apply Qlt_le_weak, E.
Qed.

Lemma row_before_total (dir : Direction) (rank : Property.t -> Z) (x y : Property.t) :
  row_before dir rank x y = false -> price_le dir y x.
Proof.
  unfold row_before, price_le.
  destruct (Property.price x ?= Property.price y)%Q eqn:E.
  - intros _. apply Qeq_alt in E. destruct dir; rewrite E; apply Qle_refl.
  - apply Qlt_alt in E. destruct dir; [discriminate|].
    intros _. apply Qlt_le_weak, E.
  - apply Qgt_alt in E. destruct dir; [|discriminate].
    intros _. apply Qlt_le_weak, E.
Qed.

Lemma price_le_trans (dir : Direction) (x y z : Property.t) :
  price_le dir x y -> price_le dir y z -> price_le dir x z.
Proof.
  destruct dir; cbn; intros H1 H2.
  - exact (Qle_trans _ _ _ H1 H2).
  - exact (Qle_trans _ _ _ H2 H1).
Qed.

Lemma insert_by_price_In (dir : Direction) (rank : Property.t -> Z)
    (x y : Property.t) (l : list Property.t) :
  In y (insert_by_price dir rank x l) <-> y = x \/ In y l.
Proof.
  induction l as [|z l IH]; cbn.
  - intuition auto.
  - destruct (row_before dir rank x z); cbn; [|rewrite IH]; intuition auto.
Qed.

Lemma order_by_price_In (dir : Direction) (rank : Property.t -> Z)
    (y : Property.t) (l : list Property.t) :
  In y (order_by_price dir rank l) <-> In y l.
Proof.
  induction l as [|x l IH]; cbn; [reflexivity|].
  rewrite insert_by_price_In, IH. intuition auto.
Qed.

Lemma insert_by_price_sorted (dir : Direction) (rank : Property.t -> Z)
    (x : Property.t) (l : list Property.t) :
  StronglySorted (price_le dir) l ->
  StronglySorted (price_le dir) (insert_by_price dir rank x l).
Proof.
  induction 1 as [|z l Hs IH Hz]; cbn.
  - constructor; constructor.
  - destruct (row_before dir rank x z) eqn:E.
    + apply row_before_le in E. constructor.
      * constructor; assumption.
      * constructor; [exact E|].
        eapply Forall_impl; [exact Hz|]. intros w Hw.
        exact (price_le_trans dir x z w E Hw).
    + constructor; [exact IH|].
      apply List.Forall_forall. intros w Hw. apply insert_by_price_In in Hw.
      destruct Hw as [-> | Hw].
      * exact (row_before_total _ _ _ _ E).
      * rewrite List.Forall_forall in Hz. apply Hz, Hw.
Qed.

(** Whatever the ranks, the rows come out ordered by price. *)
Lemma order_by_price_sorted (dir : Direction) (rank : Property.t -> Z)
    (l : list Property.t) :
  StronglySorted (price_le dir) (order_by_price dir rank l).
Proof.
  induction l as [|x l IH]; cbn; [constructor|].
  apply insert_by_price_sorted, IH.
Qed.

Lemma insert_by_price_perm (dir : Direction) (rank : Property.t -> Z)
    (x : Property.t) (l : list Property.t) :
  Permutation (insert_by_price dir rank x l) (x :: l).
Proof.
  induction l as [|y l IH]; cbn [insert_by_price]; [reflexivity|].
  destruct (row_before dir rank x y); [reflexivity|].
  rewrite IH. apply perm_swap.
Qed.

Lemma order_by_price_perm (dir : Direction) (rank : Property.t -> Z)
    (l : list Property.t) :
  Permutation (order_by_price dir rank l) l.
Proof.
  induction l as [|x l IH]; cbn [order_by_price]; [reflexivity|].
  rewrite insert_by_price_perm. constructor. exact IH.
Qed.

Lemma StronglySorted_skipn {A : Type} (R : A -> A -> Prop) (n : nat) (l : list A) :
  StronglySorted R l -> StronglySorted R (skipn n l).
Proof.
  revert l. induction n as [|n IH]; intros l H; [exact H|].
  destruct l as [|x l]; [constructor|].
  cbn. apply IH. inversion H; assumption.
Qed.

Lemma In_firstn {A : Type} (n : nat) (l : list A) (x : A) :
  In x (firstn n l) -> In x l.
Proof.
  revert l. induction n as [|n IH]; intros [|y l]; cbn; try contradiction.
  intros [-> | H]; [left; reflexivity | right; apply IH, H].
Qed.

Lemma In_skipn {A : Type} (n : nat) (l : list A) (x : A) :
  In x (skipn n l) -> In x l.
Proof.
  revert l. induction n as [|n IH]; intros l; [exact (fun H => H)|].
  destruct l as [|y l]; cbn; [contradiction|]. intros H. right. apply IH, H.
Qed.

Lemma StronglySorted_firstn {A : Type} (R : A -> A -> Prop) (n : nat) (l : list A) :
  StronglySorted R l -> StronglySorted R (firstn n l).
Proof.
  revert l. induction n as [|n IH]; intros l H; [constructor|].
  destruct l as [|x l]; [constructor|].
  cbn. inversion H as [|? ? Hs Hx]; subst. constructor; [apply IH, Hs|].
  apply List.Forall_forall. intros y Hy. rewrite List.Forall_forall in Hx.
  apply Hx. exact (In_firstn _ _ _ Hy).
Qed.

Lemma parseInt_truthy (s : string) (n : Z) : parseInt s = Some n -> truthy s = true.
Proof. destruct s; [discriminate | reflexivity]. Qed.

Lemma sort_direction (sort : option string) (dir : Direction) :
  (sort = Some "desc" -> dir = desc) ->
  (sort <> Some "desc" -> dir = asc) ->
  match sort with
  | Some s =>
      if truthy s && (String.eqb s "asc" || String.eqb s "desc")
      then direction_of s
      else asc
  | None => asc
  end = dir.
Proof.
  intros Hd Ha. destruct sort as [s|]; [|symmetry; apply Ha; discriminate].
  unfold direction_of. destruct (String.eqb_spec s "desc") as [->|N].
  - cbn. symmetry. apply Hd. reflexivity.
  - rewrite (Ha ltac:(congruence)). destruct (_ && _); reflexivity.
Qed.

(** The page GET /properties sends when the capacity and the page parse. *)
Lemma get_properties_page (req : Request) (st : Store) (cs : string) (c k : Z)
    (dir : Direction) :
  query req !! "capacity" = Some cs -> parseInt cs = Some c ->
  (query req !! "sort" = Some "desc" -> dir = desc) ->
  (query req !! "sort" <> Some "desc" -> dir = asc) ->
  match query req !! "offset" with
  | Some o => if truthy o then parseInt o else Some 0
  | None => Some 0
  end = Some k ->
  let kept := List.filter (fun x => Property.capacity x =? c) (properties st) in
  get_properties req st =
    if k * 6 <? 0
    then (st, Sent {| status := 500; payload := error "Failed to retrieve properties." |})
    else (st, Sent {| status := 200;
                      payload := property_list
                        (firstn 6 (skipn (Z.to_nat (k * 6))
                           (order_by_price dir (sql_tie_rank dir (k * 6) 6 kept)
                              kept))) |}).
Proof.
  intros Hc Hp Hd Ha Ho kept. unfold get_properties.
  rewrite Hc, (parseInt_truthy cs c Hp), Hp, Ho, (sort_direction _ dir Hd Ha).
  unfold Property_findAll, Number_mul. cbn [where_capacity offset limit order_price].
  destruct (k * 6 <? 0); reflexivity.
Qed.

Lemma get_properties_no_page (req : Request) (st : Store) :
  match query req !! "offset" with
  | Some o => if truthy o then parseInt o else Some 0
  | None => Some 0
  end = None ->
  get_properties req st =
    (st, Sent {| status := 500; payload := error "Failed to retrieve properties." |}).
Proof.
  intros Ho. unfold get_properties. rewrite Ho.
  unfold Property_findAll, Number_mul. cbn [where_capacity offset].
  destruct (match query req !! "capacity" with
            | Some c => if truthy c then Some (parseInt c) else None
            | None => None
            end) as [[n|]|]; reflexivity.
Qed.

(** C4, amended. For the GET /properties handler that reads the query, and
    a request whose [capacity] parameter parses to the safe integer [c],
    with [dir] descending when [sort] is "desc" and ascending otherwise:
    every list the route sends with status 200 holds only stored
    properties of capacity [c], is ordered by price in the direction
    [dir], and has at most 6 elements. When [offset] is absent (page 0) or
    parses to a page [k] that is not negative, [6 * k] being a safe
    integer, the route sends page [k]: the 6 rows after the first [6 * k]
    of an ordering by price of the stored properties of capacity [c]; the
    place of rows of equal price in that ordering is the choice of the
    store. In every case the answer is such a list or 500 "Failed to
    retrieve properties.", and the store is unchanged. *)
Theorem list_properties (req : Request) (st : Store) (cs : string) (c : Z)
    (dir : Direction) :
  query req !! "capacity" = Some cs -> parseInt cs = Some c -> safe_integer c ->
  (query req !! "sort" = Some "desc" -> dir = desc) ->
  (query req !! "sort" <> Some "desc" -> dir = asc) ->
  (forall l,
     GET_properties req st =
       (st, Sent {| status := 200; payload := property_list l |}) ->
     Forall (fun x => In x (properties st) /\ Property.capacity x = c) l
     /\ StronglySorted (price_le dir) l
     /\ (length l <= 6)%nat)
  /\ (forall k,
       (query req !! "offset" = None /\ k = 0)
       \/ (exists os, query req !! "offset" = Some os
                      /\ parseInt os = Some k /\ 0 <= k /\ safe_integer (6 * k)) ->
       exists ordered,
         Permutation ordered
           (List.filter (fun x => Property.capacity x =? c) (properties st))
         /\ StronglySorted (price_le dir) ordered
         /\ GET_properties req st =
              (st, Sent {| status := 200;
                           payload := property_list
                             (firstn 6 (skipn (Z.to_nat (6 * k)) ordered)) |}))
  /\ ((exists l, GET_properties req st =
                   (st, Sent {| status := 200; payload := property_list l |}))
      \/ GET_properties req st =
           (st, Sent {| status := 500;
                        payload := error "Failed to retrieve properties." |})).
Proof.
  intros Hc Hp _ Hd Ha. unfold GET_properties. cbn [route].
  destruct (match query req !! "offset" with
            | Some o => if truthy o then parseInt o else Some 0
            | None => Some 0
            end) as [k|] eqn:Ho.
  - pose proof (get_properties_page req st cs c k dir Hc Hp Hd Ha Ho) as E.
    cbn zeta in E. split; [|split].
    + intros l Hl. rewrite E in Hl.
      destruct (k * 6 <? 0); [discriminate|]. injection Hl as <-.
      split; [|split].
      * apply List.Forall_forall. intros x Hx.
        apply In_firstn, In_skipn, order_by_price_In, List.filter_In in Hx.
        destruct Hx as [Hx Hcap]. split; [exact Hx | apply Z.eqb_eq, Hcap].
      * apply StronglySorted_firstn, StronglySorted_skipn, order_by_price_sorted.
      * apply List.firstn_le_length.
    + intros k' Hk. rewrite E.
      assert (k' = k /\ 0 <= k) as [-> Hk0].
      { destruct Hk as [[Hn ->] | (os & Hos & Hpo & Hk0 & _)].
        - rewrite Hn in Ho. injection Ho as <-. split; [reflexivity | lia].
        - rewrite Hos, (parseInt_truthy os k' Hpo), Hpo in Ho.
          injection Ho as <-. split; [reflexivity | exact Hk0]. }
      replace (k * 6 <? 0) with false by (symmetry; apply Z.ltb_ge; lia).
      rewrite (Z.mul_comm 6 k). eexists. split; [apply order_by_price_perm|].
      split; [apply order_by_price_sorted | reflexivity].
    + rewrite E. destruct (k * 6 <? 0); [right; reflexivity | left; eauto].
  - pose proof (get_properties_no_page req st Ho) as E.
    split; [|split].
    + intros l Hl. rewrite E in Hl. discriminate.
    + intros k [[Hn _] | (os & Hos & Hpo & _)].
      * rewrite Hn in Ho. discriminate.
      * rewrite Hos, (parseInt_truthy os k Hpo), Hpo in Ho. discriminate.
    + right. exact E.
Qed.

End PropertyListing.

(** * Worked examples on the concrete platform *)

Section Examples.
Import Fixture Sample.

Example parse_date_epoch : parse_date "1970-01-01" = Some 0.
Proof. reflexivity. Qed.

Example parse_date_2025 : parse_date "2025-01-05" = Some 1736035200000.
Proof. reflexivity. Qed.

(** The three readers on the thirtieth of February. *)
Example readers_disagree :
  isISO8601 "2025-02-30" = true
  /\ Date_getTime (JStr "2025-02-30") = Date_getTime (JStr "2025-03-02")
  /\ sql_datetime (JStr "2025-02-30") = Some SqlInvalidDate
  /\ sql_datetime (JStr "2025-03-02") = Some (SqlNum 1740873600000).
Proof. repeat split. Qed.

Example parseInt_examples :
  parseInt "4" = Some 4 /\ parseInt " 12px" = Some 12 /\ parseInt "-3" = Some (-3)
  /\ parseInt "abc" = None /\ parseInt "" = None.
Proof. repeat split. Qed.

Lemma alice_bearer (i : Z) (b : gmap string JsValue) :
  bearer (request as_alice i b) {| userId := 1 |}.
Proof. exists "token-of-user-1". split; reflexivity. Defined.

Lemma bob_bearer (i : Z) (b : gmap string JsValue) :
  bearer (request as_bob i b) {| userId := 2 |}.
Proof. exists "token-of-user-2". split; reflexivity. Defined.

(** No header on POST /reservations; a token that does not verify on GET
    /reservations. *)
Lemma bearer_route_rejects_witness :
  POST_reservations (request None 0 (dates_body 1 "2025-01-01" "2025-01-05")) empty_store
  = (empty_store,
     Sent {| status := 401; payload := error "Access denied. No token provided." |})
  /\ GET_reservations (request (Some "Bearer forged") 0 ∅) booked_store
     = (booked_store, Sent {| status := 400; payload := error "Invalid token." |}).
Proof.
  split.
  - apply (proj1 (bearer_route_rejects [validateReservation] post_reservations
                    (request None 0 (dates_body 1 "2025-01-01" "2025-01-05"))
                    empty_store)).
    left. reflexivity.
  - apply (proj2 (bearer_route_rejects [] get_reservations
                    (request (Some "Bearer forged") 0 ∅) booked_store)
                 "Bearer forged"); reflexivity.
Defined.

(** Bob lists his reservations while the only stored one is Alice's. *)
Lemma list_reservations_own_witness :
  exists l,
    GET_reservations (request as_bob 0 ∅) booked_store
    = (booked_store, Sent {| status := 200; payload := reservation_list l |})
    /\ l = []
    /\ forall r, In r l <-> In r (reservations booked_store) /\ Reservation.UserId r = 2.
Proof.
  exact (list_reservations_own (request as_bob 0 ∅) booked_store
           "token-of-user-2" {| userId := 2 |} eq_refl eq_refl).
Defined.

(** C1, at the failing input. The cabin is booked from 2025-03-01 to
    2025-03-10. Bob asks for it with the arrival "2025-02-30" and the
    departure "2025-03-05". The validation lets the arrival through; the
    range check reads it with [Date], as 2025-03-02, before the departure;
    the overlap query is handed the string, holds 'Invalid date' for it and
    selects no row; [create] writes what [Date] reads. The answer is 201
    and the table then holds the stay of Bob from 2025-03-02 to
    2025-03-05 inside the stay of Alice, which starts before the new
    departure and ends after the new arrival. *)
Theorem post_books_into_a_stored_stay :
  dates_validated (body rolled_request)
  /\ range_accepted (body rolled_request)
  /\ bind_value col_departureTime (body rolled_request !! "arrivalTime")
     = Some SqlInvalidDate
  /\ stay_written (body rolled_request) 1740873600000 1741132800000
  /\ POST_reservations rolled_request march_store
     = (inserted rolled_stay march_store,
        Sent {| status := 201; payload := reservation rolled_stay |})
  /\ POST_reservations rolled_request march_store
     <> (march_store, Sent BookingConflict)
  /\ In march_stay (reservations march_store)
  /\ Reservation.PropertyId march_stay = Reservation.PropertyId rolled_stay
  /\ Reservation.arrivalTime march_stay < Reservation.departureTime rolled_stay
  /\ Reservation.departureTime march_stay > Reservation.arrivalTime rolled_stay.
Proof.
  assert (E : POST_reservations rolled_request march_store
              = (inserted rolled_stay march_store,
                 Sent {| status := 201; payload := reservation rolled_stay |}))
    by (vm_compute; reflexivity).
  split; [split; reflexivity|]. split; [reflexivity|]. split; [reflexivity|].
  split; [split; reflexivity|]. split; [exact E|].
  split; [rewrite E; discriminate|].
  split; [left; reflexivity|]. repeat split.
Qed.


(** Departure equal to arrival, on create and on the update of a stored
    reservation. *)
Lemma invalid_range_rejected_witness :
  POST_reservations (request as_alice 1 (dates_body 2 "2025-01-05" "2025-01-05"))
    booked_store
  = (booked_store, Sent RangeInvalid)
  /\ PUT_reservations_id (request as_alice 1 (dates_body 2 "2025-01-05" "2025-01-05"))
       booked_store
     = (booked_store, Sent RangeInvalid).
Proof.
  apply (invalid_range_rejected
           (request as_alice 1 (dates_body 2 "2025-01-05" "2025-01-05"))
           booked_store {| userId := 1 |} 1736035200000 1736035200000
           (alice_bearer _ _) (conj eq_refl eq_refl) eq_refl eq_refl).
  lia.
Defined.

(** The claim as it was stated fails on an update whose [:id] names no
    reservation: the departure 2025-01-01 is before the arrival 2025-01-05
    and the answer is 404, not the range error. *)
Lemma invalid_range_rejected_counterexample :
  new_Date (Some (JStr "2025-01-05")) = Some 1736035200000
  /\ new_Date (Some (JStr "2025-01-01")) = Some 1735689600000
  /\ 1735689600000 <= 1736035200000
  /\ PUT_reservations_id (request as_alice 7 (dates_body 1 "2025-01-05" "2025-01-01"))
       booked_store
     = (booked_store, Sent ReservationNotFound)
  /\ PUT_reservations_id (request as_alice 7 (dates_body 1 "2025-01-05" "2025-01-01"))
       booked_store
     <> (booked_store, Sent RangeInvalid).
Proof.
  split; [reflexivity|]. split; [reflexivity|]. split; [lia|].
  split; [reflexivity | discriminate].
Qed.

(** Alice creates a reservation with a body that names Bob as the owner:
    the row belongs to Alice, and the same request without the extra keys
    has the same outcome. *)
Lemma created_reservation_owner_witness :
  exists r,
    Reservation.UserId r = 1
    /\ POST_reservations
         (request as_alice 0
            (<["UserId" := JNum 2]> (<["owner" := JStr "bob"]>
               (dates_body 2 "2025-02-01" "2025-02-03"))))
         booked_store
       = (inserted r booked_store, Sent {| status := 201; payload := reservation r |})
    /\ POST_reservations (request as_alice 0 (dates_body 2 "2025-02-01" "2025-02-03"))
         booked_store
       = (inserted r booked_store, Sent {| status := 201; payload := reservation r |}).
Proof.
  assert (Hpost :
    POST_reservations
      (request as_alice 0
         (<["UserId" := JNum 2]> (<["owner" := JStr "bob"]>
            (dates_body 2 "2025-02-01" "2025-02-03"))))
      booked_store
    = (inserted (Reservation.mk 2 1738368000000 1738540800000 1 2) booked_store,
       Sent {| status := 201;
               payload := reservation
                 (Reservation.mk 2 1738368000000 1738540800000 1 2) |}))
    by (vm_compute; reflexivity).
  destruct (created_reservation_owner _ _ _ _ {| userId := 1 |}
              (alice_bearer _ _) Hpost eq_refl)
    as ((r & Hp & Hu & Hst) & Hext).
  cbn [payload] in Hp. injection Hp as <-.
  eexists. split; [exact Hu|]. split; [exact Hpost|].
  apply Hext; vm_compute; reflexivity.
Defined.

(** A signup with the password "short1!" and no other field; the password
    "LongEnough1!". *)
Lemma password_validation_witness :
  validate_password "LongEnough1!" = []
  /\ exists errs,
       validateUser (request None 0 (<["password" := JStr "short1!"]> ∅))
       = inl {| status := 400; payload := errors errs |}
       /\ In {| path := "password";
                msg := "Password must be at least 10 characters long" |} errs.
Proof.
  destruct (password_validation "LongEnough1!") as (Hiff & _ & Hshort & _).
  split.
  - apply (proj2 Hiff). split; [apply Nat.leb_le; reflexivity|]. split; [|split].
    + exists "L"%char. split; [left; reflexivity|].
      split; apply Nat.leb_le; reflexivity.
    + exists "o"%char. split; [right; left; reflexivity|].
      split; apply Nat.leb_le; reflexivity.
    + exists "!"%char. split; [|left; reflexivity].
      cbn. repeat first [left; reflexivity | right].
  - apply (Hshort (request None 0 (<["password" := JStr "short1!"]> ∅))).
    reflexivity.
Defined.

(** Bob reads and deletes the reservation of Alice, and his update of it is
    answered as hers would be. *)
Lemma per_id_routes_ignore_caller_witness :
  Reservation.UserId stay = 1
  /\ GET_reservations_id (request as_bob 1 ∅) booked_store
     = (booked_store, Sent {| status := 200; payload := reservation stay |})
  /\ DELETE_reservations_id (request as_bob 1 ∅) booked_store
     = (empty_store_after_delete,
        Sent {| status := 200; payload := message "Reservation deleted successfully." |})
  /\ PUT_reservations_id (request as_alice 1 ∅) booked_store
     = PUT_reservations_id (request as_bob 1 ∅) booked_store.
Proof.
  destruct (per_id_routes_ignore_caller (request as_bob 1 ∅) (request as_alice 1 ∅)
              booked_store {| userId := 2 |} {| userId := 1 |}
              (bob_bearer _ _) (alice_bearer _ _) eq_refl eq_refl)
    as (_ & Hput & _ & Hfound).
  destruct (Hfound stay eq_refl) as [Hget Hdel].
  split; [reflexivity|]. split; [exact Hget|]. split; [exact Hdel | exact Hput].
Defined.

(** Bob moves the stay of Alice and names another property in the body:
    the row keeps its property and its owner. *)
Lemma update_changes_times_only_witness :
  exists r',
    PUT_reservations_id
      (request as_bob 1 (<["UserId" := JNum 2]> (dates_body 2 "2025-03-01" "2025-03-05")))
      booked_store
    = (retimed 1 1740787200000 1741132800000 booked_store,
       Sent {| status := 200; payload := reservation r' |})
    /\ Reservation.PropertyId r' = Reservation.PropertyId stay
    /\ Reservation.UserId r' = Reservation.UserId stay
    /\ Reservation.arrivalTime r' = 1740787200000
    /\ Reservation.departureTime r' = 1741132800000.
Proof.
  assert (Hput :
    PUT_reservations_id
      (request as_bob 1 (<["UserId" := JNum 2]> (dates_body 2 "2025-03-01" "2025-03-05")))
      booked_store
    = (retimed 1 1740787200000 1741132800000 booked_store,
       Sent {| status := 200;
               payload := reservation
                 (Reservation.mk 1 1740787200000 1741132800000 1 1) |}))
    by (vm_compute; reflexivity).
  destruct (update_changes_times_only _ _ _ _ Hput eq_refl)
    as ((r & a & d & Hf & Hs & Hp & _) & _).
  injection Hf as <-. cbn [payload] in Hp. injection Hp as <- <-.
  eexists. split; [exact Hput|]. repeat split.
Defined.

Lemma four_is_safe : safe_integer 4.
Proof. split; reflexivity. Defined.

(** [GET /properties?capacity=4&sort=desc&offset=0] on four properties, one
    of them of capacity 2. *)
Lemma list_properties_witness :
  GET_properties listing_request listing_store
  = (listing_store, Sent {| status := 200; payload := property_list [villa; cabin; hut] |})
  /\ Forall (fun x => In x (properties listing_store) /\ Property.capacity x = 4)
            [villa; cabin; hut]
  /\ StronglySorted (price_le desc) [villa; cabin; hut]
  /\ (length [villa; cabin; hut] <= 6)%nat.
Proof.
  destruct (list_properties listing_request listing_store "4" 4 desc
              eq_refl eq_refl four_is_safe (fun _ => eq_refl)
              (fun N => match N eq_refl with end))
    as (Hall & _ & _).
  assert (E : GET_properties listing_request listing_store
              = (listing_store,
                 Sent {| status := 200;
                         payload := property_list [villa; cabin; hut] |}))
    by (vm_compute; reflexivity).
  split; [exact E|]. exact (Hall _ E).
Defined.

(** The claim as it was stated fails on the copy of the route in
    routes/properties.js, which reads no query parameter: asked for the
    properties of capacity 4, it sends the whole table, the loft of
    capacity 2 among them. *)
Lemma list_properties_counterexample :
  query listing_request !! "capacity" = Some "4"
  /\ parseInt "4" = Some 4
  /\ get_properties_plain listing_request listing_store
     = (listing_store,
        Sent {| status := 200; payload := property_list [cabin; loft; villa; hut] |})
  /\ In loft [cabin; loft; villa; hut]
  /\ Property.capacity loft <> 4.
Proof.
  split; [reflexivity|]. split; [reflexivity|]. split; [reflexivity|].
  split; [right; left; reflexivity | discriminate].
Qed.

End Examples.

(** * Further properties of the reservation routes *)

Section ReservationSteps.
Context {P : Platform}.

Lemma findByPk_Some (i : Z) (st : Store) (r : Reservation.t) :
  Reservation_findByPk i st = Some r ->
  In r (reservations st) /\ Reservation.id r = i.
Proof.
  unfold Reservation_findByPk. intros H. apply List.find_some in H.
  destruct H as [Hin E]. split; [exact Hin | apply Z.eqb_eq, E].
Qed.

Lemma findByPk_None (i : Z) (st : Store) :
  Reservation_findByPk i st = None <->
  forall x, In x (reservations st) -> Reservation.id x <> i.
Proof.
  unfold Reservation_findByPk. split.
  - intros H x Hx E. apply (List.find_none _ _ H) in Hx.
    apply Z.eqb_neq in Hx. contradiction.
  - intros H. destruct (List.find _ _) as [r|] eqn:E; [|reflexivity].
    apply List.find_some in E. destruct E as [Hin E]. apply Z.eqb_eq in E.
    destruct (H r Hin E).
Qed.

(** What the two middleware of a write route leave to the handler. *)
Lemma write_route_cases (h : Handler) (req : Request) (st : Store) :
  (exists res, route [authenticateJWT; validateReservation] h req st = (st, Sent res)
               /\ status res <> 200 /\ status res <> 201)
  \/ (exists c, bearer req c /\ dates_validated (body req)
                /\ route [authenticateJWT; validateReservation] h req st
                   = h (set_user c req) st).
Proof.
  cbn [route].
  destruct (authenticateJWT_cases req) as [(res & E & N0 & N1 & _) | (c & E & Hb & _)];
    rewrite E.
  - left. exists res. auto.
  - unfold validateReservation. cbn [body set_user].
    destruct (validateReservation_errors (body req)) as [|e l] eqn:Ev.
    + right. exists c. split; [exact Hb|]. split; [|reflexivity].
      apply validateReservation_nil, Ev.
    + left. eexists. split; [reflexivity|]. split; discriminate.
Qed.

Lemma read_route_cases (h : Handler) (req : Request) (st : Store) :
  (exists res, route [authenticateJWT] h req st = (st, Sent res)
               /\ status res <> 200 /\ status res <> 201)
  \/ (exists c, bearer req c
                /\ route [authenticateJWT] h req st = h (set_user c req) st).
Proof.
  cbn [route].
  destruct (authenticateJWT_cases req) as [(res & E & N0 & N1 & _) | (c & E & Hb & _)];
    rewrite E.
  - left. exists res. auto.
  - right. exists c. split; [exact Hb | reflexivity].
Qed.

(** The overlap query of POST /reservations, when it reads the stay from
    [a] to [d] on the property [p] and selects no row. *)
Lemma post_check_reads (vp va vd : option JsValue) (p a d : Z)
    (l : list Reservation.t) :
  bind_value col_PropertyId vp = Some (SqlNum p) ->
  bind_value col_arrivalTime va = Some (SqlNum a) ->
  bind_value col_departureTime vd = Some (SqlNum d) ->
  existsb (where_test [ (col_PropertyId, Op_eq, vp);
                        (col_arrivalTime, Op_lt, vd);
                        (col_departureTime, Op_gt, va) ]) l = false ->
  forall x, In x l -> Reservation.PropertyId x = p -> ~ overlaps a d x.
Proof.
  intros Hp Ha Hd E x Hx Hpx Ho.
  apply (proj1 (existsb_false_iff _ _) E x) in Hx.
  rewrite (post_where_test vp va vd p a d x Hp Ha Hd) in Hx.
  apply Z.eqb_eq in Hpx. apply overlapsb_spec in Ho.
  rewrite Hpx, Ho in Hx. discriminate.
Qed.

(** One call of the create handler: nothing is written, or a row is
    created with the property and the instants the ORM wrote, after an
    overlap query that selected no row. *)
Lemma post_reservations_step (req : Request) (st st' : Store) (out : Outcome) :
  post_reservations req st = (st', out) ->
  (st' = st /\ (out = Thrown
                \/ exists res, out = Sent res /\ status res <> 200 /\ status res <> 201))
  \/ (exists c r,
        user req = Some c
        /\ out = Sent {| status := 201; payload := reservation r |}
        /\ st' = inserted r st
        /\ Reservation.id r = nextReservationId st
        /\ Reservation.UserId r = userId c
        /\ range_accepted (body req)
        /\ property_written (body req) (Reservation.PropertyId r)
        /\ stay_written (body req) (Reservation.arrivalTime r)
             (Reservation.departureTime r)
        /\ existsb (where_test
                      [ (col_PropertyId, Op_eq, body req !! "propertyId");
                        (col_arrivalTime, Op_lt, body req !! "departureTime");
                        (col_departureTime, Op_gt, body req !! "arrivalTime") ])
                   (reservations st) = false
        /\ existsb (fun x => Property.id x =? Reservation.PropertyId r) (properties st)
           = true
        /\ existsb (fun u => User.id u =? userId c) (users st) = true).
Proof.
  unfold post_reservations.
  destruct (Date_le _ _) eqn:Er.
  { intros H. injection H as <- <-. left. split; [reflexivity|]. right.
    eexists. split; [reflexivity|]. split; discriminate. }
  unfold Reservation_findAll.
  destruct (where_binds _) eqn:Eb.
  2:{ intros H. injection H as <- <-. left. auto. }
  rewrite length_filter_pos.
  destruct (existsb _ (reservations st)) eqn:Ee.
  { intros H. injection H as <- <-. left. split; [reflexivity|]. right.
    eexists. split; [reflexivity|]. split; discriminate. }
  destruct (user req) as [c|].
  2:{ intros H. injection H as <- <-. left. auto. }
  destruct (Reservation_create _ _ _ _ _) as [[r st1]|] eqn:Ec.
  2:{ intros H. injection H as <- <-. left. auto. }
  intros H. injection H as <- <-. right.
  destruct (Reservation_create_inv _ _ _ _ _ _ _ Ec)
    as (Hu & Hst & Hid & Hp & Ha & Hd & Fp & Fu).
  exists c, r. split; [reflexivity|]. split; [reflexivity|].
  split; [exact Hst|]. split; [exact Hid|]. split; [exact Hu|].
  split; [exact Er|]. split; [exact Hp|]. split; [split; assumption|].
  split; [reflexivity|]. split; assumption.
Qed.

(** One call of the update handler. *)
Lemma put_reservation_step (req : Request) (st st' : Store) (out : Outcome) :
  put_reservation req st = (st', out) ->
  (st' = st /\ (out = Thrown
                \/ exists res, out = Sent res /\ status res <> 200 /\ status res <> 201))
  \/ (exists r a d,
        Reservation_findByPk (params_id req) st = Some r
        /\ stay_written (body req) a d
        /\ out = Sent {| status := 200; payload := reservation (set_times a d r) |}
        /\ st' = retimed (Reservation.id r) a d st
        /\ where_binds
             [ (col_PropertyId, Op_eq, Some (JNum (Reservation.PropertyId r)));
               (col_arrivalTime, Op_lt, body req !! "departureTime");
               (col_departureTime, Op_gt, body req !! "arrivalTime");
               (col_id, Op_ne, Some (JNum (Reservation.id r))) ] = true
        /\ existsb (where_test
                      [ (col_PropertyId, Op_eq, Some (JNum (Reservation.PropertyId r)));
                        (col_arrivalTime, Op_lt, body req !! "departureTime");
                        (col_departureTime, Op_gt, body req !! "arrivalTime");
                        (col_id, Op_ne, Some (JNum (Reservation.id r))) ])
                   (reservations st) = false
        /\ range_accepted (body req)).
Proof.
  unfold put_reservation.
  destruct (Reservation_findByPk (params_id req) st) as [r|] eqn:Ef.
  2:{ intros H. injection H as <- <-. left. split; [reflexivity|]. right.
      eexists. split; [reflexivity|]. split; discriminate. }
  destruct (Date_le _ _) eqn:Er.
  { intros H. injection H as <- <-. left. split; [reflexivity|]. right.
    eexists. split; [reflexivity|]. split; discriminate. }
  unfold Reservation_findAll.
  destruct (where_binds _) eqn:Eb.
  2:{ intros H. injection H as <- <-. left. auto. }
  rewrite length_filter_pos.
  destruct (existsb _ (reservations st)) eqn:Ee.
  { intros H. injection H as <- <-. left. split; [reflexivity|]. right.
    eexists. split; [reflexivity|]. split; discriminate. }
  destruct (Reservation_update _ _ _ _) as [[r' st1]|] eqn:Eu.
  2:{ intros H. injection H as <- <-. left. auto. }
  intros H. injection H as <- <-. right.
  destruct (Reservation_update_inv _ _ _ _ _ _ Eu) as (a & d & Ha & Hd & -> & ->).
  exists r, a, d. split; [reflexivity|]. split; [split; assumption|].
  split; [reflexivity|]. split; [reflexivity|]. split; [exact Eb|].
  split; [exact Ee | exact Er].
Qed.

Lemma delete_reservation_step (req : Request) (st : Store) :
  match Reservation_findByPk (params_id req) st with
  | Some r =>
      delete_reservation req st =
        (Reservation_destroy r st,
         Sent {| status := 200; payload := message "Reservation deleted successfully." |})
  | None => delete_reservation req st = (st, Sent ReservationNotFound)
  end.
Proof.
  unfold delete_reservation. destruct (Reservation_findByPk _ _); reflexivity.
Qed.

Lemma routes_step (h : Handler) (req : Request) (st : Store) :
  In h reservation_routes -> Step st (fst (h req st)) (snd (h req st)).
Proof.
  intros Hh. unfold reservation_routes in Hh. cbn [In] in Hh.
  destruct Hh as [<- | [<- | [<- | [<- | [<- | []]]]]].
  - unfold POST_reservations.
    destruct (write_route_cases post_reservations req st)
      as [(res & -> & N) | (c & _ & _ & ->)].
    + apply step_refused. right. exists res. split; [reflexivity | exact N].
    + destruct (post_reservations (set_user c req) st) as [st' out] eqn:E.
      destruct (post_reservations_step _ _ _ _ E)
        as [[-> Hout] | (c' & r & _ & -> & -> & Hid & _)]; cbn [fst snd].
      * apply step_refused, Hout.
      * apply step_created; assumption.
  - unfold GET_reservations.
    destruct (read_route_cases get_reservations req st)
      as [(res & -> & N) | (c & _ & ->)].
    + apply step_refused. right. exists res. split; [reflexivity | exact N].
    + rewrite (get_reservations_filter (set_user c req) st c eq_refl).
      apply step_read. reflexivity.
  - unfold GET_reservations_id.
    destruct (read_route_cases get_reservation req st)
      as [(res & -> & N) | (c & _ & ->)].
    + apply step_refused. right. exists res. split; [reflexivity | exact N].
    + unfold get_reservation. destruct (Reservation_findByPk _ _); cbn [fst snd].
      * apply step_read. reflexivity.
      * apply step_refused. right. eexists. split; [reflexivity|].
        split; discriminate.
  - unfold PUT_reservations_id.
    destruct (write_route_cases put_reservation req st)
      as [(res & -> & N) | (c & _ & _ & ->)].
    + apply step_refused. right. exists res. split; [reflexivity | exact N].
    + destruct (put_reservation (set_user c req) st) as [st' out] eqn:E.
      destruct (put_reservation_step _ _ _ _ E)
        as [[-> Hout] | (r & a & d & Hf & _ & -> & -> & _)]; cbn [fst snd].
      * apply step_refused, Hout.
      * apply step_updated. apply (findByPk_Some _ _ _ Hf).
  - unfold DELETE_reservations_id.
    destruct (read_route_cases delete_reservation req st)
      as [(res & -> & N) | (c & _ & ->)].
    + apply step_refused. right. exists res. split; [reflexivity | exact N].
    + pose proof (delete_reservation_step (set_user c req) st) as E.
      destruct (Reservation_findByPk _ _) as [r|] eqn:Ef; rewrite E; cbn [fst snd].
      * apply step_deleted. apply (findByPk_Some _ _ _ Ef).
      * apply step_refused. right. eexists. split; [reflexivity|].
        split; discriminate.
Qed.

End ReservationSteps.

Section ReservationInvariants.
Context {P : Platform}.

Lemma NoDup_map_filter {A B : Type} (f : A -> B) (g : A -> bool) (l : list A) :
  NoDup (List.map f l) -> NoDup (List.map f (List.filter g l)).
Proof.
  induction l as [|x l IH]; cbn [List.map List.filter]; intros H; [constructor|].
  apply NoDup_cons in H. destruct H as [Hx Hl].
  destruct (g x); cbn [List.map]; [|apply IH, Hl].
  apply NoDup_cons. split; [|apply IH, Hl].
  intros Hin. apply Hx. apply list_elem_of_In in Hin. apply list_elem_of_In.
  apply List.in_map_iff in Hin. destruct Hin as (y & E & Hy).
  apply List.filter_In in Hy. apply List.in_map_iff. exists y. tauto.
Qed.

Lemma retimed_ids (i a d : Z) (l : list Reservation.t) :
  List.map Reservation.id
    (List.map (fun x => if Reservation.id x =? i then set_times a d x else x) l)
  = List.map Reservation.id l.
Proof.
  rewrite List.map_map. apply List.map_ext. intros x.
  destruct (Reservation.id x =? i); reflexivity.
Qed.

Lemma same_id_same_row (st : Store) (x y : Reservation.t) :
  ids_fresh st -> In x (reservations st) -> In y (reservations st) ->
  Reservation.id x = Reservation.id y -> x = y.
Proof.
  intros [Hn _]. revert Hn. generalize (reservations st) as l.
  induction l as [|z l IH]; cbn [List.map In]; intros Hn Hx Hy E; [destruct Hx|].
  apply NoDup_cons in Hn. destruct Hn as [Hz Hl].
  assert (Hin : forall w, In w l -> Reservation.id w <> Reservation.id z).
  { intros w Hw Ew. apply Hz. apply list_elem_of_In. rewrite <- Ew.
    apply List.in_map, Hw. }
  destruct Hx as [<- | Hx], Hy as [<- | Hy].
  - reflexivity.
  - destruct (Hin y Hy (eq_sym E)).
  - destruct (Hin x Hx E).
  - apply IH; assumption.
Qed.

Lemma step_ids_fresh (st st' : Store) (out : Outcome) :
  Step st st' out -> ids_fresh st -> ids_fresh st'.
Proof.
  intros S [Hn Hb]. destruct S as [out _ | res _ | r Hid | r a d _ | r _].
  - split; assumption.
  - split; assumption.
  - split; cbn [inserted reservations nextReservationId].
    + rewrite List.map_app. cbn [List.map]. apply NoDup_app. split; [exact Hn|].
      split; [|apply NoDup_singleton].
      intros i Hi Hr. apply list_elem_of_In in Hi. apply list_elem_of_In in Hr.
      destruct Hr as [<- | []].
      apply List.in_map_iff in Hi. destruct Hi as (y & E & Hy).
      rewrite List.Forall_forall in Hb. specialize (Hb y Hy). lia.
    + apply List.Forall_app. split.
      * eapply List.Forall_impl; [|exact Hb]. intros y Hy. cbn beta in Hy. lia.
      * constructor; [lia | constructor].
  - split; cbn [retimed reservations nextReservationId].
    + rewrite retimed_ids. exact Hn.
    + apply List.Forall_forall. intros y Hy.
      apply List.in_map_iff in Hy. destruct Hy as (x & <- & Hx).
      rewrite List.Forall_forall in Hb. specialize (Hb x Hx).
      destruct (Reservation.id x =? Reservation.id r); exact Hb.
  - split; cbn [Reservation_destroy reservations nextReservationId].
    + apply NoDup_map_filter, Hn.
    + apply List.Forall_forall. intros y Hy. apply List.filter_In in Hy.
      rewrite List.Forall_forall in Hb. apply Hb, Hy.
Qed.

(** A row that overlaps no stored row of its property can be appended. *)
Lemma inserted_no_double_booking (r : Reservation.t) (st : Store) :
  (forall x, In x (reservations st) ->
             Reservation.PropertyId x = Reservation.PropertyId r ->
             ~ overlaps (Reservation.arrivalTime r) (Reservation.departureTime r) x) ->
  no_double_booking st -> no_double_booking (inserted r st).
Proof.
  intros Hno Hn x y Hx Hy Hne Hp. cbn [inserted reservations] in Hx, Hy.
  apply List.in_app_iff in Hx. apply List.in_app_iff in Hy.
  destruct Hx as [Hx | [<- | []]], Hy as [Hy | [<- | []]].
  - apply Hn; assumption.
  - intros [H1 H2]. apply (Hno x Hx Hp). unfold overlaps. lia.
  - intros [H1 H2]. apply (Hno y Hy (eq_sym Hp)). unfold overlaps. lia.
  - contradiction.
Qed.

(** A stored row can take a range that no other row of its property
    overlaps. *)
Lemma retimed_no_double_booking (r : Reservation.t) (a d : Z) (st : Store) :
  ids_fresh st -> In r (reservations st) ->
  (forall x, In x (reservations st) -> Reservation.id x <> Reservation.id r ->
             Reservation.PropertyId x = Reservation.PropertyId r -> ~ overlaps a d x) ->
  no_double_booking st -> no_double_booking (retimed (Reservation.id r) a d st).
Proof.
  intros Hf Hr Hno Hn x' y' Hx Hy Hne Hp. cbn [retimed reservations] in Hx, Hy.
  apply List.in_map_iff in Hx. destruct Hx as (x & <- & Hx).
  apply List.in_map_iff in Hy. destruct Hy as (y & <- & Hy).
  destruct (Z.eqb_spec (Reservation.id x) (Reservation.id r)) as [Ex|Ex];
    destruct (Z.eqb_spec (Reservation.id y) (Reservation.id r)) as [Ey|Ey];
    cbn [set_times Reservation.id Reservation.PropertyId Reservation.arrivalTime
         Reservation.departureTime] in *.
  - congruence.
  - assert (x = r) as -> by (apply (same_id_same_row st); assumption).
    intros [H1 H2]. apply (Hno y Hy Ey (eq_sym Hp)). unfold overlaps. lia.
  - assert (y = r) as -> by (apply (same_id_same_row st); assumption).
    intros [H1 H2]. apply (Hno x Hx Ex Hp). unfold overlaps. lia.
  - apply Hn; assumption.
Qed.

Lemma destroy_no_double_booking (r : Reservation.t) (st : Store) :
  no_double_booking st -> no_double_booking (Reservation_destroy r st).
Proof.
  intros Hn x y Hx Hy. cbn [Reservation_destroy reservations] in Hx, Hy.
  apply List.filter_In in Hx. apply List.filter_In in Hy.
  apply Hn; tauto.
Qed.

(** The overlap query reads what is written, for dates read alike. *)
Lemma read_alike_stay (b : gmap string JsValue) (a d : Z) :
  dates_read_alike b -> stay_written b a d -> stay_of b a d.
Proof.
  intros [Ha Hd] [Wa Wd]. split; [exact (Ha a Wa) | exact (Hd d Wd)].
Qed.

(** One call of a reservation route whose body is read alike keeps the
    table free of double bookings. *)
Lemma route_no_double_booking (h : Handler) (req : Request) (st : Store) :
  In h reservation_routes ->
  body_read_alike (body req) ->
  ids_fresh st -> no_double_booking st -> no_double_booking (fst (h req st)).
Proof.
  intros Hh [Hkey Hal] Hf Hn. unfold reservation_routes in Hh. cbn [In] in Hh.
  destruct Hh as [<- | [<- | [<- | [<- | [<- | []]]]]].
  - unfold POST_reservations.
    destruct (write_route_cases post_reservations req st)
      as [(res & -> & N) | (c & _ & _ & ->)]; [exact Hn|].
    destruct (post_reservations (set_user c req) st) as [st' out] eqn:E.
    destruct (post_reservations_step _ _ _ _ E)
      as [[-> _] | (c' & r & _ & _ & -> & _ & _ & _ & Hp & Hw & Hno & _)];
      cbn [fst]; [exact Hn|].
    cbn [body set_user] in Hp, Hw, Hno.
    destruct (read_alike_stay _ _ _ Hal Hw) as [Ha Hd].
    apply inserted_no_double_booking; [|exact Hn].
    exact (post_check_reads _ _ _ _ _ _ _ (Hkey _ Hp) Ha Hd Hno).
  - unfold GET_reservations.
    destruct (read_route_cases get_reservations req st)
      as [(res & -> & N) | (c & _ & ->)]; [exact Hn|].
    rewrite (get_reservations_filter (set_user c req) st c eq_refl). exact Hn.
  - unfold GET_reservations_id.
    destruct (read_route_cases get_reservation req st)
      as [(res & -> & N) | (c & _ & ->)]; [exact Hn|].
    unfold get_reservation. destruct (Reservation_findByPk _ _); exact Hn.
  - unfold PUT_reservations_id.
    destruct (write_route_cases put_reservation req st)
      as [(res & -> & N) | (c & _ & _ & ->)]; [exact Hn|].
    destruct (put_reservation (set_user c req) st) as [st' out] eqn:E.
    destruct (put_reservation_step _ _ _ _ E)
      as [[-> _] | (r & a & d & Hfd & Hw & _ & -> & _ & Hno & _)];
      cbn [fst]; [exact Hn|].
    cbn [body set_user] in Hw, Hno.
    destruct (read_alike_stay _ _ _ Hal Hw) as [Ha Hd].
    apply retimed_no_double_booking; [exact Hf | apply (findByPk_Some _ _ _ Hfd) | | exact Hn].
    exact (put_check_reads r _ _ a d _ Ha Hd Hno).
  - unfold DELETE_reservations_id.
    destruct (read_route_cases delete_reservation req st)
      as [(res & -> & N) | (c & _ & ->)]; [exact Hn|].
    pose proof (delete_reservation_step (set_user c req) st) as E.
    destruct (Reservation_findByPk _ _) as [r|] eqn:Ef; rewrite E; cbn [fst].
    + apply destroy_no_double_booking, Hn.
    + exact Hn.
Qed.

Lemma step_frame (st st' : Store) (out : Outcome) :
  Step st st' out -> users st' = users st /\ properties st' = properties st.
Proof. intros S. destruct S; split; reflexivity. Qed.

(** X1. Served one after the other, in any number and order, requests to
    the five reservation routes keep the primary keys of the Reservations
    table pairwise different and below the AUTO_INCREMENT counter. *)
Theorem serial_requests_keep_ids_fresh (calls : list (Handler * Request)) (st : Store) :
  Forall (fun call => In (fst call) reservation_routes) calls ->
  ids_fresh st ->
  ids_fresh (serve calls st).
Proof.
  revert st. induction calls as [|[h req] calls IH]; intros st Hc Hf; [exact Hf|].
  apply List.Forall_cons_iff in Hc. destruct Hc as [Hh Hc]. cbn [serve].
  apply IH; [exact Hc|].
  exact (step_ids_fresh _ _ _ (routes_step h req st Hh) Hf).
Qed.

(** X2. Served one after the other, requests to the five reservation routes
    whose bodies are read alike (whatever property and instants the ORM
    writes for the key and the dates of the body, the overlap query reads
    as the same property and instants) never leave two reservations of one
    property that overlap: when no two stored rows of a property overlap
    before, none do after. *)
Theorem serial_requests_never_double_book (calls : list (Handler * Request))
    (st : Store) :
  Forall (fun call => In (fst call) reservation_routes) calls ->
  Forall (fun call => body_read_alike (body (snd call))) calls ->
  ids_fresh st -> no_double_booking st ->
  no_double_booking (serve calls st).
Proof.
  revert st. induction calls as [|[h req] calls IH]; intros st Hc Ha Hf Hn; [exact Hn|].
  apply List.Forall_cons_iff in Hc. destruct Hc as [Hh Hc].
  apply List.Forall_cons_iff in Ha. destruct Ha as [Hal Ha]. cbn [serve].
  cbn [fst snd] in Hh, Hal.
  apply IH; [exact Hc | exact Ha
            | exact (step_ids_fresh _ _ _ (routes_step h req st Hh) Hf)
            | exact (route_no_double_booking h req st Hh Hal Hf Hn)].
Qed.

(** X3. A request to a reservation route that is answered with a status
    other than 200 and 201, or whose handler throws, leaves the store as it
    was; the two GET routes leave it as it was in every case; and no
    reservation route ever changes the Users or the Properties table. *)
Theorem refused_requests_write_nothing (h : Handler) (req : Request)
    (st st' : Store) (out : Outcome) :
  In h reservation_routes ->
  h req st = (st', out) ->
  ((out = Thrown
    \/ exists res, out = Sent res /\ status res <> 200 /\ status res <> 201) ->
   st' = st)
  /\ (h = GET_reservations \/ h = GET_reservations_id -> st' = st)
  /\ users st' = users st
  /\ properties st' = properties st.
Proof.
  intros Hh E. pose proof (routes_step h req st Hh) as S. rewrite E in S.
  cbn [fst snd] in S. split; [|split; [|apply (step_frame _ _ _ S)]].
  - intros Hout. inversion S as [o _ | res _ | r _ | r a d _ | r _]; subst;
      try reflexivity; exfalso;
      destruct Hout as [Hout | (res & Hout & N0 & N1)]; try discriminate;
      injection Hout as <-; cbn [status] in *; congruence.
  - intros [-> | ->].
    + unfold GET_reservations in E.
      destruct (read_route_cases get_reservations req st)
        as [(res & E' & _) | (c & _ & E')]; rewrite E' in E.
      * injection E as <- _. reflexivity.
      * rewrite (get_reservations_filter (set_user c req) st c eq_refl) in E.
        injection E as <- _. reflexivity.
    + unfold GET_reservations_id in E.
      destruct (read_route_cases get_reservation req st)
        as [(res & E' & _) | (c & _ & E')]; rewrite E' in E.
      * injection E as <- _. reflexivity.
      * unfold get_reservation in E.
        destruct (Reservation_findByPk _ _); injection E as <- _; reflexivity.
Qed.

End ReservationInvariants.

Section ReservationLifecycle.
Context {P : Platform}.

(** What a 201 of POST /reservations tells. *)
Lemma POST_created_inv (req : Request) (st st1 : Store) (res : Response) :
  POST_reservations req st = (st1, Sent res) ->
  status res = 201 ->
  exists c r,
    bearer req c /\ dates_validated (body req) /\ range_accepted (body req)
    /\ res = {| status := 201; payload := reservation r |}
    /\ st1 = inserted r st
    /\ Reservation.id r = nextReservationId st
    /\ Reservation.UserId r = userId c
    /\ property_written (body req) (Reservation.PropertyId r)
    /\ stay_written (body req) (Reservation.arrivalTime r) (Reservation.departureTime r).
Proof.
  intros E Hs. unfold POST_reservations in E.
  destruct (write_route_cases post_reservations req st)
    as [(res' & E' & N0 & N1) | (c & Hb & Hv & E')]; rewrite E' in E.
  - injection E as _ <-. contradiction.
  - destruct (post_reservations_step _ _ _ _ E)
      as [[_ [Ho | (res' & Ho & N0 & N1)]]
         | (c' & r & Hu & Ho & Hst & Hid & Hown & Hr & Hp & Hw & _)].
    + discriminate.
    + injection Ho as <-. contradiction.
    + cbn [user set_user] in Hu. injection Hu as <-. injection Ho as ->.
      exists c, r. cbn [body set_user] in Hr, Hp, Hw.
      repeat (split; [assumption || reflexivity|]). exact Hw.
Qed.

Lemma findByPk_inserted (r : Reservation.t) (st : Store) :
  ids_fresh st ->
  Reservation.id r = nextReservationId st ->
  Reservation_findByPk (Reservation.id r) (inserted r st) = Some r.
Proof.
  intros [_ Hb] Hid. unfold Reservation_findByPk. cbn [inserted reservations].
  rewrite List.Forall_forall in Hb.
  induction (reservations st) as [|x l IH]; cbn [List.find app].
  - rewrite Z.eqb_refl. reflexivity.
  - assert (Hx : (Reservation.id x =? Reservation.id r) = false).
    { apply Z.eqb_neq. specialize (Hb x (or_introl eq_refl)). lia. }
    rewrite Hx. apply IH. intros y Hy. apply Hb. right. exact Hy.
Qed.

(** X4. Create, then read. On a store whose primary keys are below the
    counter, the reservation a 201 of POST /reservations carries is the one
    GET /reservations/:id returns for its [id] afterwards, to any caller
    whose token verifies. *)
Theorem created_reservation_is_found (req req2 : Request) (st st1 : Store)
    (res : Response) (c2 : Claims) :
  ids_fresh st ->
  POST_reservations req st = (st1, Sent res) ->
  status res = 201 ->
  bearer req2 c2 ->
  exists r,
    payload res = reservation r
    /\ (params_id req2 = Reservation.id r ->
        GET_reservations_id req2 st1 =
          (st1, Sent {| status := 200; payload := reservation r |})).
Proof.
  intros Hf E Hs Hb2.
  destruct (POST_created_inv req st st1 res E Hs)
    as (c & r & _ & _ & _ & -> & -> & Hid & _).
  exists r. split; [reflexivity|]. intros Hi.
  unfold GET_reservations_id. rewrite (route_authenticates _ req2 _ c2 Hb2).
  unfold get_reservation. cbn [params_id set_user]. rewrite Hi.
  rewrite (findByPk_inserted r st Hf Hid). reflexivity.
Qed.

Lemma GET_reservations_eval (req : Request) (st : Store) (c : Claims) :
  bearer req c ->
  GET_reservations req st =
    (st, Sent {| status := 200;
                 payload := reservation_list
                   (List.filter (fun r => Reservation.UserId r =? userId c)
                                (reservations st)) |}).
Proof.
  intros Hb. unfold GET_reservations. rewrite (route_authenticates _ req st c Hb).
  apply get_reservations_filter. reflexivity.
Qed.

(** X5. Create, then list. After a 201 of POST /reservations for the caller
    [c], GET /reservations of a caller [c2] lists what it listed before,
    followed by the new reservation when [c2] is the creator and by nothing
    otherwise. *)
Theorem created_reservation_is_listed (req req2 : Request) (st st1 : Store)
    (res : Response) (c c2 : Claims) :
  bearer req c ->
  POST_reservations req st = (st1, Sent res) ->
  status res = 201 ->
  bearer req2 c2 ->
  exists r,
    payload res = reservation r
    /\ sent_reservations (GET_reservations req2 st1)
       = sent_reservations (GET_reservations req2 st)
         ++ (if userId c2 =? userId c then [r] else []).
Proof.
  intros Hb E Hs Hb2.
  destruct (POST_created_inv req st st1 res E Hs)
    as (c' & r & Hb' & _ & _ & -> & -> & _ & Hu & _).
  assert (c' = c) as -> by (eapply bearer_unique; eassumption).
  exists r. split; [reflexivity|].
  rewrite !(GET_reservations_eval req2 _ c2 Hb2).
  unfold sent_reservations. cbn [snd payload inserted reservations].
  rewrite List.filter_app. cbn [List.filter]. rewrite Hu.
  rewrite (Z.eqb_sym (userId c) (userId c2)).
  destruct (userId c2 =? userId c); reflexivity.
Qed.

(** The answer of POST /reservations when the overlap query reads the stay
    and selects a row. *)
Lemma POST_reservations_conflict (req : Request) (st : Store) (c : Claims)
    (p a d : Z) :
  bearer req c -> dates_validated (body req) -> range_accepted (body req) ->
  bind_value col_PropertyId (body req !! "propertyId") = Some (SqlNum p) ->
  stay_of (body req) a d ->
  existsb (fun x => (Reservation.PropertyId x =? p) && overlapsb a d x)
          (reservations st) = true ->
  POST_reservations req st = (st, Sent BookingConflict).
Proof.
  intros Hb Hv Hr Hp Hs He. unfold POST_reservations.
  rewrite (route_admits _ req st c Hb Hv).
  rewrite (post_reservations_eval (set_user c req) st c p a d eq_refl Hr Hp Hs).
  rewrite He. reflexivity.
Qed.

(** X6. After a 201 of POST /reservations with the row [r], an accepted
    request that the overlap query reads as a stay on the property of [r]
    which starts before the departure of [r] and ends after its arrival is
    answered with the booking conflict and writes nothing. In particular
    the request that created [r], sent again, is refused when its key and
    its dates are read alike and the arrival of [r] is before its
    departure. *)
Theorem overlap_with_created_is_refused (req req2 : Request) (st st1 : Store)
    (res : Response) (r : Reservation.t) (c2 : Claims) (a2 d2 : Z) :
  POST_reservations req st = (st1, Sent res) ->
  status res = 201 ->
  payload res = reservation r ->
  (bearer req2 c2 -> dates_validated (body req2) -> range_accepted (body req2) ->
   bind_value col_PropertyId (body req2 !! "propertyId")
   = Some (SqlNum (Reservation.PropertyId r)) ->
   stay_of (body req2) a2 d2 ->
   Reservation.arrivalTime r < d2 -> Reservation.departureTime r > a2 ->
   POST_reservations req2 st1 = (st1, Sent BookingConflict))
  /\ (body_read_alike (body req) ->
      Reservation.arrivalTime r < Reservation.departureTime r ->
      POST_reservations req st1 = (st1, Sent BookingConflict)).
Proof.
  intros E Hs Hp.
  destruct (POST_created_inv req st st1 res E Hs)
    as (c & r' & Hb & Hv & Hr & -> & -> & _ & _ & Hbp & Hw).
  cbn [payload] in Hp. injection Hp as ->.
  assert (Hgen : forall rq cq aq dq,
            bearer rq cq -> dates_validated (body rq) -> range_accepted (body rq) ->
            bind_value col_PropertyId (body rq !! "propertyId")
            = Some (SqlNum (Reservation.PropertyId r)) ->
            stay_of (body rq) aq dq ->
            Reservation.arrivalTime r < dq -> Reservation.departureTime r > aq ->
            POST_reservations rq (inserted r st) = (inserted r st, Sent BookingConflict)).
  { intros rq cq aq dq Hbq Hvq Hrq Hpq Hsq H1 H2.
    apply (POST_reservations_conflict rq _ cq _ aq dq Hbq Hvq Hrq Hpq Hsq).
    cbn [inserted reservations]. rewrite existsb_app. cbn [existsb].
    rewrite Z.eqb_refl.
    replace (overlapsb aq dq r) with true
      by (symmetry; apply overlapsb_spec; split; assumption).
    cbn [andb orb]. apply orb_true_r. }
  split.
  - apply Hgen.
  - intros [Hkey Hal] Hlt.
    apply (Hgen req c _ _ Hb Hv Hr (Hkey _ Hbp) (read_alike_stay _ _ _ Hal Hw)); lia.
Qed.

Lemma findByPk_destroyed (r : Reservation.t) (st : Store) :
  Reservation_findByPk (Reservation.id r) (Reservation_destroy r st) = None.
Proof.
  apply findByPk_None. intros x Hx. cbn [Reservation_destroy reservations] in Hx.
  apply List.filter_In in Hx. destruct Hx as [_ Hx].
  apply negb_true_iff, Z.eqb_neq in Hx. exact Hx.
Qed.

(** X7. Delete, then read. For a caller whose token verifies and an [:id]
    that names the stored reservation [r], DELETE /reservations/:id answers
    200 and the table afterwards holds exactly the rows with another [id],
    in their order; GET and a second DELETE of the same [:id] are then
    answered 404 and change nothing. *)
Theorem deleted_reservation_is_gone (req : Request) (st : Store) (c : Claims)
    (r : Reservation.t) :
  bearer req c ->
  Reservation_findByPk (params_id req) st = Some r ->
  exists st',
    DELETE_reservations_id req st =
      (st', Sent {| status := 200;
                    payload := message "Reservation deleted successfully." |})
    /\ reservations st'
       = List.filter (fun x => negb (Reservation.id x =? params_id req))
                     (reservations st)
    /\ nextReservationId st' = nextReservationId st
    /\ GET_reservations_id req st' = (st', Sent ReservationNotFound)
    /\ DELETE_reservations_id req st' = (st', Sent ReservationNotFound).
Proof.
  intros Hb Hf. exists (Reservation_destroy r st).
  destruct (findByPk_Some _ _ _ Hf) as [_ Hid].
  unfold DELETE_reservations_id, GET_reservations_id.
  rewrite !(route_authenticates _ req _ c Hb).
  unfold delete_reservation, get_reservation. cbn [params_id set_user].
  rewrite Hf. rewrite <- Hid. rewrite findByPk_destroyed.
  repeat split.
Qed.

(** X8. Deleting frees the dates. For an accepted POST /reservations
    request that the overlap query reads as the stay from [a] to [d] on
    the property [p] and that the ORM would write from [a'] to [d'] on the
    same property: when
    every stored reservation of the property that overlaps the range from
    [a] to [d] has the [id] that a DELETE /reservations/:id removes, the
    request on the store after the deletion is answered 201 with the row
    from [a'] to [d'], provided the property and the caller are stored. *)
Theorem deletion_frees_the_dates (del req : Request) (st : Store) (c0 c : Claims)
    (r : Reservation.t) (p a d a' d' : Z) :
  bearer del c0 ->
  Reservation_findByPk (params_id del) st = Some r ->
  bearer req c -> dates_validated (body req) -> range_accepted (body req) ->
  bind_value col_PropertyId (body req !! "propertyId") = Some (SqlNum p) ->
  stay_of (body req) a d ->
  property_written (body req) p ->
  stay_written (body req) a' d' ->
  (forall x, In x (reservations st) -> Reservation.PropertyId x = p ->
             overlaps a d x -> Reservation.id x = Reservation.id r) ->
  (exists y, In y (properties st) /\ Property.id y = p) ->
  (exists u, In u (users st) /\ User.id u = userId c) ->
  exists new,
    POST_reservations req (fst (DELETE_reservations_id del st))
    = (inserted new (fst (DELETE_reservations_id del st)),
       Sent {| status := 201; payload := reservation new |})
    /\ new = Reservation.mk (nextReservationId st) a' d' (userId c) p.
Proof.
  intros Hb0 Hf Hb Hv Hr Hp Hs Hk Hw Honly Hprop Huser.
  unfold DELETE_reservations_id. rewrite (route_authenticates _ del _ c0 Hb0).
  unfold delete_reservation. cbn [params_id set_user]. rewrite Hf. cbn [fst].
  rewrite (POST_reservations_eval req _ c p a d p a' d' Hb Hv Hr Hp Hs Hk Hw).
  cbn [Reservation_destroy reservations properties users nextReservationId].
  rewrite (no_conflict p a d).
  2:{ intros x Hx Hpx Ho. apply List.filter_In in Hx. destruct Hx as [Hx Hne].
      apply negb_true_iff, Z.eqb_neq in Hne. apply Hne.
      exact (Honly x Hx Hpx Ho). }
  replace (existsb (fun x => Property.id x =? p) (properties st)) with true
    by (symmetry; apply existsb_id; exact Hprop).
  replace (existsb (fun x => User.id x =? userId c) (users st)) with true
    by (symmetry; apply existsb_id; exact Huser).
  eexists. split; reflexivity.
Qed.

Lemma findByPk_retimed (i a d : Z) (st : Store) (r : Reservation.t) :
  Reservation_findByPk i st = Some r ->
  Reservation_findByPk i (retimed i a d st) = Some (set_times a d r).
Proof.
  unfold Reservation_findByPk. cbn [retimed reservations].
  induction (reservations st) as [|x l IH]; cbn [List.find List.map]; [discriminate|].
  destruct (Reservation.id x =? i) eqn:E.
  - intros H. injection H as <-. cbn [set_times Reservation.id]. rewrite E.
    reflexivity.
  - rewrite E. exact IH.
Qed.

Lemma PUT_updated_inv (req : Request) (st st' : Store) (res : Response) :
  PUT_reservations_id req st = (st', Sent res) ->
  status res = 200 ->
  exists c r a d,
    bearer req c /\ dates_validated (body req) /\ range_accepted (body req)
    /\ stay_written (body req) a d
    /\ Reservation_findByPk (params_id req) st = Some r
    /\ res = {| status := 200; payload := reservation (set_times a d r) |}
    /\ st' = retimed (Reservation.id r) a d st
    /\ where_binds
         [ (col_PropertyId, Op_eq, Some (JNum (Reservation.PropertyId r)));
           (col_arrivalTime, Op_lt, body req !! "departureTime");
           (col_departureTime, Op_gt, body req !! "arrivalTime");
           (col_id, Op_ne, Some (JNum (Reservation.id r))) ] = true
    /\ existsb (where_test
                  [ (col_PropertyId, Op_eq, Some (JNum (Reservation.PropertyId r)));
                    (col_arrivalTime, Op_lt, body req !! "departureTime");
                    (col_departureTime, Op_gt, body req !! "arrivalTime");
                    (col_id, Op_ne, Some (JNum (Reservation.id r))) ])
               (reservations st) = false.
Proof.
  intros E Hs. unfold PUT_reservations_id in E.
  destruct (write_route_cases put_reservation req st)
    as [(res' & E' & N0 & N1) | (c & Hb & Hv & E')]; rewrite E' in E.
  - injection E as _ <-. contradiction.
  - destruct (put_reservation_step _ _ _ _ E)
      as [[_ [Ho | (res' & Ho & N0 & N1)]]
         | (r & a & d & Hf & Hw & Ho & Hst & Hbinds & Hno & Hr)].
    + discriminate.
    + injection Ho as <-. contradiction.
    + injection Ho as ->. exists c, r, a, d.
      cbn [params_id body set_user] in *.
      repeat (split; [assumption || reflexivity|]). exact Hno.
Qed.

(** X9. Update, then read. After a 200 of PUT /reservations/:id, GET
    /reservations/:id with the same [:id] is answered with the same
    response, the updated reservation, to any caller whose token
    verifies. *)
Theorem updated_reservation_is_found (req req2 : Request) (st st' : Store)
    (res : Response) (c2 : Claims) :
  PUT_reservations_id req st = (st', Sent res) ->
  status res = 200 ->
  bearer req2 c2 ->
  params_id req2 = params_id req ->
  GET_reservations_id req2 st' = (st', Sent res).
Proof.
  intros E Hs Hb2 Hi.
  destruct (PUT_updated_inv req st st' res E Hs)
    as (c & r & a & d & _ & _ & _ & _ & Hf & -> & -> & _).
  unfold GET_reservations_id. rewrite (route_authenticates _ req2 _ c2 Hb2).
  unfold get_reservation. cbn [params_id set_user]. rewrite Hi.
  destruct (findByPk_Some _ _ _ Hf) as [_ Hid]. rewrite Hid.
  rewrite (findByPk_retimed _ a d st r Hf). reflexivity.
Qed.

Lemma retimed_twice (i a d : Z) (st : Store) :
  retimed i a d (retimed i a d st) = retimed i a d st.
Proof.
  unfold retimed. cbn [users properties reservations nextReservationId].
  f_equal. rewrite List.map_map. apply List.map_ext. intros x.
  destruct (Reservation.id x =? i) eqn:E; cbn [set_times Reservation.id]; rewrite E;
    reflexivity.
Qed.

(** The overlap query of an update never selects the row it updates. *)
Lemma put_where_test_self (r : Reservation.t) (va vd : option JsValue)
    (x : Reservation.t) :
  Reservation.id x = Reservation.id r ->
  where_test [ (col_PropertyId, Op_eq, Some (JNum (Reservation.PropertyId r)));
               (col_arrivalTime, Op_lt, vd);
               (col_departureTime, Op_gt, va);
               (col_id, Op_ne, Some (JNum (Reservation.id r))) ] x = false.
Proof.
  intros E. unfold where_test. cbn [where_holds].
  rewrite (bind_JNum col_PropertyId), (bind_JNum col_id) by auto.
  destruct (bind_value col_arrivalTime vd); [|reflexivity].
  destruct (bind_value col_departureTime va); [|reflexivity].
  cbn [compare_bound compare_op column_value]. rewrite E, Z.eqb_refl.
  cbn [negb andb]. rewrite !andb_false_r. reflexivity.
Qed.

(** The overlap query of the update of [r] on the table the update left:
    the rows with the key of [r] are still not selected, whatever their
    new times, and the other rows are tested as they were. *)
Lemma put_where_test_other (r : Reservation.t) (va vd : option JsValue) (a d : Z)
    (x : Reservation.t) :
  where_test [ (col_PropertyId, Op_eq, Some (JNum (Reservation.PropertyId r)));
               (col_arrivalTime, Op_lt, vd);
               (col_departureTime, Op_gt, va);
               (col_id, Op_ne, Some (JNum (Reservation.id r))) ]
             (if Reservation.id x =? Reservation.id r then set_times a d x else x)
  = if Reservation.id x =? Reservation.id r then false
    else where_test
           [ (col_PropertyId, Op_eq, Some (JNum (Reservation.PropertyId r)));
             (col_arrivalTime, Op_lt, vd);
             (col_departureTime, Op_gt, va);
             (col_id, Op_ne, Some (JNum (Reservation.id r))) ] x.
Proof.
  destruct (Z.eqb_spec (Reservation.id x) (Reservation.id r)) as [E|E]; [|reflexivity].
  apply put_where_test_self. exact E.
Qed.

(** X10. PUT /reservations/:id is idempotent: a request that was answered
    200, sent again on the store it left, is answered with the same
    response and leaves the store as it is. *)
Theorem update_is_idempotent (req : Request) (st st' : Store) (res : Response) :
  PUT_reservations_id req st = (st', Sent res) ->
  status res = 200 ->
  PUT_reservations_id req st' = (st', Sent res).
Proof.
  intros E Hs.
  destruct (PUT_updated_inv req st st' res E Hs)
    as (c & r & a & d & Hb & Hv & Hr & [Ha Hd] & Hf & -> & -> & Hbinds & Hno).
  unfold PUT_reservations_id. rewrite (route_admits _ req _ c Hb Hv).
  destruct (findByPk_Some _ _ _ Hf) as [_ Hid].
  assert (Hf' : Reservation_findByPk (params_id (set_user c req))
                  (retimed (Reservation.id r) a d st) = Some (set_times a d r)).
  { cbn [params_id set_user]. rewrite <- Hid at 1. rewrite Hid.
    rewrite <- Hid. apply findByPk_retimed. rewrite Hid. exact Hf. }
  unfold put_reservation. rewrite Hf'. cbn [body set_user].
  unfold range_accepted in Hr. rewrite Hr.
  unfold Reservation_findAll.
  cbn [set_times Reservation.id Reservation.PropertyId]. rewrite Hbinds.
  rewrite length_filter_pos.
  replace (existsb _ (reservations (retimed (Reservation.id r) a d st))) with false.
  - rewrite (Reservation_update_eval _ _ _ a d _ Ha Hd).
    cbn [set_times Reservation.id Reservation.PropertyId Reservation.UserId].
    rewrite retimed_twice. reflexivity.
  - symmetry. apply existsb_false_iff. intros x' Hx.
    cbn [retimed reservations] in Hx. apply List.in_map_iff in Hx.
    destruct Hx as (x & <- & Hx).
    rewrite put_where_test_other.
    destruct (Reservation.id x =? Reservation.id r); [reflexivity|].
    exact (proj1 (existsb_false_iff _ _) Hno x Hx).
Qed.

End ReservationLifecycle.

Section GateAndValidation.
Context {P : Platform}.

(** X11. The success path of the gate. On a route whose first middleware is
    [authenticateJWT], a header made of "Bearer " and a token that verifies
    hands the request on with [req.user] set to the decoded payload: the
    token is everything after the first "Bearer ", also when it contains
    "Bearer " again, and header, parameters, query and body are passed on
    as they came. *)
Theorem bearer_route_admits (rest : list Middleware) (h : Handler)
    (req : Request) (st : Store) (token : string) (c : Claims) :
  authorization req = Some ("Bearer " +:+ token) ->
  jwt_verify token = Some c ->
  exists req',
    route (authenticateJWT :: rest) h req st = route rest h req' st
    /\ user req' = Some c
    /\ authorization req' = authorization req
    /\ params_id req' = params_id req
    /\ query req' = query req
    /\ body req' = body req.
Proof.
  intros Hh Hv. exists (set_user c req). split; [|repeat split].
  cbn [route]. rewrite (authenticateJWT_bearer req token Hh), Hv. reflexivity.
Qed.

(** A value that is no array is handed to a validator once, as a string. *)
Lemma field_passes_plain (ok : string -> bool) (v : option JsValue) :
  (forall items, v <> Some (JArr items)) ->
  (field_passes ok v <-> ok (field_text v) = true).
Proof.
  intros Hv. destruct v as [[| | | |items|]|]; try reflexivity.
  destruct (Hv items eq_refl).
Qed.

(** X12. Validation comes before the handler and reports every failure.
    On POST /reservations and PUT /reservations/:id (any handler behind the
    two middleware), a request whose token verifies and one of whose dates
    has a value that is not ISO 8601 (the value of the field, or an
    element of it when it is an array) is answered 400 with a list of
    errors that is not empty, names [arrivalTime] exactly when it is
    invalid and [departureTime] exactly when it is invalid, and names
    nothing else. The handler does not run: the answer is the same whether
    [:id] names a reservation or not, and the store is unchanged. *)
Theorem invalid_dates_are_all_reported (h : Handler) (req : Request) (st : Store)
    (c : Claims) :
  bearer req c ->
  ~ dates_validated (body req) ->
  exists l,
    route [authenticateJWT; validateReservation] h req st
    = (st, Sent {| status := 400; payload := errors l |})
    /\ l <> []
    /\ (In {| path := "arrivalTime"; msg := "Must be a valid date" |} l
        <-> ~ field_passes isISO8601 (body req !! "arrivalTime"))
    /\ (In {| path := "departureTime"; msg := "Must be a valid date" |} l
        <-> ~ field_passes isISO8601 (body req !! "departureTime"))
    /\ (forall e, In e l ->
          e = {| path := "arrivalTime"; msg := "Must be a valid date" |}
          \/ e = {| path := "departureTime"; msg := "Must be a valid date" |}).
Proof.
  intros Hb Hn. exists (validateReservation_errors (body req)).
  assert (Hne : validateReservation_errors (body req) <> []).
  { intros E. apply Hn. apply validateReservation_nil, E. }
  split; [|split; [exact Hne|]].
  - cbn [route]. rewrite (authenticateJWT_pass req c Hb).
    unfold validateReservation. cbn [body set_user].
    destruct (validateReservation_errors (body req)); [contradiction | reflexivity].
  - unfold validateReservation_errors. split; [|split].
    + rewrite in_app_iff, !check_field_In. split.
      * intros [[H _] | [_ H]]; [exact H | discriminate].
      * intros H. left. split; [exact H | reflexivity].
    + rewrite in_app_iff, !check_field_In. split.
      * intros [[_ H] | [H _]]; [discriminate | exact H].
      * intros H. right. split; [exact H | reflexivity].
    + intros e. rewrite in_app_iff, !check_field_In. intros [[_ ->] | [_ ->]]; auto.
Qed.

End GateAndValidation.

Section EmailPattern.

Lemma is_email_char_spec (ch : ascii) :
  is_email_char ch = true <-> email_char ch.
Proof.
  unfold is_email_char, email_char.
  rewrite andb_true_iff, !negb_true_iff, Ascii.eqb_neq. reflexivity.
Qed.

Lemma forallb_email_char (l : list ascii) :
  forallb is_email_char l = true <-> Forall email_char l.
Proof.
  rewrite List.forallb_forall, List.Forall_forall.
  split; intros H x Hx; apply is_email_char_spec, H, Hx.
Qed.

Lemma matches_domain_cons (c d : ascii) (rest : list ascii) :
  matches_domain (c :: d :: rest)
  = is_email_char c
    && ((Ascii.eqb d "." && negb (nilb rest) && forallb is_email_char rest)
        || matches_domain (d :: rest)).
Proof. reflexivity. Qed.

Lemma matches_email_cons (c d : ascii) (rest : list ascii) :
  matches_email (c :: d :: rest)
  = is_email_char c
    && ((Ascii.eqb d "@" && matches_domain rest) || matches_email (d :: rest)).
Proof. reflexivity. Qed.

Lemma matches_domain_spec (l : list ascii) :
  matches_domain l = true
  <-> exists B C, l = B ++ "."%char :: C /\ B <> [] /\ C <> []
                  /\ Forall email_char (B ++ C).
Proof.
  split.
  - induction l as [|ch l IH]; [discriminate|].
    destruct l as [|d rest]; [discriminate|].
    cbn [matches_domain]. intros H.
    apply andb_true_iff in H. destruct H as [Hc H].
    apply is_email_char_spec in Hc.
    apply orb_true_iff in H. destruct H as [H | H].
    + apply andb_true_iff in H. destruct H as [H Hall].
      apply andb_true_iff in H. destruct H as [Hd Hne].
      apply Ascii.eqb_eq in Hd. subst d. apply forallb_email_char in Hall.
      exists [ch], rest. split; [reflexivity|]. split; [discriminate|].
      split; [destruct rest; [discriminate Hne | discriminate]|].
      constructor; assumption.
    + destruct (IH H) as (B & C & E & HB & HC & Hall).
      exists (ch :: B), C. split; [cbn; rewrite E; reflexivity|].
      split; [discriminate|]. split; [exact HC|]. constructor; assumption.
  - intros (B & C & -> & HB & HC & Hall).
    induction B as [|ch B IH]; [contradiction|].
    apply List.Forall_cons_iff in Hall. destruct Hall as [Hc Hall].
    apply is_email_char_spec in Hc.
    destruct B as [|b B].
    + cbn [app matches_domain]. rewrite Hc, Ascii.eqb_refl.
      apply forallb_email_char in Hall. cbn [app] in Hall. rewrite Hall.
      destruct C; [contradiction | reflexivity].
    + assert (IH' := IH ltac:(discriminate) Hall). cbn [app] in IH' |- *.
      rewrite matches_domain_cons, Hc, IH'. apply orb_true_r.
Qed.

(** X13. The second e-mail pattern of [validateUser] accepts exactly the
    strings made of a local part, "@", a domain part, "." and a last part,
    the three parts not empty and free of white space and of "@" (the
    domain part and the last part may contain further dots). *)
Theorem email_pattern_meaning (s : string) :
  matches_email (list_ascii_of_string s) = true
  <-> exists A B C,
        list_ascii_of_string s = A ++ "@"%char :: B ++ "."%char :: C
        /\ A <> [] /\ B <> [] /\ C <> []
        /\ Forall email_char (A ++ B ++ C).
Proof.
  generalize (list_ascii_of_string s) as l. clear s. intros l. split.
  - induction l as [|ch l IH]; [discriminate|].
    destruct l as [|d rest]; [discriminate|].
    cbn [matches_email]. intros H.
    apply andb_true_iff in H. destruct H as [Hc H].
    apply is_email_char_spec in Hc.
    apply orb_true_iff in H. destruct H as [H | H].
    + apply andb_true_iff in H. destruct H as [Hd Hdom].
      apply Ascii.eqb_eq in Hd. subst d.
      apply matches_domain_spec in Hdom.
      destruct Hdom as (B & C & -> & HB & HC & Hall).
      exists [ch], B, C. split; [reflexivity|]. split; [discriminate|].
      split; [exact HB|]. split; [exact HC|]. constructor; assumption.
    + destruct (IH H) as (A & B & C & E & HA & HB & HC & Hall).
      exists (ch :: A), B, C. split; [cbn; rewrite E; reflexivity|].
      split; [discriminate|]. split; [exact HB|]. split; [exact HC|].
      constructor; assumption.
  - intros (A & B & C & -> & HA & HB & HC & Hall).
    induction A as [|ch A IH]; [contradiction|].
    apply List.Forall_cons_iff in Hall. destruct Hall as [Hc Hall].
    apply is_email_char_spec in Hc.
    destruct A as [|a A].
    + cbn [app matches_email]. rewrite Hc, Ascii.eqb_refl.
      replace (matches_domain (B ++ "."%char :: C)) with true; [reflexivity|].
      symmetry. apply matches_domain_spec. exists B, C. auto.
    + assert (IH' := IH ltac:(discriminate) Hall). cbn [app] in IH' |- *.
      rewrite matches_email_cons, Hc, IH'. apply orb_true_r.
Qed.

End EmailPattern.

Section Paging.
Context {P : Platform}.

Lemma firstn_plus {A : Type} (n m : nat) (l : list A) :
  firstn (n + m) l = firstn n l ++ firstn m (skipn n l).
Proof.
  revert l. induction n as [|n IH]; intros l; [reflexivity|].
  destruct l as [|x l]; cbn.
  - destruct m; reflexivity.
  - f_equal. apply IH.
Qed.

Lemma firstn_all_of {A : Type} (n : nat) (l : list A) :
  (length l <= n)%nat -> firstn n l = l.
Proof.
  revert l. induction n as [|n IH]; intros [|x l] H; cbn in *; try reflexivity.
  - lia.
  - f_equal. apply IH. lia.
Qed.

Lemma skipn_past_the_end {A : Type} (n : nat) (l : list A) :
  (length l <= n)%nat -> skipn n l = [].
Proof.
  revert l. induction n as [|n IH]; intros [|x l] H; cbn in *; try reflexivity.
  - lia.
  - apply IH. lia.
Qed.

(** The rank is asked only between rows of equal price. *)
Lemma row_before_rank (dir : Direction) (r1 r2 : Property.t -> Z) (x y : Property.t) :
  ~ (Property.price x == Property.price y)%Q ->
  row_before dir r1 x y = row_before dir r2 x y.
Proof.
  intros Hne. unfold row_before.
  destruct (Property.price x ?= Property.price y)%Q eqn:E; try reflexivity.
  apply Qeq_alt in E. contradiction.
Qed.

Lemma insert_by_price_rank (dir : Direction) (r1 r2 : Property.t -> Z)
    (x : Property.t) (l : list Property.t) :
  Forall (fun y => ~ (Property.price x == Property.price y)%Q) l ->
  insert_by_price dir r1 x l = insert_by_price dir r2 x l.
Proof.
  induction 1 as [|y l Hy _ IH]; [reflexivity|].
  cbn [insert_by_price]. rewrite (row_before_rank dir r1 r2 x y Hy), IH.
  reflexivity.
Qed.

(** Rows of pairwise different prices have one order by price. *)
Lemma order_by_price_rank (dir : Direction) (r1 r2 : Property.t -> Z)
    (l : list Property.t) :
  distinct_prices l -> order_by_price dir r1 l = order_by_price dir r2 l.
Proof.
  induction 1 as [|x l Hx _ IH]; [reflexivity|].
  cbn [order_by_price]. rewrite IH. apply insert_by_price_rank.
  apply List.Forall_forall. intros y Hy. apply order_by_price_In in Hy.
  rewrite List.Forall_forall in Hx. exact (Hx y Hy).
Qed.

(** The list GET /properties sends for a page that parses. *)
Lemma get_properties_slice (req : Request) (st : Store) (c : option Z)
    (dir : Direction) (k : Z) :
  (c = None /\ (query req !! "capacity" = None \/ query req !! "capacity" = Some "")
   \/ exists cs n, query req !! "capacity" = Some cs /\ parseInt cs = Some n
                   /\ c = Some n) ->
  (query req !! "sort" = Some "desc" -> dir = desc) ->
  (query req !! "sort" <> Some "desc" -> dir = asc) ->
  match query req !! "offset" with
  | Some o => if truthy o then parseInt o else Some 0
  | None => Some 0
  end = Some k ->
  0 <= k ->
  GET_properties req st =
    (st, Sent {| status := 200;
                 payload := property_list
                   (firstn 6 (skipn (Z.to_nat k * 6)
                      (order_by_price dir (sql_tie_rank dir (k * 6) 6 (listed c st))
                         (listed c st)))) |}).
Proof.
  intros Hc Hd Ha Ho Hk. unfold GET_properties. cbn [route].
  unfold get_properties. rewrite Ho, (sort_direction _ dir Hd Ha).
  assert (E : match query req !! "capacity" with
              | Some cs => if truthy cs then Some (parseInt cs) else None
              | None => None
              end = match c with Some n => Some (Some n) | None => None end).
  { destruct Hc as [[-> [-> | ->]] | (cs & n & -> & Hp & ->)]; try reflexivity.
    rewrite (parseInt_truthy cs n Hp), Hp. reflexivity. }
  rewrite E. unfold Property_findAll, Number_mul.
  cbn [where_capacity offset limit order_price].
  replace (k * 6 <? 0) with false by (symmetry; apply Z.ltb_ge; lia).
  replace (Z.to_nat (k * 6)) with (Z.to_nat k * 6)%nat by lia.
  destruct c as [n|]; reflexivity.
Qed.

Lemma with_offset_page (req : Request) (os : string) (k : Z) :
  parseInt os = Some k ->
  match query (with_offset os req) !! "offset" with
  | Some o => if truthy o then parseInt o else Some 0
  | None => Some 0
  end = Some k.
Proof.
  intros Hp. cbn [query with_offset]. rewrite lookup_insert_eq.
  rewrite (parseInt_truthy os k Hp). exact Hp.
Qed.

Lemma with_offset_other (req : Request) (os key : string) :
  key <> "offset" -> query (with_offset os req) !! key = query req !! key.
Proof.
  intros Hne. cbn [query with_offset]. apply lookup_insert_ne. congruence.
Qed.

(** X14. The pages of GET /properties partition the listing when no two
    listed properties have the same price. For a query without [capacity]
    (or with an empty one), or with a [capacity] that parses to a safe
    integer, and [offsets] a list of strings of which the one at position
    [k] parses to the page [k], the offsets staying safe integers: the
    lists sent for these pages, one after the other, are the first
    [6 * n] properties of the whole listing, which is the permutation of
    the stored properties the filter keeps that is ordered by price; they
    are the whole listing once [6 * n] reaches its length; and a page that
    starts at or after the end of the listing is the empty list, with
    status 200. (With two rows of one price the store may place them
    differently from one page to the next, and nothing of this holds.) *)
Theorem pages_partition_the_listing (req : Request) (st : Store) (c : option Z)
    (dir : Direction) (offsets : list string) :
  (c = None /\ (query req !! "capacity" = None \/ query req !! "capacity" = Some "")
   \/ exists cs n, query req !! "capacity" = Some cs /\ parseInt cs = Some n
                   /\ safe_integer n /\ c = Some n) ->
  (query req !! "sort" = Some "desc" -> dir = desc) ->
  (query req !! "sort" <> Some "desc" -> dir = asc) ->
  distinct_prices (listed c st) ->
  (forall k os, nth_error offsets k = Some os -> parseInt os = Some (Z.of_nat k)) ->
  safe_integer (6 * Z.of_nat (length offsets)) ->
  concat (List.map (fun os => sent_properties (GET_properties (with_offset os req) st))
                   offsets)
  = firstn (6 * length offsets) (order_by_price dir (fun _ => 0) (listed c st))
  /\ Permutation (order_by_price dir (fun _ => 0) (listed c st)) (listed c st)
  /\ StronglySorted (price_le dir) (order_by_price dir (fun _ => 0) (listed c st))
  /\ ((length (listed c st) <= 6 * length offsets)%nat ->
      concat (List.map (fun os => sent_properties (GET_properties (with_offset os req) st))
                       offsets)
      = order_by_price dir (fun _ => 0) (listed c st))
  /\ (forall os k, parseInt os = Some k -> 0 <= k -> safe_integer (6 * k) ->
        (length (listed c st) <= 6 * Z.to_nat k)%nat ->
        GET_properties (with_offset os req) st
        = (st, Sent {| status := 200; payload := property_list [] |})).
Proof.
  intros Hc Hd Ha Hdist Hoff _.
  assert (Hc' : forall os,
            c = None /\ (query (with_offset os req) !! "capacity" = None
                         \/ query (with_offset os req) !! "capacity" = Some "")
            \/ exists cs n, query (with_offset os req) !! "capacity" = Some cs
                            /\ parseInt cs = Some n /\ c = Some n).
  { intros os. rewrite with_offset_other by discriminate.
    destruct Hc as [Hc | (cs & n & H1 & H2 & _ & H3)]; [left; exact Hc|].
    right. exists cs, n. auto. }
  assert (Hpage : forall os k, parseInt os = Some k -> 0 <= k ->
            GET_properties (with_offset os req) st
            = (st, Sent {| status := 200;
                           payload := property_list
                             (firstn 6 (skipn (Z.to_nat k * 6)
                                (order_by_price dir (fun _ => 0) (listed c st)))) |})).
  { intros os k Hp Hk.
    rewrite (order_by_price_rank dir (fun _ => 0)
               (sql_tie_rank dir (k * 6) 6 (listed c st)) _ Hdist).
    apply get_properties_slice; try assumption.
    - apply Hc'.
    - rewrite with_offset_other by discriminate. exact Hd.
    - rewrite with_offset_other by discriminate. exact Ha.
    - apply with_offset_page, Hp. }
  assert (Hcat :
    concat (List.map (fun os => sent_properties (GET_properties (with_offset os req) st))
                     offsets)
    = firstn (6 * length offsets) (order_by_price dir (fun _ => 0) (listed c st))).
  { revert Hoff. induction offsets as [|o offs IH] using rev_ind; intros Hoff.
    - reflexivity.
    - rewrite List.map_app, List.concat_app, IH.
      2:{ intros k os Hk. apply Hoff. rewrite List.nth_error_app1; [exact Hk|].
          apply List.nth_error_Some. rewrite Hk. discriminate. }
      cbn [List.map concat]. rewrite List.app_nil_r.
      assert (Ho : parseInt o = Some (Z.of_nat (length offs))).
      { apply Hoff. rewrite List.nth_error_app2 by lia.
        rewrite Nat.sub_diag. reflexivity. }
      rewrite (Hpage o _ Ho) by lia. unfold sent_properties. cbn [snd payload].
      rewrite Nat2Z.id, List.length_app. cbn [length].
      replace (6 * (length offs + 1))%nat with (6 * length offs + 6)%nat by lia.
      rewrite firstn_plus. rewrite (Nat.mul_comm (length offs) 6). reflexivity. }
  split; [exact Hcat|]. split; [apply order_by_price_perm|].
  split; [apply order_by_price_sorted|]. split.
  - intros Hlen. rewrite Hcat. apply firstn_all_of.
    rewrite (Permutation_length (order_by_price_perm dir _ (listed c st))). exact Hlen.
  - intros os k Hp Hk _ Hlen. rewrite (Hpage os k Hp Hk).
    rewrite skipn_past_the_end; [reflexivity|].
    rewrite (Permutation_length (order_by_price_perm dir _ (listed c st))). lia.
Qed.

End Paging.

(** * Accounts *)

Section AccountProperties.
Context {P : Platform} {A : Accounts}.

Lemma strong_password_spec (s : string) :
  validate_password s = [] <-> strong_password s.
Proof.
  unfold strong_password.
  rewrite validate_password_nil, Nat.leb_le, !matches_class_spec.
  unfold is_upper, is_lower.
  setoid_rewrite char_between_spec. setoid_rewrite is_special_spec.
  reflexivity.
Qed.

Lemma validateUser_cases (req : Request) :
  (validateUser req = inr req /\ validateUser_errors (body req) = [])
  \/ (exists e l, validateUser req = inl (ValidationFailed (e :: l))
                  /\ validateUser_errors (body req) = e :: l).
Proof.
  unfold validateUser. destruct (validateUser_errors (body req)) as [|e l].
  - left. split; reflexivity.
  - right. exists e, l. split; reflexivity.
Qed.

Lemma User_create_inv (ve : option JsValue) (h : string) (vf vl vp : option JsValue)
    (db db' : Db) (user : User.t) :
  User_create ve h vf vl vp db = Some (user, db') ->
  exists e f l p,
    bind_string ve = Some e /\ bind_string vf = Some f
    /\ bind_string vl = Some l /\ bind_string vp = Some p
    /\ existsb (fun u => same_email e (User.email u)) (users (tables db)) = false
    /\ user = User.mk (nextUserId db) e h f l p
    /\ db' = set_users (users (tables db) ++ [user]) (nextUserId db + 1) db.
Proof.
  unfold User_create.
  destruct (bind_string ve) as [e|]; [|discriminate].
  destruct (bind_string vf) as [f|]; [|discriminate].
  destruct (bind_string vl) as [l|]; [|discriminate].
  destruct (bind_string vp) as [p|]; [|discriminate].
  destruct (existsb _ _) eqn:Ee; [discriminate|].
  intros H. injection H as <- <-. exists e, f, l, p. repeat split. exact Ee.
Qed.

Lemma signup_inv (env : Env) (req : Request) (db db' : Db) (out : AccountOutcome) :
  signup env req db = (db', out) ->
  (db' = db /\ out = RegistrationFailed)
  \/ (exists s user,
        body req !! "password" = Some (JStr s)
        /\ User_create (body req !! "email") (bcrypt_hash (salt env) s)
             (body req !! "firstName") (body req !! "lastName")
             (body req !! "phoneNumber") db = Some (user, db')
        /\ out = Answered 201 (session (User.id user) (User.email user)
                                 (jwt_sign (now env) {| userId := User.id user |}))).
Proof.
  unfold signup.
  destruct (body req !! "password") as [[| | |s| |]|];
    try (intros H; injection H as <- <-; left; split; reflexivity).
  destruct (User_create _ _ _ _ _ _) as [[user db1]|] eqn:Ec.
  - intros H. injection H as <- <-. right. exists s, user. repeat split. exact Ec.
  - intros H. injection H as <- <-. left. split; reflexivity.
Qed.

(** X15. What a 201 of POST /signup tells. The password of the body is a
    string of at least 10 characters with a letter in A-Z, one in a-z and a
    special character; no stored user had the e-mail; the Users table has
    one more row, the last, whose [id] is the old counter, whose password
    is the bcrypt hash of the password of the body and whose other columns
    are what the store read from the body; the rows that were there and
    the other tables are unchanged; the response carries the [id] and the
    e-mail of that row and a token signed for [{ userId: id }]. *)
Theorem signup_creates_account (env : Env) (req : Request) (db db' : Db)
    (i : Z) (e t : string) :
  POST_signup env req db = (db', Answered 201 (session i e t)) ->
  exists s f l p,
    body req !! "password" = Some (JStr s)
    /\ strong_password s
    /\ bind_string (body req !! "email") = Some e
    /\ bind_string (body req !! "firstName") = Some f
    /\ bind_string (body req !! "lastName") = Some l
    /\ bind_string (body req !! "phoneNumber") = Some p
    /\ (forall u, In u (users (tables db)) -> same_email e (User.email u) = false)
    /\ i = nextUserId db
    /\ t = jwt_sign (now env) {| userId := i |}
    /\ users (tables db')
       = users (tables db) ++ [User.mk i e (bcrypt_hash (salt env) s) f l p]
    /\ nextUserId db' = nextUserId db + 1
    /\ properties (tables db') = properties (tables db)
    /\ reservations (tables db') = reservations (tables db)
    /\ nextReservationId (tables db') = nextReservationId (tables db).
Proof.
  intros H. unfold POST_signup in H. cbn [account_route] in H.
  destruct (validateUser_cases req) as [[Ev Hnil] | (e0 & l0 & Ev & _)];
    rewrite Ev in H; [|discriminate].
  destruct (signup_inv _ _ _ _ _ H) as [[_ Ho] | (s & user & Hpw & Hc & Ho)];
    [discriminate|].
  destruct (User_create_inv _ _ _ _ _ _ _ _ Hc)
    as (e' & f & l & p & He & Hf & Hl & Hp & Hfree & -> & ->).
  cbn [User.id User.email] in Ho. injection Ho as -> -> ->.
  exists s, f, l, p.
  assert (Hstrong : strong_password s).
  { apply strong_password_spec. unfold validateUser_errors in Hnil.
    apply app_nil in Hnil. destruct Hnil as [_ Hnil].
    apply app_nil in Hnil. destruct Hnil as [Hnil _].
    rewrite Hpw in Hnil. cbn [validate_password_field field_text] in Hnil.
    rewrite field_toString_JStr in Hnil. exact Hnil. }
  split; [exact Hpw|]. split; [exact Hstrong|]. split; [exact He|].
  split; [exact Hf|]. split; [exact Hl|]. split; [exact Hp|].
  split; [intros u Hu; exact (proj1 (existsb_false_iff _ _) Hfree u Hu)|].
  repeat split.
Qed.

(** X16. A POST /signup that is not answered 201 writes nothing. A body
    that fails [validateUser] is answered 400 with the list of errors and
    the handler does not run; a body that passes it whose e-mail some
    stored user already has is answered 400 "Registration failed. Please
    try again."; in both cases, and in every case but the 201, the
    database is unchanged. *)
Theorem signup_refusals_write_nothing (env : Env) (req : Request) (db : Db) :
  (forall db' out, POST_signup env req db = (db', out) ->
     (forall i e t, out <> Answered 201 (session i e t)) -> db' = db)
  /\ (validateUser_errors (body req) <> [] ->
      POST_signup env req db
      = (db, Refused {| status := 400;
                        payload := errors (validateUser_errors (body req)) |}))
  /\ (forall e,
        validateUser_errors (body req) = [] ->
        bind_string (body req !! "email") = Some e ->
        (exists u, In u (users (tables db)) /\ same_email e (User.email u) = true) ->
        POST_signup env req db = (db, RegistrationFailed)).
Proof.
  split; [|split].
  - intros db' out H Hn. unfold POST_signup in H. cbn [account_route] in H.
    destruct (validateUser req); [injection H as <- _; reflexivity|].
    destruct (signup_inv _ _ _ _ _ H) as [[-> _] | (s & user & _ & _ & ->)];
      [reflexivity|].
    destruct (Hn _ _ _ eq_refl).
  - intros Hne. unfold POST_signup. cbn [account_route]. unfold validateUser.
    destruct (validateUser_errors (body req)); [contradiction | reflexivity].
  - intros e Hnil He (u & Hu & Hsame).
    unfold POST_signup. cbn [account_route]. unfold validateUser. rewrite Hnil.
    unfold signup.
    destruct (body req !! "password") as [[| | |s| |]|]; try reflexivity.
    unfold User_create. rewrite He.
    destruct (bind_string (body req !! "firstName")); [|reflexivity].
    destruct (bind_string (body req !! "lastName")); [|reflexivity].
    destruct (bind_string (body req !! "phoneNumber")); [|reflexivity].
    replace (existsb _ (users (tables db))) with true; [reflexivity|].
    symmetry. apply existsb_exists. exists u. split; assumption.
Qed.

Lemma find_app_last {B : Type} (f : B -> bool) (l : list B) (x : B) :
  existsb f l = false -> f x = true -> List.find f (l ++ [x]) = Some x.
Proof.
  intros Hl Hx. induction l as [|y l IH]; cbn [app List.find].
  - rewrite Hx. reflexivity.
  - cbn [existsb] in Hl. apply orb_false_iff in Hl. destruct Hl as [Hy Hl].
    rewrite Hy. apply IH, Hl.
Qed.

(** X17. Sign up, then sign in. After a 201 of POST /signup for a body
    whose e-mail is the string [e] and whose password is the string [s], a
    POST /signin with the same e-mail and password is answered 200 with the
    [id] and e-mail of the new account and a token signed for it, provided
    bcrypt accepts [s] against the hash it made of it and the collation
    holds [e] equal to itself. *)
Theorem signup_then_signin (env env2 : Env) (req req2 : Request) (db db' : Db)
    (i : Z) (e0 t e s : string) :
  POST_signup env req db = (db', Answered 201 (session i e0 t)) ->
  body req !! "email" = Some (JStr e) ->
  body req !! "password" = Some (JStr s) ->
  body req2 !! "email" = Some (JStr e) ->
  body req2 !! "password" = Some (JStr s) ->
  bcrypt_compare s (bcrypt_hash (salt env) s) = true ->
  same_email e e = true ->
  POST_signin env2 req2 db'
  = (db', Answered 200 (session i e (jwt_sign (now env2) {| userId := i |}))).
Proof.
  intros H He Hs He2 Hs2 Hcmp Hrefl.
  unfold POST_signup in H. cbn [account_route] in H.
  destruct (validateUser_cases req) as [[Ev _] | (e1 & l1 & Ev & _)];
    rewrite Ev in H; [|discriminate].
  destruct (signup_inv _ _ _ _ _ H) as [[_ Ho] | (s' & user & Hpw & Hc & Ho)];
    [discriminate|].
  rewrite Hs in Hpw. injection Hpw as <-.
  destruct (User_create_inv _ _ _ _ _ _ _ _ Hc)
    as (e' & f & l & p & Hbe & _ & _ & _ & Hfree & -> & ->).
  rewrite He in Hbe. cbn [bind_string] in Hbe. rewrite sql_string_JStr in Hbe.
  injection Hbe as <-.
  cbn [User.id User.email] in Ho. injection Ho as -> _ _.
  unfold POST_signin. cbn [account_route]. unfold signin, User_findOne_email.
  rewrite He2, Hs2, email_filter_JStr.
  cbn [tables set_users users].
  erewrite find_app_last; [|exact Hfree|exact Hrefl].
  cbn [User.password User.id User.email]. rewrite Hcmp. reflexivity.
Qed.

Lemma signin_reads_only (env : Env) (req : Request) (db : Db) :
  fst (POST_signin env req db) = db.
Proof.
  unfold POST_signin. cbn [account_route]. unfold signin, User_findOne_email.
  destruct (body req !! "email") as [v|]; [|reflexivity].
  destruct (email_filter v) as [sel|]; [|reflexivity].
  destruct (List.find _ _) as [user|]; [|reflexivity].
  destruct (body req !! "password") as [[| | |s| |]|]; try reflexivity.
  destruct (bcrypt_compare _ _); reflexivity.
Qed.

(** X18. POST /signin never writes, answers 200 only to a password that
    bcrypt accepts against the stored hash of a stored user, and gives
    nothing away on refusal: with an e-mail and a password that are
    strings, an e-mail no stored user has and a wrong password for a
    stored user get the same answer, 401 "Login failed! Check
    authentication credentials.". *)
Theorem signin_answers (env : Env) (req : Request) (db : Db) :
  fst (POST_signin env req db) = db
  /\ (forall i e t,
        snd (POST_signin env req db) = Answered 200 (session i e t) ->
        exists user s,
          In user (users (tables db))
          /\ body req !! "password" = Some (JStr s)
          /\ bcrypt_compare s (User.password user) = true
          /\ i = User.id user /\ e = User.email user
          /\ t = jwt_sign (now env) {| userId := i |})
  /\ (forall e s,
        body req !! "email" = Some (JStr e) ->
        body req !! "password" = Some (JStr s) ->
        (forall u, In u (users (tables db)) -> same_email e (User.email u) = false)
        \/ (exists u, List.find (fun u => same_email e (User.email u))
                                (users (tables db)) = Some u
                      /\ bcrypt_compare s (User.password u) = false) ->
        POST_signin env req db = (db, LoginRefused)).
Proof.
  split; [apply signin_reads_only|].
  unfold POST_signin. cbn [account_route]. unfold signin, User_findOne_email.
  split.
  - intros i e t.
    destruct (body req !! "email") as [v|]; [|discriminate].
    destruct (email_filter v) as [sel|]; [|discriminate].
    destruct (List.find _ _) as [user|] eqn:Ef; [|discriminate].
    destruct (body req !! "password") as [[| | |s| |]|]; try discriminate.
    destruct (bcrypt_compare _ _) eqn:Ec; [|discriminate].
    cbn [snd]. intros H. injection H as <- <- <-.
    exists user, s. apply List.find_some in Ef. destruct Ef as [Hin _].
    repeat split; try assumption.
  - intros e s He Hs Hcase. rewrite He, Hs, email_filter_JStr.
    destruct Hcase as [Hnone | (u & Hf & Hc)].
    + replace (List.find _ _) with (@None User.t); [reflexivity|].
      symmetry. destruct (List.find _ _) as [u|] eqn:Ef; [|reflexivity].
      apply List.find_some in Ef. destruct Ef as [Hin Hm].
      rewrite (Hnone u Hin) in Hm. discriminate.
    + rewrite Hf, Hc. reflexivity.
Qed.

Lemma account_gate (h : AccountHandler) (rest : list Middleware) (env : Env)
    (req : Request) (db : Db) (c : Claims) :
  bearer req c ->
  account_route (authenticateJWT :: rest) h env req db
  = account_route rest h env (set_user c req) db.
Proof.
  intros Hb. cbn [account_route]. rewrite (authenticateJWT_pass req c Hb).
  reflexivity.
Qed.

(** X19. GET /users/:id makes no ownership check and sends the whole row.
    To every caller whose token verifies, whoever it is, it answers 200
    with the stored row that [:id] names, password hash included, or 404
    "User not found." when there is none; the database is unchanged. *)
Theorem any_caller_reads_any_account (env : Env) (req : Request) (db : Db)
    (c : Claims) :
  bearer req c ->
  GET_users_id env req db
  = (db, match User_findByPk (params_id req) db with
         | Some u => Answered 200 (account u)
         | None => UserNotFound
         end)
  /\ (forall u, User_findByPk (params_id req) db = Some u ->
        In u (users (tables db)) /\ User.id u = params_id req
        /\ exists u', snd (GET_users_id env req db) = Answered 200 (account u')
                      /\ User.password u' = User.password u).
Proof.
  intros Hb. unfold GET_users_id. rewrite (account_gate _ _ _ _ _ c Hb).
  cbn [account_route]. unfold get_user. cbn [params_id set_user].
  split.
  - destruct (User_findByPk _ _); reflexivity.
  - intros u Hf. rewrite Hf. unfold User_findByPk in Hf.
    apply List.find_some in Hf. destruct Hf as [Hin E]. apply Z.eqb_eq in E.
    split; [exact Hin|]. split; [exact E|]. exists u. split; reflexivity.
Qed.

Lemma validateUserUpdate_cases (req : Request) :
  (validateUserUpdate req = inr req /\ validateUserUpdate_errors (body req) = [])
  \/ (exists res, validateUserUpdate req = inl res).
Proof.
  unfold validateUserUpdate. destruct (validateUserUpdate_errors (body req)).
  - left. split; reflexivity.
  - right. eexists. reflexivity.
Qed.

(** X20. What a 200 of PUT /users/:id tells. The caller has a token that
    verifies, and nothing relates it to the row; [:id] names a stored row;
    the answer is that row with its [id] and e-mail as stored and the
    three names as the store read them from the body; its password is the
    bcrypt hash of the password of the body when that is a string, which
    then passes the four password checks, and the stored hash otherwise;
    rows with another [id], the counter and the other tables are
    unchanged. *)
Theorem update_account_frame (env : Env) (req : Request) (db db' : Db)
    (u' : User.t) :
  PUT_users_id env req db = (db', Answered 200 (account u')) ->
  exists c u,
    bearer req c
    /\ User_findByPk (params_id req) db = Some u
    /\ User.id u' = User.id u
    /\ User.email u' = User.email u
    /\ bind_string (body req !! "firstName") = Some (User.firstName u')
    /\ bind_string (body req !! "lastName") = Some (User.lastName u')
    /\ bind_string (body req !! "phoneNumber") = Some (User.phoneNumber u')
    /\ match body req !! "password" with
       | Some (JStr s) =>
           strong_password s /\ User.password u' = bcrypt_hash (salt env) s
       | _ => User.password u' = User.password u
       end
    /\ users (tables db')
       = List.map (fun x => if User.id x =? User.id u then u' else x)
                  (users (tables db))
    /\ nextUserId db' = nextUserId db
    /\ properties (tables db') = properties (tables db)
    /\ reservations (tables db') = reservations (tables db)
    /\ nextReservationId (tables db') = nextReservationId (tables db).
Proof.
  intros H. unfold PUT_users_id in H. cbn [account_route] in H.
  destruct (authenticateJWT_cases req) as [(r0 & E & _) | (c & E & Hb & _)];
    rewrite E in H; [discriminate|].
  destruct (validateUserUpdate_cases (set_user c req)) as [[Ev Hnil] | (r0 & Ev)];
    rewrite Ev in H; [|discriminate].
  cbn [body set_user] in Hnil.
  unfold put_user in H. cbn [params_id body set_user] in H.
  destruct (User_findByPk (params_id req) db) as [u|] eqn:Ef; [|discriminate].
  exists c, u. split; [exact Hb|]. split; [reflexivity|].
  assert (Hup : forall hp,
            match User_update u hp (body req !! "firstName") (body req !! "lastName")
                    (body req !! "phoneNumber") db with
            | Some (user', db1) => (db1, Answered 200 (account user'))
            | None => (db, Failed)
            end = (db', Answered 200 (account u')) ->
            User.id u' = User.id u /\ User.email u' = User.email u
            /\ bind_string (body req !! "firstName") = Some (User.firstName u')
            /\ bind_string (body req !! "lastName") = Some (User.lastName u')
            /\ bind_string (body req !! "phoneNumber") = Some (User.phoneNumber u')
            /\ User.password u' = hp
            /\ users (tables db')
               = List.map (fun x => if User.id x =? User.id u then u' else x)
                          (users (tables db))
            /\ nextUserId db' = nextUserId db
            /\ properties (tables db') = properties (tables db)
            /\ reservations (tables db') = reservations (tables db)
            /\ nextReservationId (tables db') = nextReservationId (tables db)).
  { intros hp. unfold User_update.
    destruct (bind_string (body req !! "firstName")) as [f|]; [|discriminate].
    destruct (bind_string (body req !! "lastName")) as [l|]; [|discriminate].
    destruct (bind_string (body req !! "phoneNumber")) as [p|]; [|discriminate].
    intros Hq. injection Hq as <- <-. repeat split. }
  unfold validateUserUpdate_errors in Hnil.
  destruct (body req !! "password") as [v|] eqn:Epw.
  - apply app_nil in Hnil. destruct Hnil as [Hpw _].
    destruct v as [| b | n | s | l | l]; cbn [js_truthy] in H.
    + destruct (Hup _ H) as (H1 & H2 & H3 & H4 & H5 & H6 & H7). tauto.
    + destruct b; [discriminate|].
      destruct (Hup _ H) as (H1 & H2 & H3 & H4 & H5 & H6 & H7). tauto.
    + destruct (negb (n =? 0)); [discriminate|].
      destruct (Hup _ H) as (H1 & H2 & H3 & H4 & H5 & H6 & H7). tauto.
    + cbn [validate_password_field field_text] in Hpw.
      rewrite field_toString_JStr in Hpw. apply strong_password_spec in Hpw.
      assert (Ht : truthy s = true).
      { destruct s; [|reflexivity]. destruct Hpw as [Hlen _]. cbn in Hlen. lia. }
      rewrite Ht in H.
      destruct (Hup _ H) as (H1 & H2 & H3 & H4 & H5 & H6 & H7). tauto.
    + discriminate.
    + discriminate.
  - destruct (Hup _ H) as (H1 & H2 & H3 & H4 & H5 & H6 & H7). tauto.
Qed.

End AccountProperties.

Section AccountInvariant.
Context {P : Platform} {A : Accounts}.

(** The ways a call of one of the account routes can leave the Users
    table. *)
Lemma account_step (h : AccountHandler) (env : Env) (req : Request) (db : Db) :
  In h account_routes ->
  fst (h env req db) = db
  \/ (exists new,
        fst (h env req db)
        = set_users (users (tables db) ++ [new]) (nextUserId db + 1) db
        /\ User.id new = nextUserId db
        /\ existsb (fun u => same_email (User.email new) (User.email u))
                   (users (tables db)) = false)
  \/ (exists u u',
        fst (h env req db)
        = set_users (List.map (fun x => if User.id x =? User.id u then u' else x)
                              (users (tables db)))
                    (nextUserId db) db
        /\ In u (users (tables db))
        /\ User.id u' = User.id u /\ User.email u' = User.email u).
Proof.
  intros Hh. unfold account_routes in Hh. cbn [In] in Hh.
  destruct Hh as [<- | [<- | [<- | [<- | []]]]].
  - unfold POST_signup. cbn [account_route].
    destruct (validateUser_cases req) as [[Ev _] | (e & l & Ev & _)]; rewrite Ev;
      [|left; reflexivity].
    destruct (signup env req db) as [db' out] eqn:E.
    destruct (signup_inv _ _ _ _ _ E) as [[-> _] | (s & user & _ & Hc & _)];
      [left; reflexivity|].
    destruct (User_create_inv _ _ _ _ _ _ _ _ Hc)
      as (e & f & l & p & _ & _ & _ & _ & Hfree & -> & ->).
    right. left. eexists. split; [reflexivity|]. split; [reflexivity | exact Hfree].
  - left. apply signin_reads_only.
  - left. unfold GET_users_id. cbn [account_route].
    destruct (authenticateJWT req); [reflexivity|].
    unfold get_user. destruct (User_findByPk _ _); reflexivity.
  - unfold PUT_users_id. cbn [account_route].
    destruct (authenticateJWT req) as [r0|rq]; [left; reflexivity|].
    destruct (validateUserUpdate_cases rq) as [[Ev _] | (r0 & Ev)]; rewrite Ev;
      [|left; reflexivity].
    unfold put_user.
    destruct (User_findByPk (params_id rq) db) as [u|] eqn:Ef; [|left; reflexivity].
    match goal with
    | |- context [match ?hashed with Some _ => _ | None => (db, Failed) end] =>
        destruct hashed as [hp|]; [|left; reflexivity]
    end.
    unfold User_update.
    destruct (bind_string (body rq !! "firstName")) as [f|]; [|left; reflexivity].
    destruct (bind_string (body rq !! "lastName")) as [l|]; [|left; reflexivity].
    destruct (bind_string (body rq !! "phoneNumber")) as [p|]; [|left; reflexivity].
    right. right. exists u. eexists. split; [reflexivity|].
    unfold User_findByPk in Ef. apply List.find_some in Ef.
    split; [apply Ef|]. split; reflexivity.
Qed.

Lemma same_id_same_user (l : list User.t) (x y : User.t) :
  NoDup (List.map User.id l) -> In x l -> In y l -> User.id x = User.id y -> x = y.
Proof.
  induction l as [|z l IH]; cbn [List.map In]; intros Hn Hx Hy E; [destruct Hx|].
  apply NoDup_cons in Hn. destruct Hn as [Hz Hl].
  assert (Hin : forall w, In w l -> User.id w <> User.id z).
  { intros w Hw Ew. apply Hz. apply list_elem_of_In. rewrite <- Ew.
    apply List.in_map, Hw. }
  destruct Hx as [<- | Hx], Hy as [<- | Hy].
  - reflexivity.
  - destruct (Hin y Hy (eq_sym E)).
  - destruct (Hin x Hx E).
  - apply IH; assumption.
Qed.

Lemma account_step_distinct (h : AccountHandler) (env : Env) (req : Request) (db : Db) :
  In h account_routes -> accounts_distinct db -> accounts_distinct (fst (h env req db)).
Proof.
  intros Hh (Hn & Hb & He).
  destruct (account_step h env req db Hh)
    as [-> | [(new & -> & Hid & Hfree) | (u & u' & -> & Hu & Hi & Hm)]].
  - repeat split; assumption.
  - unfold accounts_distinct. cbn [set_users tables users nextUserId].
    split; [|split].
    + rewrite List.map_app. cbn [List.map]. apply NoDup_app. split; [exact Hn|].
      split; [|apply NoDup_singleton].
      intros i Hi Hr. apply list_elem_of_In in Hi. apply list_elem_of_In in Hr.
      destruct Hr as [<- | []].
      apply List.in_map_iff in Hi. destruct Hi as (y & E & Hy).
      rewrite List.Forall_forall in Hb. specialize (Hb y Hy). lia.
    + apply List.Forall_app. split.
      * eapply List.Forall_impl; [|exact Hb]. intros y Hy. cbn beta in Hy. lia.
      * constructor; [lia | constructor].
    + intros i j ei ej Hij Hi Hj. rewrite List.map_app in Hi, Hj.
      cbn [List.map] in Hi, Hj.
      assert (Hlen : length (List.map User.email (users (tables db)))
                     = length (users (tables db))) by apply List.length_map.
      destruct (Nat.lt_ge_cases j (length (users (tables db)))) as [Hj' | Hj'].
      * rewrite List.nth_error_app1 in Hi, Hj by lia. exact (He i j ei ej Hij Hi Hj).
      * rewrite List.nth_error_app2 in Hj by lia.
        destruct (j - length (List.map User.email (users (tables db))))%nat
          as [|k] eqn:Ek; [|destruct k; discriminate].
        injection Hj as <-.
        rewrite List.nth_error_app1 in Hi by lia.
        apply List.nth_error_In, List.in_map_iff in Hi.
        destruct Hi as (ui & <- & Hui).
        exact (proj1 (existsb_false_iff _ _) Hfree ui Hui).
  - assert (Eid : List.map User.id
                    (List.map (fun x => if User.id x =? User.id u then u' else x)
                              (users (tables db)))
                  = List.map User.id (users (tables db))).
    { rewrite List.map_map. apply List.map_ext. intros x.
      destruct (Z.eqb_spec (User.id x) (User.id u)); congruence. }
    assert (Eem : List.map User.email
                    (List.map (fun x => if User.id x =? User.id u then u' else x)
                              (users (tables db)))
                  = List.map User.email (users (tables db))).
    { rewrite List.map_map. apply List.map_ext_in. intros x Hx.
      destruct (Z.eqb_spec (User.id x) (User.id u)) as [E|E]; [|reflexivity].
      rewrite (same_id_same_user _ x u Hn Hx Hu E). exact Hm. }
    unfold accounts_distinct. cbn [set_users tables users nextUserId].
    rewrite Eid, Eem. split; [exact Hn|]. split; [|exact He].
    apply List.Forall_forall. intros y Hy.
    apply List.in_map_iff in Hy. destruct Hy as (x & <- & Hx).
    rewrite List.Forall_forall in Hb.
    destruct (Z.eqb_spec (User.id x) (User.id u)) as [E|E]; [|apply Hb, Hx].
    rewrite Hi. apply Hb, Hu.
Qed.

(** X21. Served one after the other, in any number and order, requests to
    POST /signup, POST /signin, GET /users/:id and PUT /users/:id keep the
    accounts distinct: no stored user has the e-mail of a user stored
    before it, and the primary keys of the Users table stay pairwise
    different and below the counter. *)
Theorem serial_requests_keep_accounts_distinct
    (calls : list (AccountHandler * Env * Request)) (db : Db) :
  Forall (fun call => In (fst (fst call)) account_routes) calls ->
  accounts_distinct db ->
  accounts_distinct (serve_accounts calls db).
Proof.
  revert db. induction calls as [|[[h env] req] calls IH]; intros db Hc Hd; [exact Hd|].
  apply List.Forall_cons_iff in Hc. destruct Hc as [Hh Hc]. cbn [serve_accounts].
  apply IH; [exact Hc|]. apply account_step_distinct; assumption.
Qed.

End AccountInvariant.

(** * Worked examples of the further properties *)

Section FurtherExamples.
Import Fixture Sample SampleRuns.

Lemma booked_store_fresh : ids_fresh booked_store.
Proof.
  split.
  - apply NoDup_singleton.
  - constructor; [reflexivity | constructor].
Defined.

Lemma calls_are_routes :
  Forall (fun call => In (fst call) reservation_routes) calls.
Proof.
  unfold calls, reservation_routes.
  repeat (constructor; [cbn [fst In]; tauto|]). constructor.
Defined.

(** Five requests on the empty table. *)
Lemma serial_requests_keep_ids_fresh_witness : ids_fresh (serve calls empty_store).
Proof.
  apply (serial_requests_keep_ids_fresh calls empty_store calls_are_routes).
  split; constructor.
Defined.

(** The keys of the five requests are numbers and their dates are days of
    their months: the ORM writes them as the overlap query reads them. *)
Lemma calls_read_alike :
  Forall (fun call => body_read_alike (body (snd call))) calls.
Proof.
  unfold calls.
  repeat (constructor;
          [split; [|split]; intros t H; vm_compute in H;
           first [discriminate | injection H as <-; reflexivity]|]).
  constructor.
Defined.

Lemma serial_requests_never_double_book_witness :
  no_double_booking (serve calls empty_store).
Proof.
  apply (serial_requests_never_double_book calls empty_store calls_are_routes
           calls_read_alike).
  - split; constructor.
  - intros x y [].
Defined.

(** A refused booking leaves the store as it was. *)
Lemma refused_requests_write_nothing_witness :
  fst (POST_reservations book_during_stay booked_store) = booked_store.
Proof.
  assert (E : POST_reservations book_during_stay booked_store
              = (fst (POST_reservations book_during_stay booked_store),
                 Sent BookingConflict)) by (vm_compute; reflexivity).
  apply (proj1 (refused_requests_write_nothing POST_reservations book_during_stay
                  booked_store _ _ (or_introl eq_refl) E)).
  right. exists BookingConflict. split; [reflexivity|]. split; discriminate.
Defined.

Lemma book_loft_created :
  POST_reservations book_loft booked_store
  = (inserted loft_stay booked_store,
     Sent {| status := 201; payload := reservation loft_stay |}).
Proof. vm_compute. reflexivity. Defined.

(** Bob reads the reservation Alice has just created. *)
Lemma created_reservation_is_found_witness :
  GET_reservations_id (request as_bob 2 ∅) (inserted loft_stay booked_store)
  = (inserted loft_stay booked_store,
     Sent {| status := 200; payload := reservation loft_stay |}).
Proof.
  destruct (created_reservation_is_found book_loft (request as_bob 2 ∅)
              booked_store _ _ {| userId := 2 |}
              booked_store_fresh book_loft_created eq_refl (bob_bearer _ _))
    as (r & Hp & Hget).
  cbn [payload] in Hp. injection Hp as <-. apply Hget. reflexivity.
Defined.

(** The new reservation is listed for Alice and not for Bob. *)
Lemma created_reservation_is_listed_witness :
  sent_reservations (GET_reservations (request as_alice 0 ∅)
                       (inserted loft_stay booked_store))
  = [stay; loft_stay]
  /\ sent_reservations (GET_reservations (request as_bob 0 ∅)
                          (inserted loft_stay booked_store))
     = [].
Proof.
  split.
  - destruct (created_reservation_is_listed book_loft (request as_alice 0 ∅)
                booked_store _ _ {| userId := 1 |} {| userId := 1 |}
                (alice_bearer _ _) book_loft_created eq_refl (alice_bearer _ _))
      as (r & Hp & Hl).
    cbn [payload] in Hp. injection Hp as <-. rewrite Hl. reflexivity.
  - destruct (created_reservation_is_listed book_loft (request as_bob 0 ∅)
                booked_store _ _ {| userId := 1 |} {| userId := 2 |}
                (alice_bearer _ _) book_loft_created eq_refl (bob_bearer _ _))
      as (r & Hp & Hl).
    cbn [payload] in Hp. injection Hp as <-. rewrite Hl. reflexivity.
Defined.

(** The request that created the reservation is refused the second time. *)
Lemma overlap_with_created_is_refused_witness :
  POST_reservations book_loft (inserted loft_stay booked_store)
  = (inserted loft_stay booked_store, Sent BookingConflict).
Proof.
  apply (proj2 (overlap_with_created_is_refused book_loft book_loft booked_store
                  _ _ loft_stay {| userId := 1 |} 0 0
                  book_loft_created eq_refl eq_refl)).
  - split; [|split]; intros t H; vm_compute in H; injection H as <-; reflexivity.
  - reflexivity.
Defined.

(** Bob deletes the stay of Alice. *)
Lemma deleted_reservation_is_gone_witness :
  exists st',
    DELETE_reservations_id cancel_first booked_store
    = (st', Sent {| status := 200;
                    payload := message "Reservation deleted successfully." |})
    /\ reservations st' = []
    /\ GET_reservations_id cancel_first st' = (st', Sent ReservationNotFound)
    /\ DELETE_reservations_id cancel_first st' = (st', Sent ReservationNotFound).
Proof.
  destruct (deleted_reservation_is_gone cancel_first booked_store {| userId := 2 |}
              stay (bob_bearer _ _) eq_refl)
    as (st' & Hd & Hr & _ & Hg & Hd2).
  exists st'. split; [exact Hd|]. split; [rewrite Hr; reflexivity|].
  split; assumption.
Defined.

(** Once the stay of Alice is deleted, Bob gets the dates it blocked. *)
Lemma deletion_frees_the_dates_witness :
  POST_reservations book_during_stay booked_store
  = (booked_store, Sent BookingConflict)
  /\ exists new,
       POST_reservations book_during_stay
         (fst (DELETE_reservations_id cancel_first booked_store))
       = (inserted new (fst (DELETE_reservations_id cancel_first booked_store)),
          Sent {| status := 201; payload := reservation new |})
       /\ new = Reservation.mk 2 1736380800000 1736640000000 2 1.
Proof.
  split; [vm_compute; reflexivity|].
  apply (deletion_frees_the_dates cancel_first book_during_stay booked_store
           {| userId := 2 |} {| userId := 2 |} stay 1
           1736380800000 1736640000000 1736380800000 1736640000000
           (bob_bearer _ _) eq_refl (bob_bearer _ _) (conj eq_refl eq_refl)
           eq_refl eq_refl (conj eq_refl eq_refl) eq_refl (conj eq_refl eq_refl)).
  - intros x [<- | []] _ _. reflexivity.
  - exists cabin. split; [left; reflexivity | reflexivity].
  - exists bob. split; [right; left; reflexivity | reflexivity].
Defined.

Lemma move_stay_updated :
  PUT_reservations_id (request as_alice 1 (dates_body 1 "2025-01-05" "2025-01-15"))
    booked_store
  = (retimed 1 1736035200000 1736899200000 booked_store,
     Sent {| status := 200;
             payload := reservation
               (Reservation.mk 1 1736035200000 1736899200000 1 1) |}).
Proof. vm_compute. reflexivity. Defined.

(** Bob reads the stay Alice has just moved. *)
Lemma updated_reservation_is_found_witness :
  GET_reservations_id (request as_bob 1 ∅)
    (retimed 1 1736035200000 1736899200000 booked_store)
  = (retimed 1 1736035200000 1736899200000 booked_store,
     Sent {| status := 200;
             payload := reservation
               (Reservation.mk 1 1736035200000 1736899200000 1 1) |}).
Proof.
  exact (updated_reservation_is_found _ (request as_bob 1 ∅) booked_store _ _
           {| userId := 2 |} move_stay_updated eq_refl (bob_bearer _ _) eq_refl).
Defined.

(** The same update, sent again. *)
Lemma update_is_idempotent_witness :
  PUT_reservations_id (request as_alice 1 (dates_body 1 "2025-01-05" "2025-01-15"))
    (retimed 1 1736035200000 1736899200000 booked_store)
  = (retimed 1 1736035200000 1736899200000 booked_store,
     Sent {| status := 200;
             payload := reservation
               (Reservation.mk 1 1736035200000 1736899200000 1 1) |}).
Proof.
  exact (update_is_idempotent _ booked_store _ _ move_stay_updated eq_refl).
Defined.

(** Alice reads a reservation: the handler runs with her identity. *)
Lemma bearer_route_admits_witness :
  exists req',
    route [authenticateJWT] get_reservation
      (request (Some "Bearer token-of-user-1") 1 ∅) booked_store
    = route [] get_reservation req' booked_store
    /\ user req' = Some {| userId := 1 |}.
Proof.
  destruct (bearer_route_admits (P := Fixture.platform) [] get_reservation
              (request (Some "Bearer token-of-user-1") 1 ∅) booked_store
              "token-of-user-1" {| userId := 1 |} eq_refl eq_refl)
    as (req' & Hr & Hu & _).
  exists req'. split; assumption.
Defined.

(** An arrival that is not a date, on an [:id] that names no reservation:
    400 with one error, not 404. *)
Lemma invalid_dates_are_all_reported_witness :
  exists l,
    PUT_reservations_id book_badly booked_store
    = (booked_store, Sent {| status := 400; payload := errors l |})
    /\ In {| path := "arrivalTime"; msg := "Must be a valid date" |} l
    /\ ~ In {| path := "departureTime"; msg := "Must be a valid date" |} l.
Proof.
  destruct (invalid_dates_are_all_reported (P := Fixture.platform) put_reservation
              book_badly booked_store {| userId := 1 |} (alice_bearer _ _))
    as (l & Hr & _ & Ha & Hd & _).
  - intros [Ha _]. vm_compute in Ha. discriminate.
  - exists l. split; [exact Hr|]. split.
    + apply Ha. intros H. vm_compute in H. discriminate.
    + intros Hin. apply Hd in Hin. apply Hin. reflexivity.
Defined.

(** "a@b.c" has the three parts; "a@b" has no dot after the "@". *)
Lemma email_pattern_meaning_witness :
  (exists A B C,
     list_ascii_of_string "carol@example.org" = A ++ "@"%char :: B ++ "."%char :: C
     /\ A <> [] /\ B <> [] /\ C <> [])
  /\ matches_email (list_ascii_of_string "carol@example") = false.
Proof.
  split.
  - destruct (proj1 (email_pattern_meaning "carol@example.org") eq_refl)
      as (A & B & C & E & HA & HB & HC & _).
    exists A, B, C. auto.
  - reflexivity.
Defined.

(** Two pages of the listing of the three properties of capacity 4. *)
Lemma pages_partition_the_listing_witness :
  concat (List.map (fun os => sent_properties
                                (GET_properties (with_offset os page_request)
                                   listing_store))
                   ["0"; "1"])
  = [villa; cabin; hut]
  /\ GET_properties (with_offset "1" page_request) listing_store
     = (listing_store, Sent {| status := 200; payload := property_list [] |}).
Proof.
  destruct (pages_partition_the_listing page_request listing_store (Some 4) desc
              ["0"; "1"]
              (or_intror (ex_intro _ "4" (ex_intro _ 4
                 (conj eq_refl (conj eq_refl (conj four_is_safe eq_refl))))))
              (fun _ => eq_refl) (fun N => match N eq_refl with end))
    as (_ & _ & _ & Hall & Hlast).
  - repeat constructor; intros H; vm_compute in H; discriminate.
  - intros [|[|[|k]]] os H; cbn in H; try discriminate; injection H as <-;
      reflexivity.
  - split; reflexivity.
  - split.
    + rewrite Hall; [reflexivity | cbn; lia].
    + apply (Hlast "1" 1); [reflexivity | lia | split; reflexivity | cbn; lia].
Defined.

(** A request that overlaps the booked stay is refused; two stays back to
    back on the same property are both created. *)
Lemma conflict_iff_overlap_when_read_alike_witness :
  POST_reservations (request as_bob 0 (dates_body 1 "2025-01-09" "2025-01-12"))
    booked_store
  = (booked_store, Sent BookingConflict)
  /\ exists r1 r2 st1 st2,
       POST_reservations (request as_alice 0 (dates_body 1 "2025-01-01" "2025-01-05"))
         empty_store
       = (st1, Sent {| status := 201; payload := reservation r1 |})
       /\ POST_reservations (request as_bob 0 (dates_body 1 "2025-01-05" "2025-01-10"))
            st1
          = (st2, Sent {| status := 201; payload := reservation r2 |})
       /\ reservations st2 = [r1; r2]
       /\ Reservation.departureTime r1 = Reservation.arrivalTime r2.
Proof.
  split.
  - apply (proj1 (conflict_iff_overlap_when_read_alike
                    (request as_bob 0 (dates_body 1 "2025-01-09" "2025-01-12"))
                    booked_store {| userId := 2 |} 1 1736380800000 1736640000000
                    (bob_bearer _ _) (conj eq_refl eq_refl) eq_refl eq_refl
                    (conj eq_refl eq_refl) eq_refl (conj eq_refl eq_refl))).
    exists stay. split; [left; reflexivity|]. repeat split.
  - destruct (conflict_iff_overlap_when_read_alike
                (request as_alice 0 (dates_body 1 "2025-01-01" "2025-01-05"))
                empty_store {| userId := 1 |} 1 1735689600000 1736035200000
                (alice_bearer _ _) (conj eq_refl eq_refl) eq_refl eq_refl
                (conj eq_refl eq_refl) eq_refl (conj eq_refl eq_refl))
      as (_ & Hcreate & Hnext).
    assert (H1 := Hcreate (fun x (H : In x []) => match H with end)
                    (ex_intro _ cabin (conj (or_introl eq_refl) eq_refl))
                    (ex_intro _ alice (conj (or_introl eq_refl) eq_refl))).
    destruct (Hnext (request as_bob 0 (dates_body 1 "2025-01-05" "2025-01-10"))
                {| userId := 2 |} 1736035200000 1736467200000 _ _ H1
                (bob_bearer _ _) (conj eq_refl eq_refl) eq_refl eq_refl
                (conj eq_refl eq_refl) eq_refl (conj eq_refl eq_refl)
                (or_introl eq_refl)
                (fun x (H : In x []) => match H with end)
                (ex_intro _ bob (conj (or_intror (or_introl eq_refl)) eq_refl)))
      as (r2 & st2 & H2 & Hres & _ & Hr2).
    eexists _, r2, _, st2. split; [exact H1|]. split; [exact H2|].
    split; [exact Hres|]. rewrite Hr2. reflexivity.
Defined.

End FurtherExamples.

Section AccountExamples.
Import Fixture AccountFixture Sample SampleAccounts.

Lemma carol_signed_up :
  POST_signup env0 signup_carol db0
  = (db1, Answered 201 (session 3 "carol@example.org" "token-of-user-3")).
Proof. vm_compute. reflexivity. Defined.

(** Carol signs up with "LongEnough1!". *)
Lemma signup_creates_account_witness :
  strong_password "LongEnough1!"
  /\ users (tables db1) = users (tables db0) ++ [carol]
  /\ nextUserId db1 = nextUserId db0 + 1.
Proof.
  destruct (signup_creates_account env0 signup_carol db0 db1 3 _ _ carol_signed_up)
    as (s & f & l & p & Hpw & Hstrong & He & Hf & Hl & Hp & _ & _ & _ & Hu & Hn & _).
  vm_compute in Hpw. injection Hpw as <-.
  split; [exact Hstrong|]. split; [reflexivity | exact Hn].
Defined.

(** A signup with the e-mail of Alice is refused and writes nothing. *)
Lemma signup_refusals_write_nothing_witness :
  POST_signup env0 signup_taken db0 = (db0, RegistrationFailed).
Proof.
  apply (proj2 (proj2 (signup_refusals_write_nothing env0 signup_taken db0))
           "alice@example.org").
  - vm_compute. reflexivity.
  - vm_compute. reflexivity.
  - exists alice. split; [left; reflexivity | reflexivity].
Defined.

(** Carol signs in with what she signed up with. *)
Lemma signup_then_signin_witness :
  POST_signin env0 signup_carol db1
  = (db1, Answered 200 (session 3 "carol@example.org" "token-of-user-3")).
Proof.
  apply (signup_then_signin env0 env0 signup_carol signup_carol db0 db1 3 _ _
           "carol@example.org" "LongEnough1!" carol_signed_up);
    vm_compute; reflexivity.
Defined.

(** An unknown e-mail and a wrong password get the same answer. *)
Lemma signin_answers_witness :
  POST_signin env0 signin_unknown db1 = (db1, LoginRefused)
  /\ POST_signin env0 signin_wrong db1 = (db1, LoginRefused).
Proof.
  split.
  - apply (proj2 (proj2 (signin_answers env0 signin_unknown db1))
             "dave@example.org" "LongEnough1!");
      [vm_compute; reflexivity | vm_compute; reflexivity |].
    left. intros u [<- | [<- | [<- | []]]]; reflexivity.
  - apply (proj2 (proj2 (signin_answers env0 signin_wrong db1))
             "carol@example.org" "Mistaken123!");
      [vm_compute; reflexivity | vm_compute; reflexivity |].
    right. exists carol. split; reflexivity.
Defined.

(** Bob reads the row of Alice, hash included. *)
Lemma any_caller_reads_any_account_witness :
  GET_users_id env0 (request as_bob 1 ∅) db0 = (db0, Answered 200 (account alice))
  /\ User.password alice = "$2a$10$hash-a".
Proof.
  split; [|reflexivity].
  exact (proj1 (any_caller_reads_any_account env0 (request as_bob 1 ∅) db0
                  {| userId := 2 |} (bob_bearer _ _))).
Defined.

Lemma alice_renamed :
  PUT_users_id env0 (request as_bob 1 rename_body) db0
  = (set_users [User.mk 1 "alice@example.org" "$2a$10$hash-a" "Alicia" "A" "0700000009";
                bob] 3 db0,
     Answered 200 (account (User.mk 1 "alice@example.org" "$2a$10$hash-a"
                              "Alicia" "A" "0700000009"))).
Proof. vm_compute. reflexivity. Defined.

(** Bob renames Alice: her e-mail and her password stay. *)
Lemma update_account_frame_witness :
  exists u,
    User_findByPk 1 db0 = Some u
    /\ User.email u = "alice@example.org"
    /\ User.password u = "$2a$10$hash-a".
Proof.
  destruct (update_account_frame env0 (request as_bob 1 rename_body) db0 _ _
              alice_renamed)
    as (c & u & _ & Hf & _ & He & _ & _ & _ & Hpw & _).
  exists u. split; [exact Hf|]. split; [symmetry; exact He|].
  cbn in Hpw. symmetry. exact Hpw.
Defined.

Lemma db0_distinct : accounts_distinct db0.
Proof.
  split; [|split].
  - cbn. apply NoDup_cons. split; [|apply NoDup_singleton].
    intros H. apply list_elem_of_In in H. destruct H as [H | []]. discriminate.
  - repeat constructor.
  - intros [|[|i]] [|[|[|j]]] ei ej Hij Hi Hj; cbn in Hi, Hj; try lia;
      try discriminate.
    injection Hi as <-. injection Hj as <-. reflexivity.
Defined.

(** Five account requests, among them a signup with a taken e-mail. *)
Lemma serial_requests_keep_accounts_distinct_witness :
  accounts_distinct (serve_accounts account_calls db0).
Proof.
  apply (serial_requests_keep_accounts_distinct account_calls db0); [|exact db0_distinct].
  unfold account_calls, account_routes.
  repeat (constructor; [cbn [fst In]; tauto|]). constructor.
Defined.

End AccountExamples.
